(** * modular-transformers: GPT-2 configuration and the sweep training script

    A shallow embedding of
    - [modular_transformers/models/gpt2/configuration_gpt2.py] ([GPT2Config]),
    - [modular_transformers/train/mt_sweep.py] ([evaluate], [main], the sweep
      declaration),
    with the properties of the design document stated against it.

    Python objects are [pyval]s, dicts are [gmap string pyval], exceptions are
    values of [exn], and statements that can raise or that mutate run in the
    state-and-exception monad [M]. *)

From Stdlib Require Import ZArith QArith String List Lia.
From stdpp Require Import gmap strings list fin_maps sorting.

Open Scope Z_scope.

(** ** Python values, exceptions, and the monad of statements *)

Module Py.

#[warnings="-register-all"]
Inductive pyval : Type :=
  | PyNone
  | PyBool (b : bool)
  | PyInt (z : Z)
  | PyFloat (q : Q)
  | PyStr (s : string)
  | PyDict (d : gmap string pyval).

Inductive exn : Type :=
  | ConfigurationError
  | ZeroDivisionError
  | KeyError (key : string)
  | AttributeError (attr : string)
  | UnboundLocalError (var : string)
  | OverflowError
  | ValueError (msg : string)
  | TypeError (msg : string)
  | RuntimeError (msg : string)
  | AssertionError.

Inductive result (A : Type) : Type :=
  | Ok (a : A)
  | Raise (e : exn).
Arguments Ok {A} a.
Arguments Raise {A} e.

(** A statement over a mutable store [S]: the store survives an exception. *)
Definition M (S A : Type) : Type := S -> result A * S.

Definition ret {S A} (a : A) : M S A := fun s => (Ok a, s).

Definition bind {S A B} (m : M S A) (k : A -> M S B) : M S B :=
  fun s => match m s with
           | (Ok a, s') => k a s'
           | (Raise e, s') => (Raise e, s')
           end.

Definition raise {S A} (e : exn) : M S A := fun s => (Raise e, s).

Definition get {S} : M S S := fun s => (Ok s, s).

Definition modify {S} (f : S -> S) : M S unit := fun s => (Ok tt, f s).

(** [try: m except <handled>: h] *)
Definition try_except {S A} (m : M S A) (handled : exn -> bool) (h : M S A)
  : M S A :=
  fun s => match m s with
           | (Ok a, s') => (Ok a, s')
           | (Raise e, s') => if handled e then h s' else (Raise e, s')
           end.

(** [for x in xs: body x] *)
Fixpoint for_each {S X} (xs : list X) (body : X -> M S unit) : M S unit :=
  match xs with
  | [] => ret tt
  | x :: xs' => bind (body x) (fun _ => for_each xs' body)
  end.

(** [for _ in range(n): a = body a] *)
Fixpoint iterate {S A} (n : nat) (body : A -> M S A) (a : A) : M S A :=
  match n with
  | O => ret a
  | S n' => bind (body a) (iterate n' body)
  end.

(** [d[key]] on a dict *)
Definition getitem {S} (d : gmap string pyval) (key : string) : M S pyval :=
  match d !! key with
  | Some v => ret v
  | None => raise (KeyError key)
  end.

(** [math.ceil(a / b)] for integers, [b] not zero ([/] on [Z] rounds down,
    as [//] does). *)
Definition ceil_div (a b : Z) : Z := - ((- a) / b).

(** [range(n)] and [enumerate(xs)] *)
Definition range (n : Z) : list Z := map Z.of_nat (seq 0 (Z.to_nat n)).

Definition enumerate {X} (xs : list X) : list (Z * X) :=
  combine (map Z.of_nat (seq 0 (length xs))) xs.

End Py.

Import Py.

Declare Scope py_scope.
Delimit Scope py_scope with py.
Notation "x <- m ;; k" := (bind m (fun x => k))
  (at level 100, m at next level, right associativity) : py_scope.
Notation "m ;;; k" := (bind m (fun _ => k))
  (at level 100, right associativity) : py_scope.

(** ** [modular_transformers.models.components] *)

Module components.

Inductive activation : Type := GELU.

Record Attention_t : Type := {
  attn_master_embd : Z;
  attn_n_embd : Z;
  attn_n_head : Z;
  attn_bias : bool;
  attn_dropout : Q;
  attn_mask_size : Z   (* causal mask, sized to the context length *)
}.

Record MLP_t : Type := {
  mlp_master_embd : Z;
  mlp_n_inner : Z;
  mlp_bias : bool;
  mlp_dropout : Q;
  mlp_activation : activation
}.

Record Block_t : Type := { blk_attn : Attention_t; blk_mlp : MLP_t }.

(** The store of module construction: the weights allocated so far. *)
Inductive alloc : Type :=
  | AttentionWeights (master_embd n_embd : Z) (bias : bool)
  | MLPWeights (master_embd n_inner : Z) (bias : bool).

Definition allocate (a : alloc) : M (list alloc) unit :=
  modify (fun h => h ++ [a]).

(** Modelled from the spec: the constructor of the attention sub-module,
    [components.Attention], is not among the sources.  The design document
    gives its contract: it is built from an embedding width, a head count, a
    dropout rate and a maximum sequence length, the embedding width must be
    divisible by the head count, and a violation "must fail fast with a
    configuration error before any weight allocation". *)
Definition Attention (master_embd n_embd n_head : Z) (bias : bool)
    (dropout : Q) (block_size : Z) : M (list alloc) Attention_t :=
  (if n_head =? 0 then raise ZeroDivisionError
   else if negb (n_embd mod n_head =? 0) then raise ConfigurationError
   else
     allocate (AttentionWeights master_embd n_embd bias) ;;;
     ret {| attn_master_embd := master_embd; attn_n_embd := n_embd;
            attn_n_head := n_head; attn_bias := bias;
            attn_dropout := dropout; attn_mask_size := block_size |})%py.

(** Modelled from the spec: the constructor of the feed-forward sub-module,
    [components.MLP], is not among the sources.  Its inner width defaults to
    four times the embedding width ([n_inner = None], "4x default" in the
    caller); the design document gives it no error condition. *)
Definition MLP (master_embd : Z) (n_inner : option Z) (bias : bool)
    (dropout : Q) (act : activation) : M (list alloc) MLP_t :=
  (let inner := match n_inner with Some n => n | None => 4 * master_embd end in
   allocate (MLPWeights master_embd inner bias) ;;;
   ret {| mlp_master_embd := master_embd; mlp_n_inner := inner;
          mlp_bias := bias; mlp_dropout := dropout;
          mlp_activation := act |})%py.

(** Modelled from the spec: [components.Block] is not among the sources; a
    block wires one attention sub-module and one feed-forward sub-module. *)
Definition Block (attn : Attention_t) (mlp : MLP_t) : M (list alloc) Block_t :=
  ret {| blk_attn := attn; blk_mlp := mlp |}.

End components.

(** ** [configuration_gpt2.GPT2Config] *)

Module GPT2Config.

Import components.

Record t : Type := {
  vocab_size : pyval;
  n_embd : Z;
  dropout : Q;
  block_size : Z;
  blocks : list Block_t
}.

(** The defaults of [__init__]. *)
Definition default_vocab_size : pyval := PyInt 50257.
Definition default_n_embd : Z := 768.
Definition default_drop : Q := 1 # 10.
Definition default_block_size : Z := 1024.

(** The per-block parameters, local constants of [__init__]
    ("universal for GPT2"). *)
Definition n_head : Z := 12.
Definition n_layer : Z := 12.
Definition bias : bool := true.
Definition n_inner : option Z := None.

(** One turn of [for _ in range(n_layer)]; [blocks] is [self.blocks]. *)
Definition add_block (embd : Z) (drop : Q) (bsize : Z) (act : activation)
    (blocks : list Block_t) : M (list alloc) (list Block_t) :=
  (attn <- Attention embd embd n_head bias drop bsize ;;
   mlp <- MLP embd n_inner bias drop act ;;
   block <- Block attn mlp ;;
   ret (blocks ++ [block]))%py.

(** What one turn builds when it succeeds. *)
Definition uniform_block (embd : Z) (drop : Q) (bsize : Z) (act : activation)
  : Block_t :=
  {| blk_attn := {| attn_master_embd := embd; attn_n_embd := embd;
                    attn_n_head := n_head; attn_bias := bias;
                    attn_dropout := drop; attn_mask_size := bsize |};
     blk_mlp := {| mlp_master_embd := embd; mlp_n_inner := 4 * embd;
                   mlp_bias := bias; mlp_dropout := drop;
                   mlp_activation := act |} |}.

Definition uniform_weights (embd : Z) : list alloc :=
  [AttentionWeights embd embd bias; MLPWeights embd (4 * embd) bias].

(** [GPT2Config.__init__(self, vocab_size, n_embd, drop, block_size)].
    Python does not check the arguments' types: [vocab_size] is stored as it
    is given. *)
Definition __init__ (vocab : pyval) (embd : Z) (drop : Q) (bsize : Z)
  : M (list alloc) t :=
  (let activation := GELU in
   blocks <- iterate (length (range n_layer))
               (add_block embd drop bsize activation) [] ;;
   ret {| vocab_size := vocab; n_embd := embd; dropout := drop;
          block_size := bsize; blocks := blocks |})%py.

(** What an attribute of a configuration holds. *)
Inductive value : Type :=
  | AttrObject (v : pyval)        (* [vocab_size]: what was passed, as it is *)
  | AttrInt (z : Z)
  | AttrFloat (q : Q)
  | AttrBlocks (bs : list Block_t).

(** [config.<name>]: an instance has the five attributes that [__init__]
    sets; the class defines no other attribute, no method and no
    [__getattr__]. *)
Definition getattr {S} (config : t) (name : string) : M S value :=
  if String.eqb name "vocab_size" then ret (AttrObject (vocab_size config))
  else if String.eqb name "n_embd" then ret (AttrInt (n_embd config))
  else if String.eqb name "dropout" then ret (AttrFloat (dropout config))
  else if String.eqb name "block_size" then ret (AttrInt (block_size config))
  else if String.eqb name "blocks" then ret (AttrBlocks (blocks config))
  else raise (AttributeError name).

End GPT2Config.

(** ** The numeric libraries: torch, the data loader, accelerate

    These are external to the repository.  What the training script relies on
    is gathered in an interface [Backend]; the script is embedded over an
    arbitrary backend, and one worker process is modelled. *)

Module torch.

Record Backend : Type := {
  scalar : Type;                   (* a float: a 0-dim tensor's or a Python float's payload *)
  inf : scalar;                    (* float("inf") *)
  exp : scalar -> scalar;          (* torch.exp on a 0-dim tensor: total, saturating *)
  mean : list scalar -> scalar;    (* torch.mean(torch.stack(ts)), ts non-empty *)
  example : Type;                  (* one grouped, padded token sequence *)
  weights : Type;                  (* the model's parameters *)
  grads : Type;                    (* their .grad buffers *)
  zero_grads : grads;
  opt_state : Type;                (* optimizer.state_dict() *)
  loss : bool -> weights -> list example -> scalar;
                                   (* model(batch, labels=batch).loss; the flag is model.training *)
  backprop : Z -> weights -> list example -> grads -> grads;
                                   (* accelerator.backward(loss): loss / accumulation steps, added to .grad *)
  adamw : scalar -> grads -> opt_state * weights -> opt_state * weights;
                                   (* AdamW.step() at a learning rate *)
  cosine_lr : Q -> Z -> Z -> Z -> scalar;
                                   (* base lr, warm-up steps, training steps, scheduler steps taken *)
  permute : Z -> list example -> list example
                                   (* the order the shuffling sampler draws on its k-th pass *)
}.

(** A float-valued Python object: a 0-dim tensor or a built-in float. *)
Inductive number (B : Backend) : Type :=
  | Tensor (x : scalar B)
  | Float (x : scalar B).
Arguments Tensor {B} x.
Arguments Float {B} x.

(** [o.item()]: tensors have it, built-in floats do not. *)
Definition item {B S} (o : number B) : M S (scalar B) :=
  match o with
  | Tensor x => ret x
  | Float _ => raise (AttributeError "item")
  end.

(** [torch.exp(t)] *)
Definition torch_exp {B S} (t : scalar B) : M S (number B) :=
  ret (Tensor (exp B t)).

(** [torch.mean(torch.stack(ts))]: [torch.stack] rejects an empty list. *)
Definition mean_stack {B S} (ts : list (scalar B)) : M S (scalar B) :=
  match ts with
  | [] => raise (RuntimeError "stack expects a non-empty TensorList")
  | _ => ret (mean B ts)
  end.

(** [torch.utils.data.DataLoader(dataset, shuffle=.., batch_size=..)] *)
Record DataLoader (B : Backend) : Type := {
  dataset : list (example B);
  shuffle : bool;
  batch_size : Z
}.
Arguments dataset {B} d.
Arguments shuffle {B} d.
Arguments batch_size {B} d.

(** The constructor: it rejects a batch size that is not positive.  (The
    check that the shuffling sampler makes on the size of the data set is not
    modelled: the statements that depend on a data set being empty or not say
    which they mean.) *)
Definition new_DataLoader {B S} (data : list (example B)) (shuf : bool)
    (bs : Z) : M S (DataLoader B) :=
  if bs <=? 0 then raise (ValueError "batch_size should be a positive integer value")
  else ret {| dataset := data; shuffle := shuf; batch_size := bs |}.

(** Consecutive groups of [n] items, the last one possibly shorter
    ([drop_last=False]). *)
Fixpoint chunks_fuel {X} (fuel n : nat) (l : list X) : list (list X) :=
  match fuel, l with
  | O, _ | _, [] => []
  | S fuel', _ :: _ => firstn n l :: chunks_fuel fuel' n (skipn n l)
  end.

Definition chunks {X} (n : nat) (l : list X) : list (list X) :=
  chunks_fuel (length l) n l.

(** The batches of the [k]-th pass over a data loader. *)
Definition batches {B} (dl : DataLoader B) (k : Z) : list (list (example B)) :=
  chunks (Z.to_nat (batch_size dl))
         (if shuffle dl then permute B k (dataset dl) else dataset dl).

(** [len(dl)] *)
Definition len {B} (dl : DataLoader B) : Z :=
  ceil_div (Z.of_nat (length (dataset dl))) (batch_size dl).

End torch.

Module accelerate.

(** The part of the [Accelerator] object that gradient accumulation uses. *)
Record Accelerator : Type := {
  gradient_accumulation_steps : Z;
  step : Z;                (* micro-batches since the last reset *)
  sync_gradients : bool    (* do the wrapped optimizer and scheduler act? *)
}.

(** [Accelerator(log_with=.., gradient_accumulation_steps=n)] *)
Definition new (n : Z) : Accelerator :=
  {| gradient_accumulation_steps := n; step := 0; sync_gradients := true |}.

(** Entering [with accelerator.accumulate(model)]: the library's [_do_sync].
    [end_of_dataloader] holds on the last batch of the prepared loader. *)
Definition do_sync (end_of_dataloader : bool) (a : Accelerator) : Accelerator :=
  if end_of_dataloader then
    {| gradient_accumulation_steps := gradient_accumulation_steps a;
       step := 0; sync_gradients := true |}
  else
    {| gradient_accumulation_steps := gradient_accumulation_steps a;
       step := step a + 1;
       sync_gradients :=
         ((step a + 1) mod gradient_accumulation_steps a =? 0) |}.

End accelerate.

(** ** [train/mt_sweep.py] *)

Module mt_sweep.

Import torch accelerate.

Definition MAX_GPU_BATCH_SIZE : Z := 32.
Definition EVAL_BATCH_SIZE : Z := 32.
Definition CONTEXT_LENGTH : Z := 1024.

(** The module-level [accelerator]: its accumulation count is the literal
    [64 // MAX_GPU_BATCH_SIZE] ("hardcoding gradient accumulation steps is not
    ideal, but it's the only way to get the code to run"). *)
Definition accelerator : Accelerator := accelerate.new (64 / MAX_GPU_BATCH_SIZE).

(** The sweep declared under [__main__]: the parameter grid. *)
Definition sweep_parameters : gmap string (list Z) :=
  <["n_layer" := [5; 7]]>
    (<["bottleneck" := [788]]> (<["random_seed_num" := [3; 4]]> ∅)).

Definition sweep_metric : string := "validation/valid_loss".

(** [random.randint(lo, hi)]: the store is the generator, given as the raw
    integers it will produce. *)
Definition randint (lo hi : Z) : M (list Z) Z :=
  fun g => match g with
           | [] => (Ok lo, [])
           | raw :: g' => (Ok (lo + raw mod (hi - lo + 1)), g')
           end.

(** What [len(tokenizer)], [bos_token_id] and [eos_token_id] give. *)
Record Tokenizer : Type := { tok_len : Z; bos_token_id : Z; eos_token_id : Z }.

(** The directory
    [/om2/user/jackking/MyData/mt/miniberta_{data}/{model_name}/{run_name}/checkpoint_{absolute_step}],
    by its four holes. *)
Record checkpoint_dir : Type := {
  dir_data : string;
  dir_model_name : string;
  dir_run_name : string;
  dir_step : Z
}.

(** Does [needle] occur in [hay]? *)
Fixpoint occurs_in (needle hay : string) : bool :=
  String.prefix needle hay ||
  match hay with
  | EmptyString => false
  | String _ hay' => occurs_in needle hay'
  end.

Section WithBackend.

Context {B : Backend}.

(** The values of the first part of [main] (lines 73-119) that the rest
    uses. *)
Record setup : Type := {
  train_config : gmap string pyval;
  gradient_accumulation_steps_local : option Z;  (* bound only under the [if] *)
  batch_size_local : Z;
  eval_dataloader : DataLoader B;
  train_dataloader : DataLoader B;
  bottleneck_dim : pyval;
  n_layer : pyval;
  seed : Z
}.

(** [main], lines 73-119.  The literal [batch_size = 64] of line 74 is the
    argument [configured_batch_size]; the two datasets are what
    [load_from_disk] returned and [tracker_config] is the configuration object
    of the sweep controller's tracker. *)
Definition main_setup (configured_batch_size : Z)
    (grouped_pad_train grouped_pad_valid : list (example B))
    (tracker_config : gmap string pyval) : M (list Z) setup :=
  (let data := "100M"%string in
   let batch_size := configured_batch_size in
   let train_config : gmap string pyval :=
     <["lr" := PyFloat (6 # 10000)]>
       (<["num_epochs" := PyInt 17]>
          (<["correct_bias" := PyBool true]>
             (<["batch_size" := PyInt batch_size]>
                (<["data" := PyStr data]> ∅)))) in
   let '(gradient_accumulation_steps, batch_size) :=
     if configured_batch_size >? MAX_GPU_BATCH_SIZE
     then (Some (configured_batch_size / MAX_GPU_BATCH_SIZE), MAX_GPU_BATCH_SIZE)
     else (None, batch_size) in
   eval_dl <- new_DataLoader grouped_pad_valid false EVAL_BATCH_SIZE ;;
   train_dl <- new_DataLoader grouped_pad_train true batch_size ;;
   bottleneck <- getitem tracker_config "bottleneck" ;;
   layers <- getitem tracker_config "n_layer" ;;
   seed <- randint 1 10000 ;;
   let train_config := <["seed" := PyInt seed]> train_config in
   ret {| train_config := train_config;
          gradient_accumulation_steps_local := gradient_accumulation_steps;
          batch_size_local := batch_size;
          eval_dataloader := eval_dl;
          train_dataloader := train_dl;
          bottleneck_dim := bottleneck;
          n_layer := layers;
          seed := seed |})%py.

(** The dict of lines 121-129, handed to [GPT2Config] on line 130. *)
Definition model_config (tok : Tokenizer) (bottleneck layers : pyval)
  : gmap string pyval :=
  <["regsize" := bottleneck]>
    (<["vocab_size" := PyInt (tok_len tok)]>
       (<["n_ctx" := PyInt CONTEXT_LENGTH]>
          (<["bos_token_id" := PyInt (bos_token_id tok)]>
             (<["eos_token_id" := PyInt (eos_token_id tok)]>
                (<["bottleneck" := bottleneck]>
                   (<["n_layer" := layers]> ∅)))))).

(** Line 130, [config = GPT2Config(config)]: the dict is the first positional
    argument, the others take their defaults. *)
Definition build_config (tok : Tokenizer) (su : setup)
  : M (list components.alloc) GPT2Config.t :=
  GPT2Config.__init__ (PyDict (model_config tok (bottleneck_dim su) (n_layer su)))
    GPT2Config.default_n_embd GPT2Config.default_drop
    GPT2Config.default_block_size.

(** *** The training part of [main] (lines 183-286)

    The statements of lines 131-181 build the model, the optimizer and the
    scheduler through interfaces that are not among the sources
    ([components.LM], [config.n_embds], [config.get()]); what they produce (the
    model's name, the initial weights and optimizer state) is an input here. *)

(** The dict that [accelerator.save] writes to [accelerator_states]. *)
Record accelerator_states : Type := {
  ck_epoch : Z;
  ck_steps : Z;
  ck_optimizer : opt_state B;
  ck_scheduler : Z      (* the scheduler's state: steps taken *)
}.

(** A value given to [accelerator.log]. *)
Inductive logged : Type :=
  | LogTensor (x : scalar B)
  | LogFloat (x : scalar B)
  | LogInt (z : Z)
  | LogRatio (num den : Z).   (* the float [num / den] *)

(** What the run does to the outside, and the operations that take effect on
    the model: a wrapped optimizer or scheduler acts only while
    [sync_gradients] holds, and only then is its operation recorded. *)
Inductive operation : Type :=
  | Backward          (* accelerator.backward(loss) *)
  | SchedulerStep     (* lr_scheduler.step() *)
  | OptimizerStep     (* optimizer.step() *)
  | ZeroGrad.         (* optimizer.zero_grad() *)

Inductive event : Type :=
  | Did (op : operation)
  | Log (key : string) (value : logged) (at_step : Z)
  | Print (valid_loss perplexity : scalar B)
  | Mkdir (dir : checkpoint_dir)
  | WaitForEveryone
  | EndTraining
  | SavePretrained (dir : checkpoint_dir) (w : weights B)
  | SaveStates (dir : checkpoint_dir) (s : accelerator_states).

(** The cosine scheduler: its constructor's arguments and the steps taken. *)
Record scheduler : Type := {
  base_lr : Q;
  num_warmup_steps : Z;
  num_training_steps : Z;
  taken : Z
}.

Definition get_last_lr (s : scheduler) : scalar B :=
  cosine_lr B (base_lr s) (num_warmup_steps s) (num_training_steps s) (taken s).

(** The store of the training part: the accelerator, the prepared objects,
    the locals of [main], and the events so far. *)
Record run : Type := {
  acc : Accelerator;
  training : bool;                 (* model.training *)
  model : weights B;
  grad : grads B;
  optimizer : opt_state B;
  lr_scheduler : scheduler;
  data_count : Z;
  absolute_step : Z;
  epoch_var : option Z;            (* [epoch], unbound before the outer loop *)
  step_var : option Z;             (* [step], unbound before the inner loop *)
  trace : list event
}.

(** The store with one part replaced. *)
Definition emitting (es : list event) (r : run) : run :=
  {| acc := acc r; training := training r; model := model r;
     grad := grad r; optimizer := optimizer r;
     lr_scheduler := lr_scheduler r; data_count := data_count r;
     absolute_step := absolute_step r; epoch_var := epoch_var r;
     step_var := step_var r; trace := trace r ++ es |}.

Definition with_training (b : bool) (r : run) : run :=
  {| acc := acc r; training := b; model := model r; grad := grad r;
     optimizer := optimizer r; lr_scheduler := lr_scheduler r;
     data_count := data_count r; absolute_step := absolute_step r;
     epoch_var := epoch_var r; step_var := step_var r; trace := trace r |}.

Definition with_acc (a : Accelerator) (r : run) : run :=
  {| acc := a; training := training r; model := model r; grad := grad r;
     optimizer := optimizer r; lr_scheduler := lr_scheduler r;
     data_count := data_count r; absolute_step := absolute_step r;
     epoch_var := epoch_var r; step_var := step_var r; trace := trace r |}.

Definition with_grad (g : grads B) (r : run) : run :=
  {| acc := acc r; training := training r; model := model r; grad := g;
     optimizer := optimizer r; lr_scheduler := lr_scheduler r;
     data_count := data_count r; absolute_step := absolute_step r;
     epoch_var := epoch_var r; step_var := step_var r; trace := trace r |}.

Definition with_optimized (ow : opt_state B * weights B) (r : run) : run :=
  {| acc := acc r; training := training r; model := snd ow; grad := grad r;
     optimizer := fst ow; lr_scheduler := lr_scheduler r;
     data_count := data_count r; absolute_step := absolute_step r;
     epoch_var := epoch_var r; step_var := step_var r; trace := trace r |}.

Definition with_scheduler (s : scheduler) (r : run) : run :=
  {| acc := acc r; training := training r; model := model r;
     grad := grad r; optimizer := optimizer r; lr_scheduler := s;
     data_count := data_count r; absolute_step := absolute_step r;
     epoch_var := epoch_var r; step_var := step_var r; trace := trace r |}.

Definition with_counters (count abs : Z) (r : run) : run :=
  {| acc := acc r; training := training r; model := model r;
     grad := grad r; optimizer := optimizer r;
     lr_scheduler := lr_scheduler r; data_count := count;
     absolute_step := abs; epoch_var := epoch_var r;
     step_var := step_var r; trace := trace r |}.

Definition with_epoch (e : Z) (r : run) : run :=
  {| acc := acc r; training := training r; model := model r;
     grad := grad r; optimizer := optimizer r;
     lr_scheduler := lr_scheduler r; data_count := data_count r;
     absolute_step := absolute_step r; epoch_var := Some e;
     step_var := step_var r; trace := trace r |}.

Definition with_step (i : Z) (r : run) : run :=
  {| acc := acc r; training := training r; model := model r;
     grad := grad r; optimizer := optimizer r;
     lr_scheduler := lr_scheduler r; data_count := data_count r;
     absolute_step := absolute_step r; epoch_var := epoch_var r;
     step_var := Some i; trace := trace r |}.

Definition emit (e : event) : M run unit := modify (emitting [e]).
Definition set_training (b : bool) : M run unit := modify (with_training b).
Definition set_acc (a : Accelerator) : M run unit := modify (with_acc a).
Definition set_grad (g : grads B) : M run unit := modify (with_grad g).
Definition set_optimized (ow : opt_state B * weights B) : M run unit :=
  modify (with_optimized ow).
Definition set_scheduler (s : scheduler) : M run unit :=
  modify (with_scheduler s).
Definition set_counters (count abs : Z) : M run unit :=
  modify (with_counters count abs).
Definition set_epoch (e : Z) : M run unit := modify (with_epoch e).
Definition set_step (i : Z) : M run unit := modify (with_step i).

(** Reading a local that a loop may never have bound. *)
Definition read_var {S} (name : string) (v : option Z) : M S Z :=
  match v with
  | Some z => ret z
  | None => raise (UnboundLocalError name)
  end.

Definition is_OverflowError (e : exn) : bool :=
  match e with OverflowError => true | _ => false end.

(** [evaluate(model, eval_dataloader, accelerator)], lines 53-69.  One worker:
    [accelerator.gather] returns the loss as it is.  (For a loader without
    data the call raises after [model.eval()] and before anything is printed,
    here at [torch.stack]; which statement of the function raises first in
    that case depends on the loader that accelerate hands back and is not
    distinguished.) *)
Definition evaluate (eval_dl : DataLoader B) : M run (scalar B * scalar B) :=
  (set_training false ;;;
   r <- get ;;
   let losses :=
     fold_left (fun losses '(_, batch) =>
                  losses ++ [loss B (training r) (model r) batch])
               (enumerate (batches eval_dl 0)) [] in
   l <- mean_stack losses ;;
   let loss := Tensor l in
   perplexity <- try_except (torch_exp l) is_OverflowError
                   (ret (Float (inf B))) ;;
   printed_loss <- item loss ;;
   printed_perplexity <- item perplexity ;;
   emit (Print printed_loss printed_perplexity) ;;;
   returned_loss <- item loss ;;
   returned_perplexity <- item perplexity ;;
   ret (returned_loss, returned_perplexity))%py.

(** [lr_scheduler.step()], [optimizer.step()] and [optimizer.zero_grad()] on
    the prepared (wrapped) objects. *)
Definition scheduler_step : M run unit :=
  (r <- get ;;
   if sync_gradients (acc r) then
     let s := lr_scheduler r in
     set_scheduler {| base_lr := base_lr s;
                      num_warmup_steps := num_warmup_steps s;
                      num_training_steps := num_training_steps s;
                      taken := taken s + 1 |} ;;;
     emit (Did SchedulerStep)
   else ret tt)%py.

Definition optimizer_step : M run unit :=
  (r <- get ;;
   if sync_gradients (acc r) then
     set_optimized (adamw B (get_last_lr (lr_scheduler r)) (grad r)
                      (optimizer r, model r)) ;;;
     emit (Did OptimizerStep)
   else ret tt)%py.

Definition optimizer_zero_grad : M run unit :=
  (r <- get ;;
   if sync_gradients (acc r) then
     set_grad (zero_grads B) ;;; emit (Did ZeroGrad)
   else ret tt)%py.

(** Lines 200-207: the body of [with accelerator.accumulate(model)]; it
    leaves [loss]. *)
Definition accumulate (end_of_dataloader : bool) (batch : list (example B))
  : M run (scalar B) :=
  (r <- get ;;
   set_acc (do_sync end_of_dataloader (acc r)) ;;;
   r <- get ;;
   let loss := loss B (training r) (model r) batch in
   set_grad (backprop B (gradient_accumulation_steps (acc r)) (model r)
               batch (grad r)) ;;;
   emit (Did Backward) ;;;
   scheduler_step ;;;
   optimizer_step ;;;
   optimizer_zero_grad ;;;
   ret loss)%py.

(** [accelerator.log({key: value}, step=step)] *)
Definition log (key : string) (value : logged) (at_step : Z) : M run unit :=
  emit (Log key value at_step).

(** [a / b] on two ints *)
Definition truediv {S} (a b : Z) : M S logged :=
  if b =? 0 then raise ZeroDivisionError else ret (LogRatio a b).

(** Lines 224-237: the periodic evaluation. *)
Definition periodic_evaluation (eval_dl : DataLoader B) : M run unit :=
  (r <- get ;;
   let absolute_step := absolute_step r in
   set_training false ;;;
   returned <- evaluate eval_dl ;;
   let '(valid_loss, valid_accuracy) := returned in
   log "validation/valid_loss" (LogFloat valid_loss) absolute_step ;;;
   log "validation/valid_accuracy" (LogFloat valid_accuracy) absolute_step ;;;
   set_training true)%py.

(** Lines 240-260, and again lines 263-283: writing a checkpoint. *)
Definition save_checkpoint (data model_name run_name : string) : M run unit :=
  (r <- get ;;
   let save_dir := {| dir_data := data; dir_model_name := model_name;
                      dir_run_name := run_name;
                      dir_step := absolute_step r |} in
   emit (Mkdir save_dir) ;;;
   emit WaitForEveryone ;;;
   emit (SavePretrained save_dir (model r)) ;;;
   epoch <- read_var "epoch" (epoch_var r) ;;
   step <- read_var "step" (step_var r) ;;
   emit (SaveStates save_dir
           {| ck_epoch := epoch; ck_steps := step;
              ck_optimizer := optimizer r;
              ck_scheduler := taken (lr_scheduler r) |}))%py.

(** Lines 209-211: [data_count += batch[0].shape[0]; absolute_step += 1]. *)
Definition count_batch (batch : list (example B)) : M run unit :=
  (r <- get ;;
   set_counters (data_count r + Z.of_nat (length batch))
                (absolute_step r + 1))%py.

(** Lines 213-222: the four training logs. *)
Definition log_training (loss : scalar B) (n_steps_per_epoch : Z)
  : M run unit :=
  (r <- get ;;
   log "train/train_loss" (LogTensor loss) (absolute_step r) ;;;
   fraction <- truediv (absolute_step r + 1) n_steps_per_epoch ;;
   log "train/epoch" fraction (absolute_step r) ;;;
   log "train/data_count" (LogInt (data_count r)) (absolute_step r) ;;;
   log "train/learning_rate" (LogFloat (get_last_lr (lr_scheduler r)))
       (absolute_step r))%py.

(** One turn of the inner loop, lines 192-260. *)
Definition train_batch (data model_name run_name : string)
    (eval_dl : DataLoader B) (n_steps_per_epoch last_index : Z)
    (indexed : Z * list (example B)) : M run unit :=
  (let '(step, batch) := indexed in
   set_step step ;;;
   loss <- accumulate (step =? last_index) batch ;;
   count_batch batch ;;;
   log_training loss n_steps_per_epoch ;;;
   r <- get ;;
   (if absolute_step r mod 200 =? 0 then periodic_evaluation eval_dl
    else ret tt) ;;;
   r <- get ;;
   (if absolute_step r mod 20000 =? 0
    then save_checkpoint data model_name run_name
    else ret tt))%py.

(** One turn of the outer loop, lines 189-260. *)
Definition train_epoch (data model_name run_name : string)
    (eval_dl train_dl : DataLoader B) (n_steps_per_epoch : Z) (epoch : Z)
  : M run unit :=
  (set_epoch epoch ;;;
   set_training true ;;;
   let todo := batches train_dl epoch in
   for_each (enumerate todo)
     (train_batch data model_name run_name eval_dl n_steps_per_epoch
        (Z.of_nat (length todo) - 1)))%py.

(** [range(train_config["num_epochs"])] *)
Definition epochs_of {S} (train_config : gmap string pyval) : M S (list Z) :=
  (n <- getitem train_config "num_epochs" ;;
   match n with
   | PyInt n => ret (range n)
   | _ => raise (TypeError "object cannot be interpreted as an integer")
   end)%py.

(** Lines 183-286. *)
Definition main_train (model_name : string) (su : setup) : M run unit :=
  (let data := "100M"%string in
   let run_name := "reg_loss"%string in
   let n_steps_per_epoch :=
     ceil_div (Z.of_nat (length (dataset (train_dataloader su))))
              (batch_size_local su) in
   set_counters 0 0 ;;;
   epochs <- epochs_of (train_config su) ;;
   for_each epochs
     (train_epoch data model_name run_name (eval_dataloader su)
        (train_dataloader su) n_steps_per_epoch) ;;;
   save_checkpoint data model_name run_name ;;;
   emit EndTraining)%py.

(** The store that lines 147-181 assemble for the loop of lines 183-286: the
    module-level accelerator, the model [w0] in training mode and without
    gradients, the optimizer [o0], the cosine schedule of lines 166-172 before
    its first step, nothing logged.  In [main] below it is what
    [accelerator.prepare] hands to the loop; [main] itself raises before it
    gets there (line 135), so the statements about the loop are statements
    about lines 183-286 for the stores they name, not about what a call of
    [main] does. *)
Definition prepared (su : setup) (w0 : weights B) (o0 : opt_state B) : run :=
  {| acc := accelerator;
     training := true;
     model := w0;
     grad := zero_grads B;
     optimizer := o0;
     lr_scheduler :=
       {| base_lr := match train_config su !! "lr" with
                     | Some (PyFloat q) => q
                     | _ => 0%Q
                     end;
          num_warmup_steps := 100;
          num_training_steps := len (train_dataloader su) * 25;
          taken := 0 |};
     data_count := 0;
     absolute_step := 0;
     epoch_var := None;
     step_var := None;
     trace := [] |}.

(** The projections of a trace that the properties speak of. *)
Definition log_steps (tr : list event) : list Z :=
  flat_map (fun e => match e with Log _ _ s => [s] | _ => [] end) tr.

Definition log_keys (tr : list event) : list string :=
  flat_map (fun e => match e with Log k _ _ => [k] | _ => [] end) tr.

Definition log_steps_of (key : string) (tr : list event) : list Z :=
  flat_map (fun e => match e with
                     | Log k _ s => if String.eqb k key then [s] else []
                     | _ => []
                     end) tr.

(** The directories written to, one entry per checkpoint: where its model
    files are saved (the bundle of states, when it gets written, goes to the
    same directory right after). *)
Definition written_dirs (tr : list event) : list checkpoint_dir :=
  flat_map (fun e => match e with
                     | SavePretrained d _ => [d]
                     | _ => []
                     end) tr.

(** The operations on the model that took effect, in order. *)
Definition operations (tr : list event) : list operation :=
  flat_map (fun e => match e with Did op => [op] | _ => [] end) tr.

(** The values logged under a key, and what [evaluate] printed (the loss and
    the perplexity it returns). *)
Definition logged_under (key : string) (tr : list event) : list logged :=
  flat_map (fun e => match e with
                     | Log k v _ => if String.eqb k key then [v] else []
                     | _ => []
                     end) tr.

Definition printed (tr : list event) : list (scalar B * scalar B) :=
  flat_map (fun e => match e with Print l p => [(l, p)] | _ => [] end) tr.

(** [r'] is [r] after more events, at the same step. *)
Definition extends (r r' : run) (es : list event) : Prop :=
  trace r' = trace r ++ es
  /\ absolute_step r' = absolute_step r
  /\ epoch_var r' = epoch_var r
  /\ step_var r' = step_var r
  /\ gradient_accumulation_steps (acc r')
       = gradient_accumulation_steps (acc r).

(** *** The shape of a run's events

    A turn of the inner loop leaves, at its step [s]: the operations of the
    micro-batch, the training logs (all four, or the first alone when the
    epoch fraction cannot be computed), the events of a periodic evaluation,
    the events of a periodic checkpoint (possibly cut short by an unbound
    local). *)
Definition checkpoint_at (model_name : string) (s : Z) : checkpoint_dir :=
  {| dir_data := "100M"; dir_model_name := model_name;
     dir_run_name := "reg_loss"; dir_step := s |}.

Inductive train_logs (s : Z) : list event -> Prop :=
  | train_logs_first l :
      train_logs s [Log "train/train_loss" (LogTensor l) s]
  | train_logs_all l fraction count lr :
      train_logs s [Log "train/train_loss" (LogTensor l) s;
                    Log "train/epoch" fraction s;
                    Log "train/data_count" (LogInt count) s;
                    Log "train/learning_rate" (LogFloat lr) s].

Inductive evaluation_events (s : Z) : list event -> Prop :=
  | evaluation_none : evaluation_events s []
  | evaluation_done l :
      s mod 200 = 0 ->
      evaluation_events s
        [Print l (exp B l);
         Log "validation/valid_loss" (LogFloat l) s;
         Log "validation/valid_accuracy" (LogFloat (exp B l)) s].

Inductive checkpoint_events (d : checkpoint_dir) : list event -> Prop :=
  | checkpoint_none : checkpoint_events d []
  | checkpoint_model w :
      checkpoint_events d [Mkdir d; WaitForEveryone; SavePretrained d w]
  | checkpoint_all w st :
      checkpoint_events d
        [Mkdir d; WaitForEveryone; SavePretrained d w; SaveStates d st].

Inductive turn_events (model_name : string) (s : Z) : list event -> Prop :=
  | turn_of ops logs ev ck :
      train_logs s logs ->
      evaluation_events s ev ->
      checkpoint_events (checkpoint_at model_name s) ck ->
      (ck <> [] -> s mod 20000 = 0) ->
      turn_events model_name s (map Did ops ++ logs ++ ev ++ ck).

(** The events of the two loops after [n] turns, and of the whole training
    part: the loops, the final checkpoint, the end of training. *)
Inductive loop_events (model_name : string) : Z -> list event -> Prop :=
  | loop_start : loop_events model_name 0 []
  | loop_turn n tr turn :
      loop_events model_name n tr ->
      turn_events model_name (n + 1) turn ->
      loop_events model_name (n + 1) (tr ++ turn).

Inductive run_events (model_name : string) : Z -> list event -> Prop :=
  | run_of n tr ck fin :
      loop_events model_name n tr ->
      checkpoint_events (checkpoint_at model_name n) ck ->
      fin = [] \/ fin = [EndTraining] ->
      run_events model_name n (tr ++ ck ++ fin).

(** The store between two turns: its events are those of the loops up to
    its step, and the accumulation count is [g]. *)
Definition in_loop (model_name : string) (g : Z) (r : run) : Prop :=
  loop_events model_name (absolute_step r) (trace r)
  /\ gradient_accumulation_steps (acc r) = g.

(** *** The model's name (lines 133-137) *)

(** [s[:-1]] *)
Fixpoint drop_last (s : string) : string :=
  match s with
  | EmptyString => EmptyString
  | String c s' =>
      match s' with
      | EmptyString => EmptyString
      | String _ _ => String c (drop_last s')
      end
  end.

(** Lines 134-137, [model_name = ""; for layer in <layers>: model_name +=
    f"{layer}-"; model_name = model_name[:-1]], for the items [layers] that
    the iteration yields; [str] is what the f-string makes of an item. *)
Definition model_name_of {X} (str : X -> string) (n_embds : list X) : string :=
  drop_last
    (fold_left (fun model_name layer =>
                  String.append model_name (String.append (str layer) "-"))
               n_embds ""%string).

(** *** What a turn that completes leaves *)

(** The scheduler after [lr_scheduler.step()]. *)
Definition stepped (s : scheduler) : scheduler :=
  {| base_lr := base_lr s; num_warmup_steps := num_warmup_steps s;
     num_training_steps := num_training_steps s; taken := taken s + 1 |}.

(** What lines 200-207 do to the accelerator, the model, the gradients, the
    optimizer and the scheduler, and the operations that take effect. *)
Definition micro_batch_update (e : bool) (batch : list (example B))
    (r r' : run) (ops : list operation) : Prop :=
  acc r' = do_sync e (acc r)
  /\ if sync_gradients (do_sync e (acc r)) then
       ops = [Backward; SchedulerStep; OptimizerStep; ZeroGrad]
       /\ lr_scheduler r' = stepped (lr_scheduler r)
       /\ grad r' = zero_grads B
       /\ (optimizer r', model r')
          = adamw B (get_last_lr (stepped (lr_scheduler r)))
              (backprop B (gradient_accumulation_steps (acc r)) (model r)
                 batch (grad r))
              (optimizer r, model r)
     else
       ops = [Backward]
       /\ lr_scheduler r' = lr_scheduler r
       /\ grad r' = backprop B (gradient_accumulation_steps (acc r)) (model r)
                      batch (grad r)
       /\ optimizer r' = optimizer r
       /\ model r' = model r.

(** Everything but the mode of the model and the events is as it was. *)
Definition frame (r r' : run) : Prop :=
  acc r' = acc r /\ model r' = model r /\ grad r' = grad r
  /\ optimizer r' = optimizer r /\ lr_scheduler r' = lr_scheduler r
  /\ data_count r' = data_count r /\ absolute_step r' = absolute_step r
  /\ epoch_var r' = epoch_var r /\ step_var r' = step_var r.

(** The events of a turn that completes at step [s]: the operations, the
    four training logs, at a multiple of 200 the evaluation, at a multiple of
    20000 the checkpoint. *)
Definition training_logs (train_loss : scalar B) (n_steps_per_epoch s count : Z)
    (lr : scalar B) : list event :=
  [Log "train/train_loss" (LogTensor train_loss) s;
   Log "train/epoch" (LogRatio (s + 1) n_steps_per_epoch) s;
   Log "train/data_count" (LogInt count) s;
   Log "train/learning_rate" (LogFloat lr) s].

Definition evaluation_logs (valid_loss : scalar B) (s : Z) : list event :=
  [Print valid_loss (exp B valid_loss);
   Log "validation/valid_loss" (LogFloat valid_loss) s;
   Log "validation/valid_accuracy" (LogFloat (exp B valid_loss)) s].

Definition checkpoint_files (model_name : string) (s : Z) (w : weights B)
    (st : accelerator_states) : list event :=
  [Mkdir (checkpoint_at model_name s); WaitForEveryone;
   SavePretrained (checkpoint_at model_name s) w;
   SaveStates (checkpoint_at model_name s) st].

Definition complete_turn (model_name : string) (ops : list operation)
    (train_loss : scalar B) (n_steps_per_epoch s count : Z) (lr : scalar B)
    (valid_loss : scalar B) (w : weights B) (st : accelerator_states)
  : list event :=
  map Did ops
  ++ training_logs train_loss n_steps_per_epoch s count lr
  ++ (if s mod 200 =? 0 then evaluation_logs valid_loss s else [])
  ++ (if s mod 20000 =? 0 then checkpoint_files model_name s w st else []).

(** More projections of a trace: the bundles of states written, with their
    directories, and the entries logged under a key, with their steps. *)
Definition saved_states (tr : list event)
  : list (checkpoint_dir * accelerator_states) :=
  flat_map (fun e => match e with SaveStates d st => [(d, st)] | _ => [] end) tr.

Definition entries_under (key : string) (tr : list event) : list (logged * Z) :=
  flat_map (fun e => match e with
                     | Log k v s => if String.eqb k key then [(v, s)] else []
                     | _ => []
                     end) tr.

(** The positive multiples of [m] up to [n], in order. *)
Definition multiples (m n : Z) : list Z :=
  map (fun j => m * Z.of_nat j) (seq 1 (Z.to_nat (n / m))).

(** The steps 1 to [n], in order. *)
Definition steps_to (n : Z) : list Z :=
  map Z.of_nat (seq 1 (Z.to_nat n)).

(** How many of the first [k] of [L] micro-batches of a pass reach the
    threshold [g]: every [g]-th, and the last. *)
Definition syncs (g L k : Z) : Z :=
  if k <? L then k / g else (L - 1) / g + 1.

(** Does micro-batch [i] (from 0) of a pass of [L] reach the threshold: it is
    the last one of the pass, or the [g]-th since the last reset. *)
Definition sync_at (g L i : Z) : bool := (i =? L - 1) || ((i + 1) mod g =? 0).

Definition operations_at (g L i : Z) : list operation :=
  if sync_at g L i
  then [Backward; SchedulerStep; OptimizerStep; ZeroGrad]
  else [Backward].

(** The number of updates of the weights by the end of turn [s] (from 1) of
    a run whose passes have [L] micro-batches each, and the scheduler [sch]
    after [t] steps. *)
Definition updates_by (g L s : Z) : Z :=
  (s - 1) / L * syncs g L L + syncs g L ((s - 1) mod L + 1).

Definition at_count (sch : scheduler) (t : Z) : scheduler :=
  {| base_lr := base_lr sch; num_warmup_steps := num_warmup_steps sch;
     num_training_steps := num_training_steps sch; taken := t |}.

(** The events of the first [s] turns of a run whose passes have [L]
    micro-batches each, every turn complete: turn [s + 1] is micro-batch
    [s mod L] of pass [s / L], and [sch] is the scheduler that the run starts
    with. *)
Inductive complete_turns (model_name : string) (sch : scheduler) (n g L : Z)
  : Z -> list event -> Prop :=
  | turns_none : complete_turns model_name sch n g L 0 []
  | turns_more s tr train_loss count lr valid_loss w st :
      complete_turns model_name sch n g L s tr ->
      ck_epoch st = s / L ->
      ck_steps st = s mod L ->
      ck_scheduler st = updates_by g L (s + 1) ->
      lr = get_last_lr (at_count sch (updates_by g L (s + 1))) ->
      complete_turns model_name sch n g L (s + 1)
        (tr ++ complete_turn model_name (operations_at g L (s mod L))
                 train_loss n (s + 1) count lr valid_loss w st).

(** The store after [s] complete turns of such a run, between two turns. *)
Definition after_turns (model_name : string) (eval_dl : DataLoader B)
    (sch : scheduler) (n g L s : Z) (r : run) : Prop :=
  complete_turns model_name sch n g L s (trace r)
  /\ absolute_step r = s
  /\ training r = true
  /\ gradient_accumulation_steps (acc r) = g
  /\ step (acc r) = s mod L
  /\ lr_scheduler r
     = at_count sch (s / L * syncs g L L + syncs g L (s mod L))
  /\ (s mod L = 0 -> grad r = zero_grads B)
  /\ (batches eval_dl 0 = [] -> s < 200).

(** The store of a run of [E] passes that has completed: the turns, the
    final checkpoint, the end of training. *)
Definition finished (model_name : string) (eval_dl : DataLoader B)
    (sch : scheduler) (n g L E D : Z) (r : run) : Prop :=
  (exists tr,
      complete_turns model_name sch n g L (E * L) tr
      /\ trace r
         = tr ++ checkpoint_files model_name (E * L) (model r)
                   {| ck_epoch := E - 1; ck_steps := L - 1;
                      ck_optimizer := optimizer r;
                      ck_scheduler := taken (lr_scheduler r) |}
              ++ [EndTraining])
  /\ absolute_step r = E * L
  /\ data_count r = E * D
  /\ training r = true
  /\ lr_scheduler r = at_count sch (E * syncs g L L)
  /\ grad r = zero_grads B
  /\ (batches eval_dl 0 = [] -> E * L < 200).

(** One entry per update of the weights. *)
Definition updates (tr : list event) : list unit :=
  flat_map (fun e => match e with Did OptimizerStep => [tt] | _ => [] end) tr.

(** The store of a run that an empty validation set has stopped: at step 200,
    after the training logs of that step. *)
Definition stopped_at_evaluation (model_name : string)
    (eval_dl : DataLoader B) (sch : scheduler) (n g L : Z) (r : run) : Prop :=
  batches eval_dl 0 = []
  /\ absolute_step r = 200
  /\ training r = false
  /\ exists tr train_loss count lr,
       complete_turns model_name sch n g L 199 tr
       /\ trace r = tr ++ map Did (operations_at g L (199 mod L))
                      ++ training_logs train_loss n 200 count lr.

(** What a checkpoint writes to disk: the model's files and the bundle
    [accelerator_states], each in its directory; and the directories made. *)
Inductive file : Type := ModelFiles | StatesBundle.

Definition files_written (tr : list event) : list (checkpoint_dir * file) :=
  flat_map (fun e => match e with
                     | SavePretrained d _ => [(d, ModelFiles)]
                     | SaveStates d _ => [(d, StatesBundle)]
                     | _ => []
                     end) tr.

Definition made_dirs (tr : list event) : list checkpoint_dir :=
  flat_map (fun e => match e with Mkdir d => [d] | _ => [] end) tr.

(** The place of a file in the order of writing: by the step of its
    directory, the model's files before the bundle. *)
Definition file_rank (f : checkpoint_dir * file) : Z :=
  2 * dir_step (fst f) + match snd f with ModelFiles => 0 | StatesBundle => 1 end.

(** A file of a periodic checkpoint of a run of [n] steps: in the directory
    keyed by the model name, the run name and its step, a positive multiple
    of 20000 up to [n]. *)
Definition periodic_file (model_name : string) (n : Z)
    (f : checkpoint_dir * file) : Prop :=
  fst f = checkpoint_at model_name (dir_step (fst f))
  /\ 0 < dir_step (fst f) <= n
  /\ dir_step (fst f) mod 20000 = 0.

(** The two files of the checkpoint of step [s], in the order of writing. *)
Definition checkpoint_pair (model_name : string) (s : Z)
  : list (checkpoint_dir * file) :=
  [(checkpoint_at model_name s, ModelFiles);
   (checkpoint_at model_name s, StatesBundle)].

(** The micro-batches whose gradients each update of the weights applies:
    the backward passes since the gradients were last cleared.  The second
    component counts the backward passes whose gradients are held and not
    yet cleared. *)
Definition accumulating (state : list Z * Z) (op : operation) : list Z * Z :=
  match op with
  | Backward => (fst state, snd state + 1)
  | OptimizerStep => (fst state ++ [snd state], snd state)
  | ZeroGrad => (fst state, 0)
  | SchedulerStep => state
  end.

Definition accumulated (ops : list operation) : list Z * Z :=
  fold_left accumulating ops ([], 0).

(** The part of a turn after the micro-batch leaves the accelerator, the
    model, the gradients, the optimizer and the scheduler as they are, and
    applies no operation. *)
Definition quiet (r r' : run) : Prop :=
  acc r' = acc r /\ model r' = model r /\ grad r' = grad r
  /\ optimizer r' = optimizer r /\ lr_scheduler r' = lr_scheduler r
  /\ operations (trace r') = operations (trace r).

(** What the loop is entered for: [E] passes, each of [L] micro-batches and
    [D] sequences, an epoch fraction that can be computed, and a validation
    loader that has a batch unless the loop has fewer than 200 steps to
    take. *)
Definition even_passes (su : setup) (E L D : Z) : Prop :=
  train_config su !! "num_epochs" = Some (PyInt E)
  /\ 0 < E /\ 0 < L
  /\ (forall k, Z.of_nat (length (batches (train_dataloader su) k)) = L)
  /\ (forall k, Z.of_nat (length (concat (batches (train_dataloader su) k))) = D)
  /\ ceil_div (Z.of_nat (length (dataset (train_dataloader su))))
              (batch_size_local su) <> 0
  /\ (batches (eval_dataloader su) 0 <> [] \/ E * L < 200).

(** A store that the loop is entered with: nothing logged, the model in
    training mode and without gradients, the module-level accelerator, the
    scheduler [sch] before its first step. *)
Definition fresh (sch : scheduler) (r : run) : Prop :=
  trace r = []
  /\ training r = true
  /\ acc r = accelerator
  /\ grad r = zero_grads B
  /\ lr_scheduler r = at_count sch 0.

(** *** The whole of [main] (lines 72-286)

    The process that runs [main] has a random generator, the weights that
    module construction has allocated, and, once [accelerator.prepare] has
    returned, the store of the loop. *)
Record process : Type := {
  generator : list Z;
  allocated : list components.alloc;
  session : option run
}.

Definition drawing {A} (m : M (list Z) A) : M process A :=
  fun p => let '(res, g) := m (generator p) in
           (res, {| generator := g; allocated := allocated p;
                    session := session p |}).

Definition allocating {A} (m : M (list components.alloc) A) : M process A :=
  fun p => let '(res, h) := m (allocated p) in
           (res, {| generator := generator p; allocated := h;
                    session := session p |}).

Definition training_from {A} (r0 : run) (m : M run A) : M process A :=
  fun p => let '(res, r) := m r0 in
           (res, {| generator := generator p; allocated := allocated p;
                    session := Some r |}).

Inductive optimizer_class : Type := AdamW | DummyOptim.

(** [accelerator.state.deepspeed_plugin], by the keys of its
    [deepspeed_config]: one process without DeepSpeed is modelled throughout,
    so there is none. *)
Definition deepspeed_plugin : option (list string) := None.

(** [plugin is None or key not in plugin.deepspeed_config] *)
Definition absent_from (key : string) (plugin : option (list string)) : bool :=
  match plugin with
  | None => true
  | Some keys => negb (bool_decide (key ∈ keys))
  end.

Section WithRuntime.

(** Modelled from the spec: the constructor of the model, [components.LM],
    is not among the sources.  The design document has the configuration
    "consumed by model construction" and "immutable afterward": the
    constructor allocates weights, may fail, and leaves the configuration
    object as it is. *)
Variable LM : GPT2Config.t -> M (list components.alloc) (weights B).

(** The tokenizer that [AutoTokenizer.from_pretrained] returns, the
    constructor of the optimizer class chosen on lines 155-160, and Python's
    iteration, f-string conversion and call on what an attribute holds. *)
Variable tokenizer : Tokenizer.
Variable new_optimizer : optimizer_class -> weights B -> pyval -> opt_state B.
Variable iter : GPT2Config.value -> M process (list GPT2Config.value).
Variable str : GPT2Config.value -> string.
Variable call : GPT2Config.value -> M process (gmap string pyval).

(** [main()], for the two data sets that [load_from_disk] returned and the
    configuration object of the sweep controller's tracker.  What goes to
    standard output on lines 149-150 and the tracker's own copy of the
    configuration (line 144) are not part of the state. *)
Definition main (grouped_pad_train grouped_pad_valid : list (example B))
    (tracker_config : gmap string pyval) : M process unit :=
  (su <- drawing (main_setup 64 grouped_pad_train grouped_pad_valid
                    tracker_config) ;;
   config <- allocating (build_config tokenizer su) ;;
   model <- allocating (LM config) ;;
   n_embds <- GPT2Config.getattr config "n_embds" ;;
   layers <- iter n_embds ;;
   let model_name := model_name_of str layers in
   get <- GPT2Config.getattr config "get" ;;
   logged_config <- call get ;;
   let train_config :=
     <["wandb" := PyDict (<["name" := PyStr model_name]> ∅)]>
       (logged_config ∪ train_config su) in
   let optimizer_cls :=
     if absent_from "optimizer" deepspeed_plugin then AdamW else DummyOptim in
   lr <- getitem train_config "lr" ;;
   let optimizer := new_optimizer optimizer_cls model lr in
   (if absent_from "scheduler" deepspeed_plugin then ret tt
    else raise AssertionError) ;;;
   let su := {| train_config := train_config;
                gradient_accumulation_steps_local :=
                  gradient_accumulation_steps_local su;
                batch_size_local := batch_size_local su;
                eval_dataloader := eval_dataloader su;
                train_dataloader := train_dataloader su;
                bottleneck_dim := bottleneck_dim su;
                n_layer := n_layer su;
                seed := seed su |} in
   training_from (prepared su model optimizer) (main_train model_name su))%py.

End WithRuntime.

End WithBackend.

End mt_sweep.

(** ** A small backend

    Floats are integers with one infinity, [exp] is a power of two that
    saturates, a model is the number of updates it received: enough to run the
    script on concrete inputs. *)

Module Toy.

Import torch.

Inductive ext : Type := Fin (z : Z) | Inf.

Definition ext_exp (x : ext) : ext :=
  match x with
  | Fin z => if z >? 88 then Inf else Fin (2 ^ z)
  | Inf => Inf
  end.

Definition ext_add (x y : ext) : ext :=
  match x, y with
  | Fin a, Fin b => Fin (a + b)
  | _, _ => Inf
  end.

Definition ext_mean (xs : list ext) : ext :=
  match fold_right ext_add (Fin 0) xs with
  | Fin total => Fin (total / Z.of_nat (length xs))
  | Inf => Inf
  end.

Definition backend : Backend :=
  {| scalar := ext;
     inf := Inf;
     exp := ext_exp;
     mean := ext_mean;
     example := Z;                     (* a sequence, by the loss it incurs *)
     weights := Z;
     grads := Z;
     zero_grads := 0;
     opt_state := Z;
     loss := fun _ w batch => Fin (fold_right Z.add 0 batch - w);
     backprop := fun _ _ batch g => g + Z.of_nat (length batch);
     adamw := fun _ g ow => (fst ow + 1, snd ow + 1);
     cosine_lr := fun _ _ _ n => Fin n;
     permute := fun _ l => rev l |}.

Definition gpt2_tokenizer : mt_sweep.Tokenizer :=
  {| mt_sweep.tok_len := 50257;
     mt_sweep.bos_token_id := 50256;
     mt_sweep.eos_token_id := 50256 |}.

(** One combination of the declared sweep, as the controller hands it over. *)
Definition sweep_run : gmap string pyval :=
  <["n_layer" := PyInt 5]>
    (<["bottleneck" := PyInt 788]> (<["random_seed_num" := PyInt 3]> ∅)).

(** What [main_setup] computes for the script's batch size 64, that
    combination, and a generator whose next raw value is 41. *)
Definition setup_for (train valid : list Z) : mt_sweep.setup (B := backend) :=
  {| mt_sweep.train_config :=
       <["seed" := PyInt 42]>
         (<["lr" := PyFloat (6 # 10000)]>
            (<["num_epochs" := PyInt 17]>
               (<["correct_bias" := PyBool true]>
                  (<["batch_size" := PyInt 64]>
                     (<["data" := PyStr "100M"]> ∅)))));
     mt_sweep.gradient_accumulation_steps_local := Some 2;
     mt_sweep.batch_size_local := 32;
     mt_sweep.eval_dataloader := Build_DataLoader backend valid false 32;
     mt_sweep.train_dataloader := Build_DataLoader backend train true 32;
     mt_sweep.bottleneck_dim := PyInt 788;
     mt_sweep.n_layer := PyInt 5;
     mt_sweep.seed := 42 |}.

(** The store on entry to the training part, for a model with no update. *)
Definition start (train valid : list Z) : mt_sweep.run (B := backend) :=
  mt_sweep.prepared (setup_for train valid) 0 0.

End Toy.

(** * Properties *)

(** ** The model configuration *)

Module GPT2ConfigFacts.

Import components GPT2Config.

Lemma add_block_divisible (embd : Z) (drop : Q) (bsize : Z) (act : activation)
    (bs : list Block_t) (h : list alloc) :
  embd mod n_head = 0 ->
  add_block embd drop bsize act bs h =
    (Ok (bs ++ [uniform_block embd drop bsize act]), h ++ uniform_weights embd).
Proof.
  intros Hdiv.
  unfold add_block, Attention, MLP, Block, allocate, bind, ret, modify.
  change (n_head =? 0) with false. cbv iota.
  rewrite Hdiv.
  replace (h ++ uniform_weights embd)
    with ((h ++ [AttentionWeights embd embd bias])
            ++ [MLPWeights embd (4 * embd) bias])
    by (unfold uniform_weights; now rewrite <- app_assoc).
  reflexivity.
Qed.

Lemma iterate_add_block (embd : Z) (drop : Q) (bsize : Z) (act : activation) :
  embd mod n_head = 0 ->
  forall (n : nat) (bs : list Block_t) (h : list alloc),
    iterate n (add_block embd drop bsize act) bs h =
      (Ok (bs ++ repeat (uniform_block embd drop bsize act) n),
       h ++ concat (repeat (uniform_weights embd) n)).
Proof.
  intros Hdiv. induction n as [|n IH]; intros bs h.
  - cbn [iterate repeat concat]. unfold ret. now rewrite !app_nil_r.
  - cbn [iterate repeat concat]. unfold bind at 1.
    rewrite add_block_divisible by assumption. rewrite IH.
    now rewrite <- (app_assoc bs [_]), <- (app_assoc h (uniform_weights embd)).
Qed.

(** C1, as amended.  The head count and the layer count are constants of the
    constructor (12 and 12): for every embedding width divisible by 12, and
    whatever is passed for the other arguments, construction succeeds and the
    stack of blocks has exactly 12 blocks, each of that width with 12 heads
    and a mask of the context length. *)
Theorem init_divisible_builds_twelve_blocks
    (vocab : pyval) (embd : Z) (drop : Q) (bsize : Z) (h : list alloc) :
  embd mod n_head = 0 ->
  exists c h',
    __init__ vocab embd drop bsize h = (Ok c, h')
    /\ length (blocks c) = 12%nat
    /\ vocab_size c = vocab /\ n_embd c = embd
    /\ Forall (fun b => attn_n_embd (blk_attn b) = embd
                        /\ attn_n_head (blk_attn b) = 12
                        /\ attn_mask_size (blk_attn b) = bsize) (blocks c).
Proof.
  intros Hdiv. unfold __init__, bind.
  rewrite (iterate_add_block embd drop bsize GELU Hdiv).
  eexists _, _. split; [reflexivity|].
  cbn [blocks vocab_size n_embd app].
  change (length (range n_layer)) with 12%nat.
  rewrite repeat_length. repeat split.
  cbn [repeat]. repeat (constructor; [now cbn|]). constructor.
Qed.

Lemma init_divisible_builds_twelve_blocks_witness :
  exists c h',
    __init__ default_vocab_size 768 default_drop 1024 [] = (Ok c, h')
    /\ length (blocks c) = 12%nat
    /\ vocab_size c = default_vocab_size /\ n_embd c = 768
    /\ Forall (fun b => attn_n_embd (blk_attn b) = 768
                        /\ attn_n_head (blk_attn b) = 12
                        /\ attn_mask_size (blk_attn b) = 1024) (blocks c).
Proof.
  apply (init_divisible_builds_twelve_blocks default_vocab_size 768
           default_drop 1024 []).
  reflexivity.
Defined.

(** C1, as stated, fails: line 130 of the training script requests 5 layers
    (the dict's [n_layer]) and receives a stack of 12 blocks. *)
Lemma requested_layer_count_ignored :
  exists c h',
    mt_sweep.build_config (B := Toy.backend) Toy.gpt2_tokenizer
      {| mt_sweep.train_config := ∅;
         mt_sweep.gradient_accumulation_steps_local := Some 2;
         mt_sweep.batch_size_local := 32;
         mt_sweep.eval_dataloader :=
           {| torch.dataset := []; torch.shuffle := false; torch.batch_size := 32 |};
         mt_sweep.train_dataloader :=
           {| torch.dataset := []; torch.shuffle := true; torch.batch_size := 32 |};
         mt_sweep.bottleneck_dim := PyInt 788;
         mt_sweep.n_layer := PyInt 5;
         mt_sweep.seed := 1 |} [] = (Ok c, h')
    /\ length (blocks c) = 12%nat
    /\ Z.of_nat (length (blocks c)) <> 5.
Proof.
  eexists _, _. split; [reflexivity|]. split; [reflexivity|]. discriminate.
Qed.

(** C5.  The head count is the constructor's constant 12: for every embedding
    width that 12 does not divide, construction raises the configuration
    error of the first attention sub-module, and no weight has been allocated
    (the store of allocations is as it was). *)
Theorem init_indivisible_fails_before_allocation
    (vocab : pyval) (embd : Z) (drop : Q) (bsize : Z) (h : list alloc) :
  embd mod n_head <> 0 ->
  __init__ vocab embd drop bsize h = (Raise ConfigurationError, h).
Proof.
  intros Hndiv. unfold __init__.
  change (length (range n_layer)) with 12%nat. cbn [iterate].
  unfold bind at 1. unfold bind at 1. unfold add_block at 1. unfold bind at 1.
  unfold Attention. change (n_head =? 0) with false. cbv iota.
  destruct (Z.eqb_spec (embd mod n_head) 0) as [E|_]; [contradiction|].
  reflexivity.
Qed.

Lemma init_indivisible_fails_before_allocation_witness :
  __init__ default_vocab_size 770 default_drop 1024 []
    = (Raise ConfigurationError, []).
Proof.
  apply (init_indivisible_fails_before_allocation default_vocab_size 770
           default_drop 1024 []).
  discriminate.
Defined.

End GPT2ConfigFacts.

(** ** The first part of [main]: configuration, data loaders, sweep values *)

Module SetupFacts.

Import torch accelerate mt_sweep.

Section WithBackend.

Context {B : Backend}.

(** What a successful [main_setup] has computed. *)
Lemma main_setup_inv (bs : Z) (train valid : list (example B))
    (cfg : gmap string pyval) (g g' : list Z) (su : setup) :
  main_setup bs train valid cfg g = (Ok su, g') ->
  batch_size_local su = (if bs >? MAX_GPU_BATCH_SIZE then MAX_GPU_BATCH_SIZE else bs)
  /\ 0 < batch_size_local su
  /\ gradient_accumulation_steps_local su =
       (if bs >? MAX_GPU_BATCH_SIZE then Some (bs / MAX_GPU_BATCH_SIZE) else None)
  /\ eval_dataloader su =
       {| dataset := valid; shuffle := false; batch_size := EVAL_BATCH_SIZE |}
  /\ train_dataloader su =
       {| dataset := train; shuffle := true; batch_size := batch_size_local su |}
  /\ cfg !! "bottleneck" = Some (bottleneck_dim su)
  /\ cfg !! "n_layer" = Some (n_layer su)
  /\ randint 1 10000 g = (Ok (seed su), g')
  /\ train_config su !! "seed" = Some (PyInt (seed su))
  /\ train_config su !! "num_epochs" = Some (PyInt 17)
  /\ train_config su !! "batch_size" = Some (PyInt bs).
Proof.
  unfold main_setup, new_DataLoader, getitem, bind, ret, raise.
  change (EVAL_BATCH_SIZE <=? 0) with false. cbv iota.
  destruct (bs >? MAX_GPU_BATCH_SIZE) eqn:Hcap.
  - change (MAX_GPU_BATCH_SIZE <=? 0) with false. cbv iota.
    destruct (cfg !! "bottleneck") as [b|]; [|discriminate].
    destruct (cfg !! "n_layer") as [n|]; [|discriminate].
    destruct (randint 1 10000 g) as [[s|e] g1] eqn:Hr; [|discriminate].
    intros [= <- <-]. cbn. repeat split; reflexivity.
  - destruct (Z.leb_spec bs 0) as [Hle|Hpos]; [discriminate|].
    destruct (cfg !! "bottleneck") as [b|]; [|discriminate].
    destruct (cfg !! "n_layer") as [n|]; [|discriminate].
    destruct (randint 1 10000 g) as [[s|e] g1] eqn:Hr; [|discriminate].
    intros [= <- <-]. cbn. repeat split; try reflexivity; lia.
Qed.

(** [main_setup] succeeds on a positive batch size when the tracker's
    configuration has the two keys it reads. *)
Lemma main_setup_succeeds (bs : Z) (train valid : list (example B))
    (cfg : gmap string pyval) (g : list Z) (b n : pyval) :
  0 < bs -> cfg !! "bottleneck" = Some b -> cfg !! "n_layer" = Some n ->
  exists su g', main_setup bs train valid cfg g = (Ok su, g').
Proof.
  intros Hpos Hb Hn.
  unfold main_setup, new_DataLoader, getitem, bind, ret, raise.
  change (EVAL_BATCH_SIZE <=? 0) with false. cbv iota.
  rewrite Hb, Hn.
  destruct (bs >? MAX_GPU_BATCH_SIZE) eqn:Hcap.
  - change (MAX_GPU_BATCH_SIZE <=? 0) with false. cbv iota.
    destruct g; cbn; eauto.
  - destruct (Z.leb_spec bs 0) as [Hle|_]; [lia|].
    destruct g; cbn; eauto.
Qed.

Lemma randint_range (lo hi : Z) (g g' : list Z) (x : Z) :
  lo <= hi -> randint lo hi g = (Ok x, g') -> lo <= x <= hi.
Proof.
  intros Hle. unfold randint. destruct g as [|raw g0]; intros [= <- <-].
  - lia.
  - pose proof (Z.mod_pos_bound raw (hi - lo + 1)). lia.
Qed.

(** The tracker's other keys do not matter to [main_setup]. *)
Lemma main_setup_ignores (key : string) (v : pyval) (bs : Z)
    (train valid : list (example B)) (cfg : gmap string pyval) (g : list Z) :
  key <> "bottleneck"%string -> key <> "n_layer"%string ->
  main_setup bs train valid (<[key := v]> cfg) g = main_setup bs train valid cfg g.
Proof.
  intros H1 H2. unfold main_setup, getitem.
  now rewrite !lookup_insert_ne by assumption.
Qed.

End WithBackend.

(** The combination used below is one of the declared grid. *)
Example sweep_run_in_grid :
  forall key v, Toy.sweep_run !! key = Some (PyInt v) ->
                exists vs, sweep_parameters !! key = Some vs /\ In v vs.
Proof.
  intros key v. unfold Toy.sweep_run, sweep_parameters.
  rewrite !lookup_insert.
  repeat case_decide; rewrite ?lookup_empty; intros [= <-];
    eexists; (split; [reflexivity|]); cbn; auto.
Qed.

(** C3, as amended.  The sweep driver takes the layer count and the
    bottleneck width from the controller's configuration object; the seed of
    the TrainConfig is drawn by [random.randint(1, 10000)] and does not depend
    on the sweep's [random_seed_num], which is never read. *)
Theorem sweep_values_read_and_seed_drawn {B : Backend} (bs : Z)
    (train valid : list (example B)) (cfg : gmap string pyval) (g : list Z)
    (b n : pyval) :
  0 < bs -> cfg !! "bottleneck" = Some b -> cfg !! "n_layer" = Some n ->
  exists su g',
    main_setup bs train valid cfg g = (Ok su, g')
    /\ bottleneck_dim su = b /\ n_layer su = n
    /\ randint 1 10000 g = (Ok (seed su), g')
    /\ 1 <= seed su <= 10000
    /\ train_config su !! "seed" = Some (PyInt (seed su))
    /\ forall v, main_setup bs train valid (<["random_seed_num" := v]> cfg) g
                 = (Ok su, g').
Proof.
  intros Hpos Hb Hn.
  destruct (main_setup_succeeds bs train valid cfg g b n Hpos Hb Hn)
    as (su & g' & Hsu).
  exists su, g'. pose proof (main_setup_inv _ _ _ _ _ _ _ Hsu)
    as (_ & _ & _ & _ & _ & Hb' & Hn' & Hr & Hseed & _).
  split; [exact Hsu|].
  split; [congruence|]. split; [congruence|].
  split; [exact Hr|].
  split; [apply (randint_range 1 10000 g g'); [lia | exact Hr]|].
  split; [exact Hseed|].
  intros v. rewrite main_setup_ignores by discriminate. exact Hsu.
Qed.

Lemma sweep_values_read_and_seed_drawn_witness :
  exists su g',
    main_setup (B := Toy.backend) 64 [7; 8] [9] Toy.sweep_run [41] = (Ok su, g')
    /\ bottleneck_dim su = PyInt 788 /\ n_layer su = PyInt 5
    /\ randint 1 10000 [41] = (Ok (seed su), g')
    /\ 1 <= seed su <= 10000
    /\ train_config su !! "seed" = Some (PyInt (seed su))
    /\ forall v, main_setup (B := Toy.backend) 64 [7; 8] [9]
                   (<["random_seed_num" := v]> Toy.sweep_run) [41]
                 = (Ok su, g').
Proof.
  apply (sweep_values_read_and_seed_drawn (B := Toy.backend) 64 [7; 8] [9]
           Toy.sweep_run [41] (PyInt 788) (PyInt 5)).
  - lia.
  - reflexivity.
  - reflexivity.
Defined.

(** C3, as stated, fails: the controller supplies [random_seed_num = 3], the
    generator draws 42, and the TrainConfig's seed is 42. *)
Lemma seed_is_not_the_sweep_value :
  exists su g',
    main_setup (B := Toy.backend) 64 [7; 8] [9] Toy.sweep_run [41] = (Ok su, g')
    /\ Toy.sweep_run !! "random_seed_num" = Some (PyInt 3)
    /\ train_config su !! "seed" = Some (PyInt 42)
    /\ train_config su !! "seed" <> Toy.sweep_run !! "random_seed_num".
Proof.
  eexists _, _. split; [reflexivity|].
  split; [reflexivity|]. split; [reflexivity|].
  vm_compute. discriminate.
Qed.

(** C9.  On every run that gets past its set-up, the training loader
    shuffles and the validation loader does not: a pass over the training
    split draws the sampler's order, every pass over the validation split goes
    through the data in the order it is stored. *)
Theorem train_shuffled_validation_in_order {B : Backend} (bs : Z)
    (train valid : list (example B)) (cfg : gmap string pyval)
    (g g' : list Z) (su : setup) :
  main_setup bs train valid cfg g = (Ok su, g') ->
  shuffle (train_dataloader su) = true
  /\ dataset (train_dataloader su) = train
  /\ shuffle (eval_dataloader su) = false
  /\ dataset (eval_dataloader su) = valid
  /\ (forall k, batches (train_dataloader su) k =
                chunks (Z.to_nat (batch_size_local su)) (permute B k train))
  /\ (forall k, batches (eval_dataloader su) k =
                chunks (Z.to_nat EVAL_BATCH_SIZE) valid).
Proof.
  intros Hsu.
  pose proof (main_setup_inv _ _ _ _ _ _ _ Hsu)
    as (_ & _ & _ & He & Ht & _).
  unfold batches. rewrite He, Ht. cbn. repeat split; reflexivity.
Qed.

Lemma train_shuffled_validation_in_order_witness :
  exists su g',
    main_setup (B := Toy.backend) 64 [7; 8] [9] Toy.sweep_run [41] = (Ok su, g')
    /\ shuffle (train_dataloader su) = true
    /\ dataset (train_dataloader su) = [7; 8]
    /\ shuffle (eval_dataloader su) = false
    /\ dataset (eval_dataloader su) = [9]
    /\ (forall k, batches (train_dataloader su) k =
                  chunks (Z.to_nat (batch_size_local su))
                    (permute Toy.backend k [7; 8]))
    /\ (forall k, batches (eval_dataloader su) k =
                  chunks (Z.to_nat EVAL_BATCH_SIZE) [9]).
Proof.
  eexists _, _. split; [reflexivity|].
  apply (train_shuffled_validation_in_order (B := Toy.backend) 64 [7; 8] [9]
           Toy.sweep_run [41] []).
  reflexivity.
Defined.

Lemma do_sync_keeps_count (e : bool) (a : Accelerator) :
  gradient_accumulation_steps (do_sync e a) = gradient_accumulation_steps a.
Proof. now destruct e. Qed.

End SetupFacts.

(** ** [evaluate] and one micro-batch *)

Module StepFacts.

Import torch accelerate mt_sweep.

Section WithBackend.

Context {B : Backend}.

(** The loop of [evaluate] collects one loss per batch, in order. *)
Lemma collected_losses (f : list (example B) -> scalar B)
    (bs : list (list (example B))) :
  forall (idx : list Z) (acc0 : list (scalar B)),
    length idx = length bs ->
    fold_left (fun losses '(_, batch) => losses ++ [f batch]) (combine idx bs) acc0
      = acc0 ++ map f bs.
Proof.
  induction bs as [|b bs IH]; intros idx acc0 Hlen.
  - destruct idx; cbn; now rewrite app_nil_r.
  - destruct idx as [|i idx]; [discriminate|].
    cbn [combine fold_left map]. rewrite IH by (cbn in Hlen; lia).
    now rewrite <- app_assoc.
Qed.

Lemma enumerate_losses (f : list (example B) -> scalar B)
    (bs : list (list (example B))) :
  fold_left (fun losses '(_, batch) => losses ++ [f batch]) (enumerate bs) []
    = map f bs.
Proof.
  unfold enumerate. rewrite collected_losses; [reflexivity|].
  now rewrite length_map, length_seq.
Qed.

(** [torch.exp] returns; the handler of [OverflowError] is never entered. *)
Lemma overflow_handler_unreachable {S} (l : scalar B) (h : M S (number B))
    (s : S) :
  try_except (torch_exp l) is_OverflowError h s = (Ok (Tensor (exp B l)), s).
Proof. reflexivity. Qed.

(** What the handler would bind has no [item]. *)
Lemma handler_value_has_no_item {S} (s : S) :
  item (Float (inf B)) s = (Raise (AttributeError "item"), s).
Proof. reflexivity. Qed.

Lemma evaluate_run (eval_dl : DataLoader B) (r : run) :
  batches eval_dl 0 <> [] ->
  evaluate eval_dl r =
    (Ok (mean B (map (loss B false (model r)) (batches eval_dl 0)),
         exp B (mean B (map (loss B false (model r)) (batches eval_dl 0)))),
     emitting
       [Print (mean B (map (loss B false (model r)) (batches eval_dl 0)))
          (exp B (mean B (map (loss B false (model r)) (batches eval_dl 0))))]
       (with_training false r)).
Proof.
  intros Hne. unfold evaluate.
  unfold bind at 1. cbn [set_training modify].
  unfold bind at 1. cbn [get with_training training model].
  rewrite enumerate_losses.
  unfold bind at 1. unfold mean_stack.
  destruct (map (loss B false (model r)) (batches eval_dl 0)) as [|x xs] eqn:Hmap.
  - apply map_eq_nil in Hmap. contradiction.
  - reflexivity.
Qed.

Lemma evaluate_empty (eval_dl : DataLoader B) (r : run) :
  batches eval_dl 0 = [] ->
  evaluate eval_dl r =
    (Raise (RuntimeError "stack expects a non-empty TensorList"),
     with_training false r).
Proof.
  intros He. unfold evaluate.
  unfold bind at 1. cbn [set_training modify].
  unfold bind at 1. cbn [get with_training training model].
  rewrite enumerate_losses, He. reflexivity.
Qed.

End WithBackend.

(** C4.  For every validation set with at least one batch, [evaluate]
    returns the mean loss and, as perplexity, what [torch.exp] gives for it:
    [exp(loss)] where that is finite and the infinite float where it
    overflows, [torch.exp] being total.  The call does not raise. *)
Theorem evaluate_perplexity_is_exp_of_loss {B : Backend}
    (eval_dl : DataLoader B) (r : run) :
  batches eval_dl 0 <> [] ->
  exists l p r',
    evaluate eval_dl r = (Ok (l, p), r')
    /\ l = mean B (map (loss B false (model r)) (batches eval_dl 0))
    /\ p = exp B l
    /\ (exp B l = inf B -> p = inf B)
    /\ trace r' = trace r ++ [Print l p].
Proof.
  intros Hne. eexists _, _, _. split; [apply evaluate_run; exact Hne|].
  repeat split. intros Hinf. exact Hinf.
Qed.

Lemma evaluate_perplexity_is_exp_of_loss_witness :
  exists l p r',
    evaluate (Build_DataLoader Toy.backend [100] false 32)
      (Toy.start [7; 8] [100]) = (Ok (l, p), r')
    /\ l = Toy.Fin 100
    /\ p = Toy.ext_exp l
    /\ (Toy.ext_exp l = Toy.Inf -> p = Toy.Inf)
    /\ trace r' = [Print (B := Toy.backend) l p].
Proof.
  apply (evaluate_perplexity_is_exp_of_loss
           (Build_DataLoader Toy.backend [100] false 32)
           (Toy.start [7; 8] [100])).
  discriminate.
Defined.

Lemma setup_for_is_main_setup (train valid : list Z) :
  main_setup (B := Toy.backend) 64 train valid Toy.sweep_run [41]
    = (Ok (Toy.setup_for train valid), []).
Proof. reflexivity. Qed.

(** Reading the fields of a store that is given field by field. *)
Ltac project_run :=
  cbn [acc training model grad optimizer lr_scheduler data_count absolute_step
       epoch_var step_var trace fst snd
       emitting with_training with_acc with_grad with_optimized
       with_scheduler with_counters with_epoch with_step].

(** The same, with every update written out as a record. *)
Ltac expand_run :=
  unfold emitting, with_training, with_acc, with_grad, with_optimized,
    with_scheduler, with_counters, with_epoch, with_step;
  cbn [acc training model grad optimizer lr_scheduler data_count absolute_step
       epoch_var step_var trace fst snd].

Section WithBackend.

Context {B : Backend}.

(** A micro-batch that reaches the threshold. *)
Lemma accumulate_sync (e : bool) (batch : list (example B)) (r : run) :
  sync_gradients (do_sync e (acc r)) = true ->
  let a := do_sync e (acc r) in
  let g := backprop B (gradient_accumulation_steps a) (model r) batch (grad r) in
  let s := {| base_lr := base_lr (lr_scheduler r);
              num_warmup_steps := num_warmup_steps (lr_scheduler r);
              num_training_steps := num_training_steps (lr_scheduler r);
              taken := taken (lr_scheduler r) + 1 |} in
  let ow := adamw B (get_last_lr s) g (optimizer r, model r) in
  accumulate e batch r =
    (Ok (loss B (training r) (model r) batch),
     {| acc := a; training := training r; model := snd ow;
        grad := zero_grads B; optimizer := fst ow; lr_scheduler := s;
        data_count := data_count r; absolute_step := absolute_step r;
        epoch_var := epoch_var r; step_var := step_var r;
        trace := trace r ++ [Did Backward; Did SchedulerStep;
                             Did OptimizerStep; Did ZeroGrad] |}).
Proof.
  intros Hsync a g s ow.
  unfold accumulate, scheduler_step, optimizer_step, optimizer_zero_grad,
    set_acc, set_grad, set_scheduler, set_optimized, emit, bind, get, modify, ret.
  expand_run. repeat (rewrite Hsync; expand_run).
  rewrite <- !app_assoc. reflexivity.
Qed.

(** A micro-batch below the threshold: gradients accumulate, the optimizer
    and the scheduler are left as they are. *)
Lemma accumulate_no_sync (e : bool) (batch : list (example B)) (r : run) :
  sync_gradients (do_sync e (acc r)) = false ->
  let a := do_sync e (acc r) in
  accumulate e batch r =
    (Ok (loss B (training r) (model r) batch),
     {| acc := a; training := training r; model := model r;
        grad := backprop B (gradient_accumulation_steps a) (model r) batch (grad r);
        optimizer := optimizer r; lr_scheduler := lr_scheduler r;
        data_count := data_count r; absolute_step := absolute_step r;
        epoch_var := epoch_var r; step_var := step_var r;
        trace := trace r ++ [Did Backward] |}).
Proof.
  intros Hsync a.
  unfold accumulate, scheduler_step, optimizer_step, optimizer_zero_grad,
    set_acc, set_grad, set_scheduler, set_optimized, emit, bind, get, modify, ret.
  expand_run. repeat (rewrite Hsync; expand_run). reflexivity.
Qed.

(** Either way a micro-batch returns its loss, records operations only, and
    leaves the counters and the loop variables alone. *)
Lemma accumulate_events (e : bool) (batch : list (example B)) (r : run) :
  exists l ops r',
    accumulate e batch r = (Ok l, r') /\ extends r r' (map Did ops).
Proof.
  destruct (sync_gradients (do_sync e (acc r))) eqn:Hsync.
  - eexists _, [Backward; SchedulerStep; OptimizerStep; ZeroGrad], _.
    split; [apply accumulate_sync; exact Hsync|].
    unfold extends. project_run. repeat split.
    apply SetupFacts.do_sync_keeps_count.
  - eexists _, [Backward], _.
    split; [apply accumulate_no_sync; exact Hsync|].
    unfold extends. project_run. repeat split.
    apply SetupFacts.do_sync_keeps_count.
Qed.

End WithBackend.

(** C2, as amended.  On every micro-batch that reaches the accumulation
    threshold the operations take effect in the order: backward pass,
    learning-rate scheduler advanced by exactly one step, optimizer step (at
    the learning rate the scheduler has just moved to), gradients cleared. *)
Theorem threshold_operations_in_order {B : Backend} (e : bool)
    (batch : list (example B)) (r : run) :
  sync_gradients (do_sync e (acc r)) = true ->
  exists l r',
    accumulate e batch r = (Ok l, r')
    /\ trace r' = trace r ++ [Did Backward; Did SchedulerStep;
                              Did OptimizerStep; Did ZeroGrad]
    /\ taken (lr_scheduler r') = taken (lr_scheduler r) + 1
    /\ (optimizer r', model r') =
         adamw B (get_last_lr (lr_scheduler r'))
           (backprop B (gradient_accumulation_steps (acc r')) (model r) batch
              (grad r))
           (optimizer r, model r)
    /\ grad r' = zero_grads B.
Proof.
  intros Hsync. eexists _, _. split; [apply accumulate_sync; exact Hsync|].
  project_run. repeat split. now destruct (adamw B _ _ _).
Qed.

Lemma threshold_operations_in_order_witness :
  exists l r',
    accumulate (B := Toy.backend) true [7] (Toy.start [7] [9]) = (Ok l, r')
    /\ trace r' = [Did Backward; Did SchedulerStep; Did OptimizerStep;
                   Did ZeroGrad]
    /\ taken (lr_scheduler r') = 0 + 1
    /\ (optimizer r', model r') =
         adamw Toy.backend (get_last_lr (lr_scheduler r'))
           (backprop Toy.backend (gradient_accumulation_steps (acc r')) 0 [7] 0)
           (0, 0)
    /\ grad r' = 0.
Proof.
  apply (threshold_operations_in_order (B := Toy.backend) true [7]
           (Toy.start [7] [9])).
  reflexivity.
Defined.

(** C2, as stated, fails: on the second micro-batch of a run, which reaches
    the threshold of 2, the scheduler is advanced before the optimizer step,
    not after the gradients are cleared. *)
Lemma scheduler_advances_before_optimizer :
  let r1 := snd (accumulate (B := Toy.backend) false [7]
                   (Toy.start [7; 8; 9] [9])) in
  let r2 := snd (accumulate (B := Toy.backend) false [8] r1) in
  sync_gradients (acc r1) = false
  /\ sync_gradients (acc r2) = true
  /\ operations (trace r2) =
       [Backward; Backward; SchedulerStep; OptimizerStep; ZeroGrad]
  /\ operations (trace r2) <>
       [Backward; Backward; OptimizerStep; ZeroGrad; SchedulerStep].
Proof.
  vm_compute. repeat split. discriminate.
Qed.

End StepFacts.

(** ** The loops of the training part *)

Module LoopFacts.

Import torch accelerate mt_sweep StepFacts.

Section WithBackend.

Context {B : Backend}.

Lemma extends_refl (r : @run B) : extends r r [].
Proof. unfold extends. rewrite app_nil_r. repeat split. Qed.

Lemma extends_trans (r r1 r2 : @run B) (es1 es2 : list event) :
  extends r r1 es1 -> extends r1 r2 es2 -> extends r r2 (es1 ++ es2).
Proof.
  intros (Ht1 & Ha1 & He1 & Hs1 & Hg1) (Ht2 & Ha2 & He2 & Hs2 & Hg2).
  unfold extends. rewrite Ht2, Ht1, Ha2, Ha1, He2, He1, Hs2, Hs1, Hg2, Hg1.
  rewrite <- app_assoc. repeat split.
Qed.

Lemma log_training_zero (l : scalar B) (r : run) :
  exists r',
    log_training l 0 r = (Raise ZeroDivisionError, r')
    /\ extends r r' [Log "train/train_loss" (LogTensor l) (absolute_step r)].
Proof. eexists. split; [reflexivity|]. unfold extends. now project_run. Qed.

Lemma log_training_run (l : scalar B) (n : Z) (r : run) :
  n <> 0 ->
  exists r',
    log_training l n r = (Ok tt, r')
    /\ extends r r'
         [Log "train/train_loss" (LogTensor l) (absolute_step r);
          Log "train/epoch" (LogRatio (absolute_step r + 1) n) (absolute_step r);
          Log "train/data_count" (LogInt (data_count r)) (absolute_step r);
          Log "train/learning_rate"
            (LogFloat (get_last_lr (lr_scheduler r))) (absolute_step r)].
Proof.
  intros Hn. unfold log_training, truediv, log, emit, bind, get, modify, ret.
  destruct (Z.eqb_spec n 0) as [E|_]; [contradiction|].
  eexists. split; [reflexivity|]. unfold extends. project_run.
  rewrite <- !app_assoc. repeat split.
Qed.

Lemma periodic_evaluation_run (eval_dl : DataLoader B) (r : run) :
  batches eval_dl 0 <> [] ->
  exists l r',
    periodic_evaluation eval_dl r = (Ok tt, r')
    /\ l = mean B (map (loss B false (model r)) (batches eval_dl 0))
    /\ extends r r'
         [Print l (exp B l);
          Log "validation/valid_loss" (LogFloat l) (absolute_step r);
          Log "validation/valid_accuracy" (LogFloat (exp B l)) (absolute_step r)].
Proof.
  intros Hne. unfold periodic_evaluation.
  unfold bind at 1. cbn [get].
  unfold bind at 1. cbn [set_training modify].
  unfold bind at 1.
  pose proof (evaluate_run eval_dl (with_training false r) Hne) as Hev.
  change (model (with_training false r)) with (model r) in Hev.
  set (l := mean B (map (loss B false (model r)) (batches eval_dl 0))) in *.
  rewrite Hev. clear Hev.
  unfold log, emit, set_training, bind, modify.
  eexists l, _. split; [reflexivity|]. split; [reflexivity|].
  unfold extends. project_run. rewrite <- !app_assoc. repeat split.
Qed.

Lemma periodic_evaluation_empty (eval_dl : DataLoader B) (r : run) :
  batches eval_dl 0 = [] ->
  exists e r', periodic_evaluation eval_dl r = (Raise e, r') /\ extends r r' [].
Proof.
  intros He. unfold periodic_evaluation.
  unfold bind at 1. cbn [get].
  unfold bind at 1. cbn [set_training modify].
  unfold bind at 1. rewrite evaluate_empty by exact He.
  eexists _, _. split; [reflexivity|]. unfold extends. project_run.
  rewrite app_nil_r. repeat split.
Qed.

(** A checkpoint always gets as far as the model's files; the bundle of
    states follows when [epoch] and [step] are bound. *)
Lemma save_checkpoint_run (model_name : string) (r : @run B) :
  exists res r' ck,
    save_checkpoint "100M" model_name "reg_loss" r = (res, r')
    /\ extends r r' ck
    /\ checkpoint_events (checkpoint_at model_name (absolute_step r)) ck
    /\ written_dirs ck = [checkpoint_at model_name (absolute_step r)]
    /\ (epoch_var r <> None -> step_var r <> None -> res = Ok tt).
Proof.
  unfold save_checkpoint, read_var, emit, bind, get, modify, ret, raise.
  project_run.
  destruct (epoch_var r) as [e|] eqn:He.
  - destruct (step_var r) as [i|] eqn:Hs.
    + eexists _, _, _. split; [reflexivity|]. split.
      * unfold extends. project_run. rewrite <- !app_assoc.
        cbn [app]. now rewrite He, Hs.
      * split; [apply checkpoint_all|]. split; [reflexivity|]. reflexivity.
    + eexists _, _, _. split; [reflexivity|]. split.
      * unfold extends. project_run. rewrite <- !app_assoc.
        cbn [app]. now rewrite He, Hs.
      * split; [apply checkpoint_model|]. split; [reflexivity|]. congruence.
  - eexists _, _, _. split; [reflexivity|]. split.
    + unfold extends. project_run. rewrite <- !app_assoc.
      cbn [app]. now rewrite He.
    + split; [apply checkpoint_model|]. split; [reflexivity|]. congruence.
Qed.

(** The conditional evaluation and the conditional checkpoint that end a
    turn. *)
Lemma evaluation_tail (eval_dl : DataLoader B) (r : run) :
  exists res r' ev,
    (if absolute_step r mod 200 =? 0 then periodic_evaluation eval_dl
     else ret tt) r = (res, r')
    /\ extends r r' ev
    /\ evaluation_events (absolute_step r) ev
    /\ (res <> Ok tt -> ev = [])
    /\ (batches eval_dl 0 <> [] -> res = Ok tt).
Proof.
  destruct (Z.eqb_spec (absolute_step r mod 200) 0) as [H200|H200].
  - destruct (batches eval_dl 0) as [|b bs] eqn:Hb.
    + destruct (periodic_evaluation_empty eval_dl r Hb) as (e & r' & Hrun & Hext).
      exists (Raise e), r', [].
      split; [exact Hrun|]. split; [exact Hext|]. split; [constructor|].
      split; [reflexivity|]. intros Hne. now contradiction Hne.
    + destruct (periodic_evaluation_run eval_dl r) as (l & r' & Hrun & _ & Hext).
      { rewrite Hb. discriminate. }
      eexists (Ok tt), r', _.
      split; [exact Hrun|]. split; [exact Hext|].
      split; [now constructor|].
      split; [intros Hne; now contradiction Hne | reflexivity].
  - exists (Ok tt), r, [].
    split; [reflexivity|]. split; [apply extends_refl|]. split; [constructor|].
    split; reflexivity.
Qed.

Lemma checkpoint_tail (model_name : string) (r : @run B) :
  exists res r' ck,
    (r0 <- get ;;
     if absolute_step r0 mod 20000 =? 0
     then save_checkpoint "100M" model_name "reg_loss"
     else ret tt)%py r = (res, r')
    /\ extends r r' ck
    /\ checkpoint_events (checkpoint_at model_name (absolute_step r)) ck
    /\ (ck <> [] -> absolute_step r mod 20000 = 0)
    /\ (absolute_step r mod 20000 = 0 ->
        written_dirs ck = [checkpoint_at model_name (absolute_step r)])
    /\ (epoch_var r <> None -> step_var r <> None -> res = Ok tt).
Proof.
  unfold bind at 1. cbn [get].
  destruct (Z.eqb_spec (absolute_step r mod 20000) 0) as [H|H].
  - destruct (save_checkpoint_run model_name r)
      as (res & r' & ck & Hrun & Hext & Hck & Hdirs & Hok).
    exists res, r', ck.
    split; [exact Hrun|]. split; [exact Hext|]. split; [exact Hck|].
    split; [intros _; exact H|]. split; [intros _; exact Hdirs | exact Hok].
  - exists (Ok tt), r, [].
    split; [reflexivity|]. split; [apply extends_refl|]. split; [constructor|].
    split; [intros Hne; now contradiction Hne|].
    split; [intros H0; now contradiction H | reflexivity].
Qed.

(** One turn of the inner loop: the step advances by one whatever happens,
    and the turn's events have the shape [turn_events].  When the epoch
    fraction can be computed, the validation set is not empty and [epoch] is
    bound, the turn completes, and at a multiple of 20000 it has written the
    model's files to that step's directory. *)
Lemma train_batch_events (model_name : string) (eval_dl : DataLoader B)
    (n last : Z) (indexed : Z * list (example B)) (r : run) :
  exists res r' turn,
    train_batch "100M" model_name "reg_loss" eval_dl n last indexed r = (res, r')
    /\ trace r' = trace r ++ turn
    /\ absolute_step r' = absolute_step r + 1
    /\ epoch_var r' = epoch_var r
    /\ gradient_accumulation_steps (acc r') = gradient_accumulation_steps (acc r)
    /\ turn_events model_name (absolute_step r + 1) turn
    /\ (n <> 0 -> batches eval_dl 0 <> [] -> epoch_var r <> None ->
        res = Ok tt
        /\ ((absolute_step r + 1) mod 20000 = 0 ->
            written_dirs turn = [checkpoint_at model_name (absolute_step r + 1)])).
Proof.
  destruct indexed as [i batch]. unfold train_batch.
  unfold bind at 1. cbn [set_step modify].
  destruct (accumulate_events (i =? last) batch (with_step i r))
    as (l & ops & r1 & Hacc & Ht1 & Ha1 & He1 & Hs1 & Hg1).
  project_run.
  unfold bind at 1. rewrite Hacc.
  unfold bind at 1. unfold count_batch at 1. unfold bind at 1.
  cbn [get set_counters modify].
  remember (with_counters (data_count r1 + Z.of_nat (length batch))
              (absolute_step r1 + 1) r1) as r2 eqn:Hr2.
  assert (Ht2 : trace r2 = trace r ++ map Did ops) by (now subst r2).
  assert (Ha2 : absolute_step r2 = absolute_step r + 1)
    by (subst r2; project_run; now rewrite Ha1).
  assert (He2 : epoch_var r2 = epoch_var r) by (now subst r2).
  assert (Hs2 : step_var r2 = Some i) by (now subst r2).
  assert (Hg2 : gradient_accumulation_steps (acc r2)
                = gradient_accumulation_steps (acc r)) by (now subst r2).
  clear Hr2 Hacc Ht1 Ha1 He1 Hs1 Hg1 r1.
  unfold bind at 1.
  destruct (Z.eqb_spec n 0) as [Hn|Hn].
  - (* the epoch fraction cannot be computed *)
    subst n.
    destruct (log_training_zero l r2) as (r3 & Hrun & Ht3 & Ha3 & He3 & _ & Hg3).
    rewrite Hrun. clear Hrun.
    match type of Ht3 with _ = _ ++ ?x => remember x as logs eqn:Hlogs end.
    exists (Raise ZeroDivisionError), r3, (map Did ops ++ logs ++ [] ++ []).
    split; [reflexivity|].
    split; [rewrite Ht3, Ht2, app_nil_r, <- app_assoc; reflexivity|].
    split; [congruence|]. split; [congruence|]. split; [congruence|].
    split.
    + constructor; [| constructor | constructor |].
      * subst logs. rewrite Ha2. constructor.
      * intros Hne. now contradiction Hne.
    + intros Hne. now contradiction Hne.
  - destruct (log_training_run l n r2 Hn)
      as (r3 & Hrun & Ht3 & Ha3 & He3 & Hs3 & Hg3).
    rewrite Hrun. clear Hrun.
    match type of Ht3 with _ = _ ++ ?x => remember x as logs eqn:Hlogs end.
    assert (Hlogs' : train_logs (absolute_step r + 1) logs)
      by (subst logs; rewrite Ha2; constructor).
    clear Hlogs.
    unfold bind at 1. cbn [get]. unfold bind at 1.
    destruct (evaluation_tail eval_dl r3)
      as (res4 & r4 & ev & Hrun & (Ht4 & Ha4 & He4 & Hs4 & Hg4) & Hev & Hcut & Hok4).
    rewrite Hrun. clear Hrun.
    assert (Hstep3 : absolute_step r3 = absolute_step r + 1) by congruence.
    assert (Hstep4 : absolute_step r4 = absolute_step r + 1) by congruence.
    rewrite Hstep3 in Hev.
    destruct res4 as [[]|e4].
    + (* on to the checkpoint *)
      destruct (checkpoint_tail model_name r4)
        as (res5 & r5 & ck & Hrun & (Ht5 & Ha5 & He5 & Hs5 & Hg5)
            & Hck & Hmul & Hdirs & Hok5).
      rewrite Hrun. clear Hrun.
      rewrite Hstep4 in Hck, Hmul, Hdirs.
      exists res5, r5, (map Did ops ++ logs ++ ev ++ ck).
      split; [reflexivity|].
      split; [rewrite Ht5, Ht4, Ht3, Ht2, <- !app_assoc; reflexivity|].
      split; [congruence|]. split; [congruence|]. split; [congruence|].
      split; [now constructor|].
      intros _ Hvalid Hepoch. split.
      * apply Hok5; congruence.
      * intros H20000.
        assert (Hnone : written_dirs ev = []) by (destruct Hev; reflexivity).
        assert (Hlg : written_dirs logs = []) by (destruct Hlogs'; reflexivity).
        assert (Hops : written_dirs (B := B) (map Did ops) = []).
        { clear. induction ops as [|o ops IH]; [reflexivity | exact IH]. }
        unfold written_dirs in *.
        rewrite !flat_map_app, Hops, Hlg, Hnone, Hdirs by exact H20000.
        reflexivity.
    + (* the evaluation raised *)
      assert (Hnil : ev = []) by (apply Hcut; discriminate). subst ev.
      exists (Raise e4), r4, (map Did ops ++ logs ++ [] ++ []).
      split; [reflexivity|].
      split; [rewrite Ht4, Ht3, Ht2, !app_nil_r, <- !app_assoc; reflexivity|].
      split; [congruence|]. split; [congruence|]. split; [congruence|].
      split.
      * constructor; [assumption | constructor | constructor |].
        intros Hne. now contradiction Hne.
      * intros _ Hvalid _. specialize (Hok4 Hvalid). discriminate.
Qed.

(** What every turn of a [for] keeps, the loop keeps, also when it is left
    by an exception. *)
Lemma for_each_invariant {S X} (I : S -> Prop) (body : X -> M S unit) :
  (forall x s, I s -> I (snd (body x s))) ->
  forall (xs : list X) (s : S), I s -> I (snd (for_each xs body s)).
Proof.
  intros Hbody. induction xs as [|x xs IH]; intros s Hs; [exact Hs|].
  cbn [for_each]. unfold bind.
  specialize (Hbody x s Hs).
  destruct (body x s) as [[[]|e] s1]; cbn [snd] in *.
  - now apply IH.
  - exact Hbody.
Qed.

Lemma train_batch_in_loop (model_name : string) (eval_dl : DataLoader B)
    (n last g : Z) (indexed : Z * list (example B)) (r : run) :
  in_loop model_name g r ->
  in_loop model_name g
    (snd (train_batch "100M" model_name "reg_loss" eval_dl n last indexed r)).
Proof.
  intros [Hloop Hg].
  destruct (train_batch_events model_name eval_dl n last indexed r)
    as (res & r' & turn & Hrun & Ht & Ha & _ & Hg' & Hturn & _).
  rewrite Hrun. cbn [snd]. split.
  - rewrite Ht, Ha. now constructor.
  - congruence.
Qed.

Lemma train_epoch_in_loop (model_name : string) (eval_dl train_dl : DataLoader B)
    (n g epoch : Z) (r : run) :
  in_loop model_name g r ->
  in_loop model_name g
    (snd (train_epoch "100M" model_name "reg_loss" eval_dl train_dl n epoch r)).
Proof.
  intros Hr. unfold train_epoch.
  unfold bind at 1. cbn [set_epoch modify].
  unfold bind at 1. cbn [set_training modify].
  apply for_each_invariant.
  - intros x s Hs. now apply train_batch_in_loop.
  - exact Hr.
Qed.

(** The events of the whole training part have the shape [run_events], the
    step counter ends at the number of turns taken, and the accumulation
    count is never changed. *)
Lemma main_train_events (model_name : string) (su : @setup B) (r0 : run) :
  trace r0 = [] ->
  let r' := snd (main_train model_name su r0) in
  run_events model_name (absolute_step r') (trace r')
  /\ gradient_accumulation_steps (acc r') = gradient_accumulation_steps (acc r0).
Proof.
  intros Hempty. cbv zeta.
  set (P := fun out : result unit * @run B =>
         run_events model_name (absolute_step (snd out)) (trace (snd out))
         /\ gradient_accumulation_steps (acc (snd out))
            = gradient_accumulation_steps (acc r0)).
  change (P (main_train model_name su r0)).
  assert (Hidle : forall (res : result unit) (r : @run B),
             in_loop model_name (gradient_accumulation_steps (acc r0)) r ->
             P (res, r)).
  { intros res r [Hloop Hg]. split; [|exact Hg]. cbn [snd].
    rewrite <- (app_nil_r (trace r)).
    change (@nil event) with (@nil (@event B) ++ @nil (@event B)).
    constructor; [exact Hloop | constructor | now left]. }
  unfold main_train.
  unfold bind at 1. cbn [set_counters modify].
  assert (Hstart : in_loop model_name (gradient_accumulation_steps (acc r0))
                     (with_counters 0 0 r0)).
  { split; [|reflexivity]. project_run. rewrite Hempty. constructor. }
  revert Hstart. generalize (with_counters 0 0 r0). intros r1 Hr1.
  unfold bind at 1. unfold epochs_of, getitem.
  destruct (train_config su !! "num_epochs") as [v|]; [|now apply Hidle].
  unfold bind at 1. cbn [ret].
  destruct v; try (now apply Hidle).
  cbn [ret]. unfold bind at 1.
  pose proof (for_each_invariant
                (in_loop model_name (gradient_accumulation_steps (acc r0)))
                (train_epoch "100M" model_name "reg_loss" (eval_dataloader su)
                   (train_dataloader su)
                   (ceil_div (Z.of_nat (length (dataset (train_dataloader su))))
                      (batch_size_local su)))
                (fun x s Hs => train_epoch_in_loop _ _ _ _ _ x s Hs)
                (range z) r1 Hr1) as Hloop.
  destruct (for_each _ _ r1) as [[[]|e] r2]; cbn [snd] in Hloop;
    [|now apply Hidle].
  destruct Hloop as [Hloop Hg].
  unfold bind at 1.
  destruct (save_checkpoint_run model_name r2)
    as (res & r3 & ck & Hrun & (Ht3 & Ha3 & _ & _ & Hg3) & Hck & _).
  rewrite Hrun. destruct res as [[]|e].
  - unfold emit, modify. subst P. project_run. split; [|congruence].
    rewrite Ha3, Ht3, <- app_assoc. constructor; [exact Hloop | | now right].
    exact Hck.
  - subst P. cbn [snd]. split; [|congruence].
    rewrite Ha3, Ht3. rewrite <- (app_nil_r ck).
    constructor; [exact Hloop | | now left].
    exact Hck.
Qed.

End WithBackend.

End LoopFacts.

(** ** What the shape of the events entails *)

Module TraceFacts.

Import torch accelerate mt_sweep.

Section WithBackend.

Context {B : Backend}.

Lemma flat_map_operations {X} (f : @event B -> list X) (ops : list operation) :
  (forall op, f (Did op) = []) -> flat_map f (map Did ops) = [].
Proof.
  intros Hf. induction ops as [|op ops IH]; [reflexivity|].
  cbn [map flat_map]. now rewrite Hf, IH.
Qed.

(** Taking a turn apart: its four parts, each in every shape it can have,
    with the projection at hand computed. *)
Ltac turn_cases H :=
  destruct H as [ops logs ev ck Hlogs Hev Hck Hmul];
  rewrite !flat_map_app;
  rewrite !flat_map_operations by reflexivity;
  destruct Hlogs, Hev, Hck; cbn [flat_map app].

Lemma loop_events_step (model_name : string) (n : Z) (tr : list (@event B)) :
  loop_events model_name n tr -> 0 <= n.
Proof. induction 1; lia. Qed.

(** *** Logged steps *)

Lemma turn_log_steps (model_name : string) (s : Z) (turn : list (@event B)) :
  turn_events model_name s turn ->
  s ∈ log_steps turn /\ Forall (fun x => x = s) (log_steps turn).
Proof.
  intros H. unfold log_steps. turn_cases H;
    (split; [left | repeat constructor]).
Qed.

Lemma turn_log_steps_of (model_name key : string) (s : Z) (turn : list (@event B)) :
  turn_events model_name s turn ->
  log_steps_of key turn = [] \/ log_steps_of key turn = [s].
Proof.
  intros H. unfold log_steps_of. turn_cases H;
    repeat match goal with
           | |- context [String.eqb ?k key] =>
               destruct (String.eqb_spec k key) as [Hkey|?];
               [subst key; cbn; auto | cbv iota; cbn [app]]
           end; auto.
Qed.

Lemma checkpoint_no_logs (d : checkpoint_dir) (ck : list (@event B)) :
  checkpoint_events d ck ->
  log_steps ck = [] /\ log_keys ck = [] /\ printed ck = []
  /\ forall key, log_steps_of key ck = [] /\ logged_under key ck = [].
Proof. destruct 1; repeat split. Qed.

Lemma all_equal_sorted (s : Z) (l : list Z) :
  Forall (fun x => x = s) l -> StronglySorted Z.le l.
Proof.
  induction 1 as [|x l -> Hl IH]; constructor; [exact IH|].
  eapply Forall_impl; [exact Hl|]. intros y ->. cbn. lia.
Qed.

Lemma loop_log_steps (model_name : string) (n : Z) (tr : list (@event B)) :
  loop_events model_name n tr ->
  StronglySorted Z.le (log_steps tr)
  /\ (forall x, x ∈ log_steps tr <-> 1 <= x <= n)
  /\ forall key, StronglySorted Z.lt (log_steps_of key tr)
                 /\ Forall (fun x => 1 <= x <= n) (log_steps_of key tr).
Proof.
  induction 1 as [|n tr turn Hloop (IHs & IHin & IHkey) Hturn].
  - split; [constructor|]. split.
    + intros x. split; [inversion 1 | lia].
    + intros key. split; constructor.
  - pose proof (loop_events_step _ _ _ Hloop) as Hn.
    destruct (turn_log_steps _ _ _ Hturn) as [Hin Hall].
    unfold log_steps, log_steps_of in *.
    split; [|split].
    + rewrite flat_map_app. apply StronglySorted_app_2.
      * intros x y Hx Hy. apply IHin in Hx.
        rewrite Forall_forall in Hall. rewrite (Hall y Hy). lia.
      * exact IHs.
      * now apply all_equal_sorted with (s := n + 1).
    + intros x. rewrite flat_map_app, elem_of_app, IHin. split.
      * intros [Hx|Hx]; [lia|].
        rewrite Forall_forall in Hall. rewrite (Hall x Hx). lia.
      * intros Hx. destruct (Z.eq_dec x (n + 1)) as [->|Hne];
          [now right | left; lia].
    + intros key. destruct (IHkey key) as [IHlt IHrange].
      rewrite flat_map_app.
      destruct (turn_log_steps_of model_name key _ _ Hturn) as [Hk|Hk];
        unfold log_steps_of in Hk; rewrite Hk.
      * rewrite app_nil_r. split; [exact IHlt|].
        eapply Forall_impl; [exact IHrange|]. cbn. intros; lia.
      * split.
        -- apply StronglySorted_app_2.
           ++ intros x y Hx Hy. rewrite Forall_forall in IHrange.
              apply IHrange in Hx. apply list_elem_of_singleton in Hy. lia.
           ++ exact IHlt.
           ++ repeat constructor.
        -- apply Forall_app. split.
           ++ eapply Forall_impl; [exact IHrange|]. cbn. intros; lia.
           ++ repeat constructor; lia.
Qed.

Lemma run_log_steps (model_name : string) (n : Z) (tr : list (@event B)) :
  run_events model_name n tr ->
  StronglySorted Z.le (log_steps tr)
  /\ (forall x, x ∈ log_steps tr <-> 1 <= x <= n)
  /\ forall key, StronglySorted Z.lt (log_steps_of key tr).
Proof.
  destruct 1 as [n tr ck fin Hloop Hck Hfin].
  destruct (loop_log_steps _ _ _ Hloop) as (Hs & Hin & Hkey).
  destruct (checkpoint_no_logs _ _ Hck) as (Hck1 & _ & _ & Hck2).
  assert (Hfin1 : log_steps fin = [] /\ forall key, log_steps_of key fin = [])
    by (destruct Hfin as [->| ->]; split; reflexivity).
  destruct Hfin1 as [Hfin1 Hfin2].
  unfold log_steps, log_steps_of in *.
  rewrite !flat_map_app, Hck1, Hfin1, !app_nil_r.
  split; [exact Hs|]. split; [exact Hin|].
  intros key. rewrite !flat_map_app.
  destruct (Hck2 key) as [-> _]. rewrite Hfin2, !app_nil_r. apply Hkey.
Qed.

(** *** Written directories *)

(** *** Keys and values *)

Lemma turn_logged (model_name : string) (s : Z) (turn : list (@event B)) :
  turn_events model_name s turn ->
  Forall (fun k => occurs_in "perplexity" k = false) (log_keys turn)
  /\ logged_under "validation/valid_accuracy" turn
       = map (fun lp => LogFloat (snd lp)) (printed turn)
  /\ logged_under "validation/valid_loss" turn
       = map (fun lp => LogFloat (fst lp)) (printed turn)
  /\ Forall (fun lp => snd lp = exp B (fst lp)) (printed turn)
  /\ Forall (fun x => x mod 200 = 0)
       (log_steps_of "validation/valid_accuracy" turn).
Proof.
  intros H.
  unfold log_keys, logged_under, printed, log_steps_of.
  turn_cases H; repeat split; repeat constructor; assumption.
Qed.

Lemma run_logged (model_name : string) (n : Z) (tr : list (@event B)) :
  run_events model_name n tr ->
  Forall (fun k => occurs_in "perplexity" k = false) (log_keys tr)
  /\ logged_under "validation/valid_accuracy" tr
       = map (fun lp => LogFloat (snd lp)) (printed tr)
  /\ logged_under "validation/valid_loss" tr
       = map (fun lp => LogFloat (fst lp)) (printed tr)
  /\ Forall (fun lp => snd lp = exp B (fst lp)) (printed tr)
  /\ Forall (fun x => x mod 200 = 0)
       (log_steps_of "validation/valid_accuracy" tr).
Proof.
  destruct 1 as [n tr ck fin Hloop Hck Hfin].
  assert (Hmore : forall X (f : @event B -> list X),
             (forall d w, f (SavePretrained d w) = []) ->
             (forall d st, f (SaveStates d st) = []) ->
             (forall d, f (Mkdir d) = []) ->
             f WaitForEveryone = [] -> f EndTraining = [] ->
             flat_map f (tr ++ ck ++ fin) = flat_map f tr).
  { intros X f H1 H2 H3 H4 H5. rewrite !flat_map_app.
    destruct Hck, Hfin as [->| ->]; cbn [flat_map];
      rewrite ?H1, ?H2, ?H3, ?H4, ?H5; now rewrite ?app_nil_r. }
  unfold log_keys, logged_under, printed, log_steps_of.
  rewrite !Hmore by reflexivity. clear Hmore Hck Hfin ck fin.
  induction Hloop as [|n tr turn Hloop (IH1 & IH2 & IH3 & IH4 & IH5) Hturn].
  - repeat split; constructor.
  - destruct (turn_logged _ _ _ Hturn) as (H1 & H2 & H3 & H4 & H5).
    unfold log_keys, logged_under, printed, log_steps_of in *.
    rewrite !flat_map_app, !map_app, IH2, IH3, H2, H3.
    repeat split; try apply Forall_app; auto.
Qed.

End WithBackend.

End TraceFacts.

(** ** Sorted steps *)

Module RunFacts.

Import torch accelerate mt_sweep.

Lemma sorted_steps_no_dup {X} (f : X -> Z) (l : list X) :
  StronglySorted Z.lt (map f l) -> NoDup l.
Proof.
  induction l as [|x l IH]; [constructor|].
  cbn [map]. intros H. apply StronglySorted_inv in H as [Hl Hx].
  constructor; [|now apply IH].
  intros Hin. rewrite Forall_forall in Hx.
  specialize (Hx (f x)). cbn in Hx.
  assert (f x < f x); [|lia].
  apply Hx. apply list_elem_of_fmap. now exists x.
Qed.

End RunFacts.

(** ** The batches of a pass *)

Module CompleteRuns.

Import torch accelerate mt_sweep StepFacts.

Lemma ceil_div_step (a n : Z) :
  0 < n -> 0 < a -> 1 + ceil_div (Z.max 0 (a - n)) n = ceil_div a n.
Proof.
  intros Hn Ha. unfold ceil_div.
  destruct (Z.le_gt_cases n a) as [Hle|Hgt].
  - rewrite Z.max_r by lia.
    replace (- (a - n)) with (- a + 1 * n) by lia.
    rewrite Z.div_add by lia. lia.
  - rewrite Z.max_l by lia. change (- 0) with 0. rewrite Z.div_0_l by lia.
    assert (- a / n = - 1); [|lia].
    symmetry. apply Z.div_unique with (r := n - a); lia.
Qed.

Lemma chunks_fuel_length {X} (n : nat) :
  (0 < n)%nat ->
  forall (fuel : nat) (l : list X),
    (length l <= fuel)%nat ->
    Z.of_nat (length (chunks_fuel fuel n l))
      = ceil_div (Z.of_nat (length l)) (Z.of_nat n).
Proof.
  intros Hn. induction fuel as [|fuel IH]; intros l Hfuel.
  - destruct l; [reflexivity | cbn in Hfuel; lia].
  - destruct l as [|x l]; [reflexivity|].
    cbn [chunks_fuel]. rewrite length_cons, Nat2Z.inj_succ, IH.
    + rewrite length_skipn.
      rewrite <- (ceil_div_step (Z.of_nat (length (x :: l))) (Z.of_nat n))
        by (cbn [length]; lia).
      replace (Z.of_nat (length (x :: l) - n))
        with (Z.max 0 (Z.of_nat (length (x :: l)) - Z.of_nat n)) by lia.
      lia.
    + rewrite length_skipn. cbn [length] in *. lia.
Qed.

(** The batches are the data, cut up: no item is lost, so the fuel that
    [chunks] gives itself is enough. *)
Lemma chunks_fuel_concat {X} (n : nat) :
  (0 < n)%nat ->
  forall (fuel : nat) (l : list X),
    (length l <= fuel)%nat -> concat (chunks_fuel fuel n l) = l.
Proof.
  intros Hn. induction fuel as [|fuel IH]; intros l Hfuel.
  - destruct l; [reflexivity | cbn in Hfuel; lia].
  - destruct l as [|x l]; [reflexivity|].
    cbn [chunks_fuel concat]. rewrite IH.
    + apply firstn_skipn.
    + rewrite length_skipn. cbn [length] in *. lia.
Qed.

Lemma chunks_concat {X} (n : nat) (l : list X) :
  (0 < n)%nat -> concat (chunks n l) = l.
Proof. intros Hn. unfold chunks. now apply chunks_fuel_concat. Qed.

(** [len(dl)] is the number of batches of a pass. *)
Lemma chunks_length {X} (n : nat) (l : list X) :
  (0 < n)%nat ->
  Z.of_nat (length (chunks n l)) = ceil_div (Z.of_nat (length l)) (Z.of_nat n).
Proof. intros Hn. unfold chunks. now apply chunks_fuel_length. Qed.

End CompleteRuns.

(** ** The configuration that [main] builds *)

Module ConfigCall.

Import components GPT2Config mt_sweep.

(** X4.  Line 130 hands the dict of the sweep's values to [GPT2Config] as its
    first positional argument: for every tokenizer and every value of the
    sweep's [bottleneck] and [n_layer], the construction succeeds, the dict is
    what [vocab_size] holds, and the width (768), the context length (1024)
    and the stack (12 blocks of width 768, 12 heads, inner width 3072) are
    those of the defaults.  The swept values do not reach the blocks. *)
Theorem sweep_values_do_not_reach_the_blocks {B : torch.Backend}
    (tok : Tokenizer) (su : setup (B := B)) (h : list alloc) :
  exists c,
    build_config tok su h
      = (Ok c, h ++ concat (repeat (uniform_weights 768) 12))
    /\ vocab_size c = PyDict (model_config tok (bottleneck_dim su) (n_layer su))
    /\ n_embd c = 768
    /\ block_size c = 1024
    /\ blocks c = repeat (uniform_block 768 (1 # 10) 1024 GELU) 12.
Proof.
  unfold build_config, __init__, bind.
  rewrite (GPT2ConfigFacts.iterate_add_block default_n_embd default_drop
             default_block_size GELU eq_refl).
  eexists. split; [reflexivity|]. repeat split.
Qed.

End ConfigCall.

(** ** More of the set-up: sweep keys, micro-batches, the model's name *)

Module SetupMore.

Import torch accelerate mt_sweep.

(** X1.  A positive batch size and a sweep that lacks one of the two keys
    [main] reads: the lookup raises [KeyError] for the first key that is
    missing, after the two loaders are built and before the seed is drawn
    (the generator is as it was). *)
Theorem missing_sweep_key_raises {B : Backend} (bs : Z)
    (train valid : list (example B)) (cfg : gmap string pyval) (g : list Z) :
  0 < bs ->
  cfg !! "bottleneck" = None \/ cfg !! "n_layer" = None ->
  exists key,
    main_setup bs train valid cfg g = (Raise (KeyError key), g)
    /\ cfg !! key = None
    /\ (key = "bottleneck"%string
        \/ (key = "n_layer"%string /\ cfg !! "bottleneck" <> None)).
Proof.
  intros Hpos Hmiss.
  unfold main_setup, new_DataLoader, getitem, bind, ret, raise.
  change (EVAL_BATCH_SIZE <=? 0) with false. cbv iota.
  assert (Hb : ((if bs >? MAX_GPU_BATCH_SIZE then MAX_GPU_BATCH_SIZE else bs)
                <=? 0) = false).
  { destruct (bs >? MAX_GPU_BATCH_SIZE); [reflexivity|]. now apply Z.leb_gt. }
  destruct (bs >? MAX_GPU_BATCH_SIZE) eqn:Hcap; cbv beta iota; rewrite Hb;
    cbv iota.
  - destruct (cfg !! "bottleneck") as [b|] eqn:Hbot.
    + destruct Hmiss as [Hm|Hm]; [discriminate|]. rewrite Hm.
      exists "n_layer"%string. split; [reflexivity|]. split; [exact Hm|].
      right. split; [reflexivity | congruence].
    + exists "bottleneck"%string. split; [reflexivity|]. split; [exact Hbot|].
      now left.
  - destruct (cfg !! "bottleneck") as [b|] eqn:Hbot.
    + destruct Hmiss as [Hm|Hm]; [discriminate|]. rewrite Hm.
      exists "n_layer"%string. split; [reflexivity|]. split; [exact Hm|].
      right. split; [reflexivity | congruence].
    + exists "bottleneck"%string. split; [reflexivity|]. split; [exact Hbot|].
      now left.
Qed.

Lemma missing_sweep_key_raises_witness :
  exists key,
    main_setup (B := Toy.backend) 64 [7; 8] [9]
      (<["bottleneck" := PyInt 788]> ∅) [41] = (Raise (KeyError key), [41])
    /\ (<["bottleneck" := PyInt 788]> ∅ : gmap string pyval) !! key = None
    /\ (key = "bottleneck"%string
        \/ (key = "n_layer"%string
            /\ (<["bottleneck" := PyInt 788]> ∅ : gmap string pyval)
                 !! "bottleneck" <> None)).
Proof.
  apply (missing_sweep_key_raises (B := Toy.backend) 64 [7; 8] [9]
           (<["bottleneck" := PyInt 788]> ∅) [41]).
  - lia.
  - right. reflexivity.
Defined.

(** *** The micro-batches of a pass *)




End SetupMore.

(** ** A turn of the inner loop, exactly *)

Module ExactTurns.

Import torch accelerate mt_sweep StepFacts.

Lemma div_mod_at (e L k : Z) :
  0 <= k < L -> (e * L + k) / L = e /\ (e * L + k) mod L = k.
Proof.
  intros Hk. split.
  - symmetry. apply Z.div_unique with (r := k); lia.
  - symmetry. apply Z.mod_unique with (q := e); lia.
Qed.

Lemma div_succ (k g : Z) :
  0 < g -> 0 <= k ->
  (k + 1) / g = k / g + (if (k + 1) mod g =? 0 then 1 else 0).
Proof.
  intros Hg Hk.
  pose proof (Z.div_mod k g ltac:(lia)) as Hdm.
  pose proof (Z.mod_pos_bound k g Hg) as Hb.
  destruct (Z.eqb_spec ((k + 1) mod g) 0) as [H0|H0].
  - apply Z.mod_divide in H0; [|lia]. destruct H0 as [q Hq].
    assert (q = k / g + 1) by nia. subst q.
    rewrite Hq, Z.div_mul by lia. reflexivity.
  - rewrite Z.add_0_r. symmetry.
    apply Z.div_unique with (r := k mod g + 1); [|lia].
    assert (k mod g + 1 <> g); [|lia].
    intros Heq. apply H0.
    replace (k + 1) with ((k / g + 1) * g) by lia.
    apply Z.mod_mul. lia.
Qed.

Lemma syncs_succ (g L k : Z) :
  0 < g -> 0 <= k < L ->
  syncs g L (k + 1) = syncs g L k + (if sync_at g L k then 1 else 0).
Proof.
  intros Hg Hk. unfold syncs, sync_at.
  destruct (Z.ltb_spec k L) as [_|?]; [|lia].
  destruct (Z.eqb_spec k (L - 1)) as [->|Hne]; cbn [orb].
  - destruct (Z.ltb_spec (L - 1 + 1) L); lia.
  - destruct (Z.ltb_spec (k + 1) L) as [_|?]; [|lia].
    now apply div_succ.
Qed.

Lemma multiples_succ (m s : Z) :
  0 < m -> 0 <= s ->
  multiples m (s + 1)
    = multiples m s ++ (if (s + 1) mod m =? 0 then [s + 1] else []).
Proof.
  intros Hm Hs. unfold multiples. rewrite (div_succ s m Hm Hs).
  assert (Hq : 0 <= s / m) by (apply Z.div_pos; lia).
  destruct (Z.eqb_spec ((s + 1) mod m) 0) as [H0|H0].
  - rewrite Z2Nat.inj_add by lia. change (Z.to_nat 1) with 1%nat.
    rewrite seq_app, map_app. cbn [seq map]. f_equal. f_equal.
    apply Z.mod_divide in H0; [|lia]. destruct H0 as [q Hq'].
    pose proof (div_succ s m Hm Hs) as Hd.
    rewrite Hq', Z.div_mul in Hd by lia.
    replace ((q * m) mod m) with 0 in Hd by (symmetry; apply Z.mod_mul; lia).
    cbn in Hd. rewrite Hq'. lia.
  - rewrite Z.add_0_r, app_nil_r. reflexivity.
Qed.

Lemma steps_to_succ (s : Z) : 0 <= s -> steps_to (s + 1) = steps_to s ++ [s + 1].
Proof.
  intros Hs. unfold steps_to.
  rewrite Z2Nat.inj_add by lia. change (Z.to_nat 1) with 1%nat.
  rewrite seq_app, map_app. cbn [seq map]. f_equal. f_equal. lia.
Qed.

(** The number of updates so far, by the position in the run. *)
Lemma syncs_at_next (g L e k : Z) :
  0 < g -> 0 <= k < L ->
  (e * L + k + 1) / L * syncs g L L + syncs g L ((e * L + k + 1) mod L)
    = e * syncs g L L + syncs g L k + (if sync_at g L k then 1 else 0).
Proof.
  intros Hg Hk. pose proof (syncs_succ g L k Hg Hk) as Hnext.
  destruct (Z.eq_dec (k + 1) L) as [E|E].
  - replace (e * L + k + 1) with ((e + 1) * L) by lia.
    rewrite Z.div_mul, Z.mod_mul by lia.
    rewrite E in Hnext.
    assert (H0 : syncs g L 0 = 0).
    { unfold syncs. destruct (Z.ltb_spec 0 L); [|lia]. apply Z.div_0_l. lia. }
    rewrite H0. lia.
  - replace (e * L + k + 1) with (e * L + (k + 1)) by lia.
    destruct (div_mod_at e L (k + 1)) as [-> ->]; lia.
Qed.

Lemma combine_seq_lookup {X} (i : Z) (x : X) :
  forall (l : list X) (start k : nat),
    combine (map Z.of_nat (seq start (length l))) l !! k = Some (i, x) ->
    i = Z.of_nat (start + k) /\ l !! k = Some x.
Proof.
  induction l as [|y l IH]; intros start k; [destruct k; discriminate|].
  cbn [length seq map combine]. destruct k as [|k]; cbn [lookup list_lookup].
  - intros [= <- <-]. split; [f_equal; lia | reflexivity].
  - intros Hk. destruct (IH _ _ Hk) as [-> Hx].
    split; [f_equal; lia | exact Hx].
Qed.

Lemma enumerate_lookup {X} (l : list X) (k : nat) (i : Z) (x : X) :
  enumerate l !! k = Some (i, x) -> i = Z.of_nat k /\ l !! k = Some x.
Proof. intros Hk. exact (combine_seq_lookup i x l 0 k Hk). Qed.

Section WithBackend.

Context {B : Backend}.

(** Lines 200-207, either way. *)
Lemma accumulate_update (e : bool) (batch : list (example B)) (r : run) :
  exists r' ops,
    accumulate e batch r = (Ok (loss B (training r) (model r) batch), r')
    /\ micro_batch_update e batch r r' ops
    /\ training r' = training r
    /\ data_count r' = data_count r
    /\ absolute_step r' = absolute_step r
    /\ epoch_var r' = epoch_var r
    /\ step_var r' = step_var r
    /\ trace r' = trace r ++ map Did ops.
Proof.
  destruct (sync_gradients (do_sync e (acc r))) eqn:Hsync.
  - eexists _, [Backward; SchedulerStep; OptimizerStep; ZeroGrad].
    split; [apply accumulate_sync; exact Hsync|].
    unfold micro_batch_update. rewrite Hsync. project_run.
    rewrite SetupFacts.do_sync_keeps_count.
    repeat split. symmetry. apply surjective_pairing.
  - eexists _, [Backward].
    split; [apply accumulate_no_sync; exact Hsync|].
    unfold micro_batch_update. rewrite Hsync. project_run.
    rewrite SetupFacts.do_sync_keeps_count.
    repeat split.
Qed.

(** Lines 213-222, when the epoch fraction can be computed. *)
Lemma log_training_exact (l : scalar B) (n : Z) (r : run) :
  n <> 0 ->
  exists r',
    log_training l n r = (Ok tt, r')
    /\ frame r r'
    /\ training r' = training r
    /\ trace r' = trace r ++ training_logs l n (absolute_step r) (data_count r)
                              (get_last_lr (lr_scheduler r)).
Proof.
  intros Hn. unfold log_training, truediv, log, emit, bind, get, modify, ret.
  destruct (Z.eqb_spec n 0) as [E|_]; [contradiction|].
  eexists. split; [reflexivity|]. unfold frame, training_logs. project_run.
  rewrite <- !app_assoc. repeat split.
Qed.

(** Lines 224-237, either way. *)
Lemma periodic_evaluation_outcome (eval_dl : DataLoader B) (r : run) :
  exists res r',
    periodic_evaluation eval_dl r = (res, r')
    /\ frame r r'
    /\ match res with
       | Ok _ =>
           batches eval_dl 0 <> []
           /\ training r' = true
           /\ trace r'
              = trace r
                ++ evaluation_logs
                     (mean B (map (loss B false (model r)) (batches eval_dl 0)))
                     (absolute_step r)
       | Raise x =>
           x = RuntimeError "stack expects a non-empty TensorList"
           /\ batches eval_dl 0 = []
           /\ training r' = false
           /\ trace r' = trace r
       end.
Proof.
  unfold periodic_evaluation.
  unfold bind at 1. cbn [get].
  unfold bind at 1. cbn [set_training modify].
  unfold bind at 1.
  destruct (batches eval_dl 0) as [|b bs] eqn:Hb.
  - rewrite evaluate_empty by exact Hb.
    eexists _, _. split; [reflexivity|]. unfold frame. project_run.
    repeat split.
  - assert (Hne : batches eval_dl 0 <> []) by (rewrite Hb; discriminate).
    pose proof (evaluate_run eval_dl (with_training false r) Hne) as Hev.
    change (model (with_training false r)) with (model r) in Hev.
    rewrite Hb in Hev.
    set (l := mean B (map (loss B false (model r)) (b :: bs))) in *.
    rewrite Hev. clear Hev.
    unfold log, emit, set_training, bind, modify.
    eexists _, _. split; [reflexivity|]. unfold frame, evaluation_logs.
    project_run. rewrite <- !app_assoc.
    repeat split. discriminate.
Qed.

(** Lines 240-260 and 263-283, when [epoch] and [step] are bound. *)
Lemma save_checkpoint_exact (model_name : string) (e i : Z) (r : @run B) :
  epoch_var r = Some e -> step_var r = Some i ->
  exists r',
    save_checkpoint "100M" model_name "reg_loss" r = (Ok tt, r')
    /\ frame r r'
    /\ training r' = training r
    /\ trace r'
       = trace r
         ++ checkpoint_files model_name (absolute_step r) (model r)
              {| ck_epoch := e; ck_steps := i; ck_optimizer := optimizer r;
                 ck_scheduler := taken (lr_scheduler r) |}.
Proof.
  intros He Hi.
  unfold save_checkpoint, read_var, emit, bind, get, modify, ret, raise.
  project_run. rewrite He, Hi.
  eexists. split; [reflexivity|]. unfold frame, checkpoint_files, checkpoint_at.
  project_run. rewrite <- !app_assoc. rewrite He, Hi. repeat split.
Qed.

Lemma micro_batch_update_frame (e : bool) (batch : list (example B))
    (r r1 r' : run) (ops : list operation) :
  micro_batch_update e batch r r1 ops ->
  acc r' = acc r1 -> model r' = model r1 -> grad r' = grad r1 ->
  optimizer r' = optimizer r1 -> lr_scheduler r' = lr_scheduler r1 ->
  micro_batch_update e batch r r' ops.
Proof.
  unfold micro_batch_update. intros [Ha H] -> -> -> -> ->.
  split; [exact Ha | exact H].
Qed.

(** One turn of the inner loop, lines 192-260, when the epoch fraction can be
    computed and [epoch] is bound: it completes, or it is stopped by the
    evaluation of an empty validation set. *)
Lemma train_batch_turn (model_name : string) (eval_dl : DataLoader B)
    (n last e i : Z) (batch : list (example B)) (r : run) :
  n <> 0 -> epoch_var r = Some e ->
  exists res r' ops,
    train_batch "100M" model_name "reg_loss" eval_dl n last (i, batch) r
      = (res, r')
    /\ micro_batch_update (i =? last) batch r r' ops
    /\ absolute_step r' = absolute_step r + 1
    /\ data_count r' = data_count r + Z.of_nat (length batch)
    /\ epoch_var r' = Some e
    /\ step_var r' = Some i
    /\ match res with
       | Ok _ =>
           ((absolute_step r + 1) mod 200 = 0 -> batches eval_dl 0 <> [])
           /\ training r' = (if (absolute_step r + 1) mod 200 =? 0 then true
                             else training r)
           /\ exists valid_loss,
               trace r'
               = trace r
                 ++ complete_turn model_name ops
                      (loss B (training r) (model r) batch) n
                      (absolute_step r + 1) (data_count r')
                      (get_last_lr (lr_scheduler r')) valid_loss (model r')
                      {| ck_epoch := e; ck_steps := i;
                         ck_optimizer := optimizer r';
                         ck_scheduler := taken (lr_scheduler r') |}
       | Raise x =>
           x = RuntimeError "stack expects a non-empty TensorList"
           /\ (absolute_step r + 1) mod 200 = 0
           /\ batches eval_dl 0 = []
           /\ training r' = false
           /\ trace r'
              = trace r
                ++ map Did ops
                ++ training_logs (loss B (training r) (model r) batch) n
                     (absolute_step r + 1) (data_count r')
                     (get_last_lr (lr_scheduler r'))
       end.
Proof.
  intros Hn Hepoch. unfold train_batch.
  unfold bind at 1. cbn [set_step modify].
  destruct (accumulate_update (i =? last) batch (with_step i r))
    as (r1 & ops & Hacc & Hupd & Htr1 & Hd1 & Ha1 & He1 & Hs1 & Ht1).
  change (micro_batch_update (i =? last) batch r r1 ops) in Hupd.
  cbn [training model data_count absolute_step epoch_var step_var trace
       with_step] in Hacc, Htr1, Hd1, Ha1, He1, Hs1, Ht1.
  unfold bind at 1. rewrite Hacc. clear Hacc.
  set (l := loss B (training r) (model r) batch).
  unfold bind at 1. unfold count_batch at 1. unfold bind at 1.
  cbn [get set_counters modify].
  remember (with_counters (data_count r1 + Z.of_nat (length batch))
              (absolute_step r1 + 1) r1) as r2 eqn:Hr2.
  assert (Hupd2 : micro_batch_update (i =? last) batch r r2 ops)
    by (apply (micro_batch_update_frame _ _ _ r1); subst r2; auto).
  assert (Htr2 : training r2 = training r) by (now subst r2).
  assert (Hd2 : data_count r2 = data_count r + Z.of_nat (length batch))
    by (subst r2; project_run; now rewrite Hd1).
  assert (Ha2 : absolute_step r2 = absolute_step r + 1)
    by (subst r2; project_run; now rewrite Ha1).
  assert (He2 : epoch_var r2 = Some e) by (subst r2; project_run; congruence).
  assert (Hs2 : step_var r2 = Some i) by (now subst r2).
  assert (Ht2 : trace r2 = trace r ++ map Did ops) by (now subst r2).
  clear Hr2 Hupd Htr1 Hd1 Ha1 He1 Hs1 Ht1 r1.
  unfold bind at 1.
  destruct (log_training_exact l n r2 Hn)
    as (r3 & Hrun & Hf3 & Htr3 & Ht3).
  rewrite Hrun. clear Hrun.
  rewrite Ha2, Hd2, Ht2 in Ht3.
  destruct Hf3 as (Hacc3 & Hm3 & Hg3 & Ho3 & Hl3 & Hd3 & Ha3 & He3 & Hs3).
  rewrite <- Hl3 in Ht3.
  assert (Hupd3 : micro_batch_update (i =? last) batch r r3 ops)
    by (now apply (micro_batch_update_frame _ _ _ r2)).
  rewrite Htr2 in Htr3. rewrite Hd2 in Hd3. rewrite Ha2 in Ha3.
  rewrite He2 in He3. rewrite Hs2 in Hs3.
  clear Hupd2 Htr2 Hd2 Ha2 He2 Hs2 Ht2 Hacc3 Hm3 Hg3 Ho3 Hl3 r2.
  unfold bind at 1. cbn [get]. unfold bind at 1. rewrite Ha3.
  destruct (Z.eqb_spec ((absolute_step r + 1) mod 200) 0) as [H200|H200].
  - (* an evaluation is due *)
    destruct (periodic_evaluation_outcome eval_dl r3)
      as (res4 & r4 & Hrun & Hf4 & Hres).
    rewrite Hrun. clear Hrun.
    destruct Hf4 as (Hacc4 & Hm4 & Hg4 & Ho4 & Hl4 & Hd4 & Ha4 & He4 & Hs4).
    assert (Hupd4 : micro_batch_update (i =? last) batch r r4 ops)
      by (now apply (micro_batch_update_frame _ _ _ r3)).
    rewrite Hd3 in Hd4. rewrite Ha3 in Ha4. rewrite He3 in He4.
    rewrite Hs3 in Hs4.
    destruct res4 as [[]|x].
    + destruct Hres as (Hvalid & Htr4 & Ht4).
      rewrite Ht3, Ha3, <- Hm4, <- Hd4, <- Hl4 in Ht4.
      clear Hupd3 Htr3 Hd3 Ha3 He3 Hs3 Ht3 Hacc4 Hg4 Ho4 Hl4.
      unfold bind at 1. cbn [get]. rewrite Ha4.
      destruct (Z.eqb_spec ((absolute_step r + 1) mod 20000) 0) as [Hck|Hck].
      * destruct (save_checkpoint_exact model_name e i r4 He4 Hs4)
          as (r5 & Hrun & Hf5 & Htr5 & Ht5).
        rewrite Hrun. clear Hrun.
        destruct Hf5 as (Hacc5 & Hm5 & Hg5 & Ho5 & Hl5 & Hd5 & Ha5 & He5 & Hs5).
        eexists (Ok tt), r5, ops. split; [reflexivity|].
        split; [now apply (micro_batch_update_frame _ _ _ r4)|].
        split; [congruence|]. split; [congruence|]. split; [congruence|].
        split; [congruence|].
        split; [intros _; exact Hvalid|]. split; [congruence|].
        eexists. rewrite Ht5, Ht4, Ha4, Hm5, Ho5, Hl5, Hd5.
        unfold complete_turn.
        rewrite (proj2 (Z.eqb_eq _ _) H200), (proj2 (Z.eqb_eq _ _) Hck).
        rewrite <- !app_assoc. reflexivity.
      * eexists (Ok tt), r4, ops. split; [reflexivity|].
        split; [exact Hupd4|].
        split; [exact Ha4|]. split; [exact Hd4|]. split; [exact He4|].
        split; [exact Hs4|].
        split; [intros _; exact Hvalid|]. split; [exact Htr4|].
        eexists. rewrite Ht4. unfold complete_turn.
        rewrite (proj2 (Z.eqb_eq _ _) H200), (proj2 (Z.eqb_neq _ _) Hck).
        rewrite <- !app_assoc, app_nil_r. reflexivity.
    + destruct Hres as (-> & Hvalid & Htr4 & Ht4).
      eexists (Raise _), r4, ops. split; [reflexivity|].
      split; [exact Hupd4|].
      split; [exact Ha4|]. split; [exact Hd4|]. split; [exact He4|].
      split; [exact Hs4|].
      split; [reflexivity|]. split; [exact H200|]. split; [exact Hvalid|].
      split; [exact Htr4|].
      rewrite Ht4, Ht3, <- Hd4, <- Hl4, <- app_assoc. reflexivity.
  - (* no evaluation *)
    cbn [ret]. unfold bind at 1. cbn [get]. rewrite Ha3.
    destruct (Z.eqb_spec ((absolute_step r + 1) mod 20000) 0) as [Hck|Hck].
    + exfalso. apply H200.
      apply Z.mod_divide in Hck; [|lia]. destruct Hck as [q Hq].
      rewrite Hq. replace (q * 20000) with (q * 100 * 200) by lia.
      apply Z.mod_mul. lia.
    + eexists (Ok tt), r3, ops. split; [reflexivity|].
      split; [exact Hupd3|].
      split; [exact Ha3|]. split; [exact Hd3|]. split; [exact He3|].
      split; [exact Hs3|].
      split; [intros H0; now contradiction H200|]. split; [exact Htr3|].
      exists (inf B). rewrite Ht3. unfold complete_turn.
      rewrite (proj2 (Z.eqb_neq _ _) H200), (proj2 (Z.eqb_neq _ _) Hck).
      rewrite !app_nil_r, <- Hd3, <- app_assoc. reflexivity.
Qed.

End WithBackend.

End ExactTurns.

(** ** Whole runs, turn by turn *)

Module WholeRuns.

Import torch accelerate mt_sweep StepFacts ExactTurns.

(** A [for] whose turns keep [J] while they complete: the loop completes with
    [J] after its last turn, or it is left by the exception of some turn, in
    the store of that turn. *)
Lemma for_each_outcome {S X} (body : X -> M S unit) (Q : exn -> S -> Prop)
    (xs : list X) :
  forall (J : nat -> S -> Prop),
    (forall k x s, xs !! k = Some x -> J k s ->
       exists res s',
         body x s = (res, s')
         /\ match res with Ok _ => J (Datatypes.S k) s' | Raise e => Q e s' end) ->
    forall s, J O s ->
      exists res s',
        for_each xs body s = (res, s')
        /\ match res with Ok _ => J (length xs) s' | Raise e => Q e s' end.
Proof.
  induction xs as [|x xs IH]; intros J Hbody s Hs.
  - exists (Ok tt), s. split; [reflexivity | exact Hs].
  - destruct (Hbody O x s eq_refl Hs) as (res & s1 & Hrun & Hs1).
    cbn [for_each]. unfold bind. rewrite Hrun.
    destruct res as [[]|e].
    + destruct (IH (fun k => J (Datatypes.S k))) with (s := s1)
        as (res2 & s2 & Hrest & Hs2).
      * intros k y t Hk Ht. apply (Hbody (Datatypes.S k) y t Hk Ht).
      * exact Hs1.
      * exists res2, s2. split; [exact Hrest | exact Hs2].
    + exists (Raise e), s1. split; [reflexivity | exact Hs1].
Qed.

Lemma range_lookup (n : Z) (k : nat) (x : Z) :
  range n !! k = Some x -> x = Z.of_nat k /\ Z.of_nat k < n.
Proof.
  unfold range. rewrite list_lookup_fmap.
  destruct (seq 0 (Z.to_nat n) !! k) as [j|] eqn:Hj; [|discriminate].
  apply lookup_seq in Hj as [-> Hk]. intros [= <-]. split; [reflexivity | lia].
Qed.

Lemma do_sync_at (a : Accelerator) (g L i : Z) :
  gradient_accumulation_steps a = g -> step a = i -> 0 <= i < L ->
  sync_gradients (do_sync (i =? L - 1) a) = sync_at g L i
  /\ gradient_accumulation_steps (do_sync (i =? L - 1) a) = g
  /\ step (do_sync (i =? L - 1) a) = (i + 1) mod L.
Proof.
  intros Hg Hi Hrange. unfold do_sync, sync_at.
  destruct (Z.eqb_spec i (L - 1)) as [E|E];
    cbn [sync_gradients gradient_accumulation_steps step orb].
  - split; [reflexivity|]. split; [exact Hg|].
    rewrite E. replace (L - 1 + 1) with L by lia.
    symmetry. apply Z_mod_same_full.
  - rewrite Hg, Hi. split; [reflexivity|]. split; [reflexivity|].
    symmetry. apply Z.mod_small. lia.
Qed.

Section WithBackend.

Context {B : Backend}.

(** A turn taken between two turns of a run: micro-batch [k] of pass [e]. *)
Lemma train_batch_after (model_name : string) (eval_dl : DataLoader B)
    (sch : scheduler) (n g L e k : Z) (batch : list (example B)) (r : run) :
  n <> 0 -> 0 < g -> 0 <= e -> 0 <= k < L ->
  after_turns model_name eval_dl sch n g L (e * L + k) r ->
  epoch_var r = Some e ->
  exists res r',
    train_batch "100M" model_name "reg_loss" eval_dl n (L - 1) (k, batch) r
      = (res, r')
    /\ match res with
       | Ok _ =>
           after_turns model_name eval_dl sch n g L (e * L + (k + 1)) r'
           /\ epoch_var r' = Some e
           /\ step_var r' = Some k
           /\ data_count r' = data_count r + Z.of_nat (length batch)
       | Raise x =>
           x = RuntimeError "stack expects a non-empty TensorList"
           /\ stopped_at_evaluation model_name eval_dl sch n g L r'
           /\ e * L + k = 199
       end.
Proof.
  intros Hn Hg He Hk (Hturns & Ha & Htr & Hgs & Hstep & Htaken & Hgrad & Hvalid)
    Hepoch.
  destruct (div_mod_at e L k Hk) as [Hdiv Hmod].
  rewrite Hmod in Hstep. rewrite Hdiv, Hmod in Htaken.
  destruct (train_batch_turn model_name eval_dl n (L - 1) e k batch r Hn Hepoch)
    as (res & r' & ops & Hrun & Hupd & Ha' & Hd' & He' & Hs' & Hres).
  destruct (do_sync_at (acc r) g L k Hgs Hstep Hk) as (Hsync & Hg' & Hstep').
  destruct Hupd as [Hacc Hupd]. rewrite Hsync in Hupd.
  assert (Hops : ops = operations_at g L k
                 /\ lr_scheduler r'
                    = at_count sch (e * syncs g L L + syncs g L (k + 1))
                 /\ (sync_at g L k = true -> grad r' = zero_grads B)).
  { rewrite (syncs_succ g L k Hg Hk), Z.add_assoc.
    unfold operations_at. destruct (sync_at g L k).
    - destruct Hupd as (-> & Hl & Hgr & _). rewrite Hl, Htaken.
      split; [reflexivity|]. split; [reflexivity | intros _; exact Hgr].
    - destruct Hupd as (-> & Hl & _). rewrite Hl, Htaken, Z.add_0_r.
      split; [reflexivity|]. split; [reflexivity | discriminate]. }
  destruct Hops as (-> & Htaken' & Hgrad'). clear Hupd.
  assert (Hby : updates_by g L (e * L + k + 1)
                = e * syncs g L L + syncs g L (k + 1)).
  { unfold updates_by. replace (e * L + k + 1 - 1) with (e * L + k) by lia.
    now rewrite Hdiv, Hmod. }
  assert (Hs0 : 0 <= e * L + k) by nia.
  exists res, r'. split; [exact Hrun|].
  destruct res as [[]|x].
  - destruct Hres as (Hev & Htr' & vl & Ht').
    split; [|split; [exact He' | split; [exact Hs' | exact Hd']]].
    unfold after_turns.
    split; [|split; [|split; [|split; [|split; [|split; [|split]]]]]].
    + rewrite Ht', Ha.
      replace (e * L + (k + 1)) with (e * L + k + 1) by lia.
      replace (operations_at g L k)
        with (operations_at g L ((e * L + k) mod L)) by (now rewrite Hmod).
      apply turns_more; cbn [ck_epoch ck_steps ck_scheduler].
      * exact Hturns.
      * now rewrite Hdiv.
      * now rewrite Hmod.
      * now rewrite Hby, Htaken'.
      * now rewrite Hby, Htaken'.
    + lia.
    + rewrite Htr', Htr. destruct ((absolute_step r + 1) mod 200 =? 0); reflexivity.
    + rewrite Hacc. exact Hg'.
    + rewrite Hacc, Hstep'.
      rewrite (Z.add_comm (e * L)). now rewrite Z_mod_plus_full.
    + replace (e * L + (k + 1)) with (e * L + k + 1) by lia.
      rewrite (syncs_at_next g L e k Hg Hk), Htaken'.
      now rewrite <- Z.add_assoc, <- (syncs_succ g L k Hg Hk).
    + intros Hend. apply Hgrad'. unfold sync_at.
      rewrite (Z.add_comm (e * L)), Z_mod_plus_full in Hend.
      destruct (Z.eqb_spec k (L - 1)) as [_|Hne]; [reflexivity|].
      rewrite Z.mod_small in Hend by lia. lia.
    + intros Hb. specialize (Hvalid Hb).
      destruct (Z.eq_dec (e * L + k + 1) 200) as [E|E]; [|lia].
      exfalso. apply Hev; [|exact Hb]. rewrite Ha, E. reflexivity.
  - destruct Hres as (-> & H200 & Hb & Htr' & Ht'). split; [reflexivity|].
    specialize (Hvalid Hb).
    assert (Hs : e * L + k = 199).
    { rewrite Ha in H200.
      destruct (Z.eq_dec (e * L + k + 1) 200) as [E|E]; [lia|].
      rewrite Z.mod_small in H200 by lia. lia. }
    rewrite Hs in Hmod, Hturns. rewrite Ha, Hs in Ha', Ht'.
    change (199 + 1) with 200 in Ha', Ht'.
    split; [|exact Hs]. unfold stopped_at_evaluation.
    split; [exact Hb|]. split; [exact Ha'|]. split; [exact Htr'|].
    eexists (trace r), _, _, _. split; [exact Hturns|].
    rewrite Hmod. exact Ht'.
Qed.

(** A pass over the training loader, lines 189-260, between two passes. *)
Lemma train_epoch_outcome (model_name : string)
    (eval_dl train_dl : DataLoader B) (sch : scheduler) (n g L e : Z)
    (r : run) :
  n <> 0 -> 0 < g -> 0 <= e -> 0 < L ->
  Z.of_nat (length (batches train_dl e)) = L ->
  after_turns model_name eval_dl sch n g L (e * L) r ->
  exists res r',
    train_epoch "100M" model_name "reg_loss" eval_dl train_dl n e r = (res, r')
    /\ match res with
       | Ok _ =>
           after_turns model_name eval_dl sch n g L ((e + 1) * L) r'
           /\ epoch_var r' = Some e
           /\ step_var r' = Some (L - 1)
           /\ data_count r'
              = data_count r
                + Z.of_nat (length (concat (batches train_dl e)))
       | Raise x =>
           x = RuntimeError "stack expects a non-empty TensorList"
           /\ stopped_at_evaluation model_name eval_dl sch n g L r'
           /\ 200 <= (e + 1) * L
       end.
Proof.
  intros Hn Hg He HL Hlen Hr. unfold train_epoch.
  unfold bind at 1. cbn [set_epoch modify].
  unfold bind at 1. cbn [set_training modify].
  set (todo := batches train_dl e) in *.
  set (r1 := with_training true (with_epoch e r)).
  rewrite Hlen.
  destruct (for_each_outcome
              (train_batch "100M" model_name "reg_loss" eval_dl n (L - 1))
              (fun x s => x = RuntimeError "stack expects a non-empty TensorList"
                          /\ stopped_at_evaluation model_name eval_dl sch n
                               g L s
                          /\ 200 <= (e + 1) * L)
              (enumerate todo)
              (fun k s =>
                 after_turns model_name eval_dl sch n g L
                   (e * L + Z.of_nat k) s
                 /\ epoch_var s = Some e
                 /\ (0 < Z.of_nat k -> step_var s = Some (Z.of_nat k - 1))
                 /\ data_count s
                    = data_count r
                      + Z.of_nat (length (concat (take k todo)))))
    with (s := r1) as (res & r' & Hrun & Hres).
  - intros k [i batch] s Hlook (Hs & Hes & _ & Hds).
    apply enumerate_lookup in Hlook as [-> Hbatch].
    assert (Hk : 0 <= Z.of_nat k < L).
    { apply lookup_lt_Some in Hbatch. lia. }
    destruct (train_batch_after model_name eval_dl sch n g L e (Z.of_nat k)
                batch s Hn Hg He Hk Hs Hes) as (res & s' & Hrun & Hres).
    exists res, s'. split; [exact Hrun|].
    destruct res as [[]|x];
      [|destruct Hres as (Hx & Hstop & Hat);
        split; [exact Hx | split; [exact Hstop | lia]]].
    destruct Hres as (Hs' & Hes' & Hss' & Hds').
    rewrite Nat2Z.inj_succ. unfold Z.succ.
    split; [exact Hs'|]. split; [exact Hes'|].
    split; [intros _; rewrite Hss'; f_equal; lia|].
    rewrite Hds', Hds, (take_S_r _ _ _ Hbatch), concat_app, length_app.
    cbn [concat]. rewrite app_nil_r. lia.
  - subst r1. split; [|split; [reflexivity | split; [lia|]]].
    + change (Z.of_nat 0) with 0. rewrite Z.add_0_r.
      destruct Hr as (H1 & H2 & H3 & H4 & H5 & H6 & H7 & H8).
      unfold after_turns. project_run.
      split; [exact H1|]. split; [exact H2|]. split; [reflexivity|].
      split; [exact H4|]. split; [exact H5|]. split; [exact H6|].
      split; [exact H7 | exact H8].
    + project_run. rewrite take_0. cbn [concat length]. lia.
  - exists res, r'. split; [exact Hrun|].
    destruct res as [[]|x]; [|exact Hres].
    destruct Hres as (Hs' & Hes' & Hss' & Hds').
    assert (Hall : length (enumerate todo) = length todo).
    { unfold enumerate.
      now rewrite length_combine, length_map, length_seq, Nat.min_id. }
    rewrite Hall, Hlen in Hs', Hss'. rewrite Hall in Hds'.
    split; [now replace ((e + 1) * L) with (e * L + L) by lia|].
    split; [exact Hes'|]. split; [apply Hss'; lia|].
    now rewrite firstn_all in Hds'.
Qed.

(** Lines 183-286 from a store that is [fresh], for passes of [L]
    micro-batches and [D] sequences each: they complete, or stop at step 200
    in the evaluation of a loader without batches. *)
Lemma main_train_outcome (model_name : string) (su : @setup B)
    (sch : scheduler) (r0 : run) (E L D : Z) :
  fresh sch r0 ->
  train_config su !! "num_epochs" = Some (PyInt E) -> 0 < E -> 0 < L ->
  (forall k, Z.of_nat (length (batches (train_dataloader su) k)) = L) ->
  (forall k, Z.of_nat (length (concat (batches (train_dataloader su) k))) = D) ->
  ceil_div (Z.of_nat (length (dataset (train_dataloader su))))
           (batch_size_local su) <> 0 ->
  exists res r',
    main_train model_name su r0 = (res, r')
    /\ match res with
       | Ok _ =>
           finished model_name (eval_dataloader su) sch
             (ceil_div (Z.of_nat (length (dataset (train_dataloader su))))
                (batch_size_local su)) 2 L E D r'
       | Raise x =>
           x = RuntimeError "stack expects a non-empty TensorList"
           /\ stopped_at_evaluation model_name (eval_dataloader su) sch
                (ceil_div (Z.of_nat (length (dataset (train_dataloader su))))
                   (batch_size_local su)) 2 L r'
           /\ 200 <= E * L
       end.
Proof.
  intros (Hf1 & Hf2 & Hf3 & Hf4 & Hf5) Hepochs HE HL Hlen HD Hn.
  set (n := ceil_div _ _) in *.
  unfold main_train. fold n.
  unfold bind at 1. cbn [set_counters modify].
  unfold bind at 1. unfold epochs_of, getitem. rewrite Hepochs.
  unfold bind at 1. cbn [ret]. unfold bind at 1.
  destruct (for_each_outcome
              (train_epoch "100M" model_name "reg_loss" (eval_dataloader su)
                 (train_dataloader su) n)
              (fun x s => x = RuntimeError "stack expects a non-empty TensorList"
                          /\ stopped_at_evaluation model_name
                               (eval_dataloader su) sch n 2 L s
                          /\ 200 <= E * L)
              (range E)
              (fun k s =>
                 after_turns model_name (eval_dataloader su) sch n 2 L
                   (Z.of_nat k * L) s
                 /\ (0 < Z.of_nat k ->
                     epoch_var s = Some (Z.of_nat k - 1)
                     /\ step_var s = Some (L - 1))
                 /\ data_count s = Z.of_nat k * D))
    with (s := with_counters 0 0 r0)
    as (res & r2 & Hrun & Hres).
  - intros k x s Hlook (Hs & _ & Hd).
    apply range_lookup in Hlook as [-> Hk].
    destruct (train_epoch_outcome model_name (eval_dataloader su)
                (train_dataloader su) sch n 2 L (Z.of_nat k) s Hn ltac:(lia)
                (Zle_0_nat k) HL (Hlen _) Hs) as (res & s' & Hrun & Hres).
    exists res, s'. split; [exact Hrun|].
    destruct res as [[]|x];
      [|destruct Hres as (Hx & Hstop & Hat);
        split; [exact Hx | split; [exact Hstop | nia]]].
    destruct Hres as (Hs' & Hes' & Hss' & Hds').
    rewrite Nat2Z.inj_succ. unfold Z.succ.
    split; [exact Hs'|]. split.
    + intros _. split; [rewrite Hes'; f_equal; lia | exact Hss'].
    + rewrite Hds', Hd, HD. lia.
  - change (Z.of_nat 0) with 0. rewrite !Z.mul_0_l.
    split; [|split; [lia | reflexivity]].
    unfold after_turns. project_run.
    rewrite Z.div_0_l, Z.mod_0_l by lia.
    rewrite Hf1, Hf2, Hf3, Hf4, Hf5.
    split; [constructor|]. split; [reflexivity|]. split; [reflexivity|].
    split; [reflexivity|]. split; [reflexivity|]. split.
    + unfold syncs. destruct (Z.ltb_spec 0 L); [|lia]. reflexivity.
    + split; [reflexivity | lia].
  - rewrite Hrun. destruct res as [[]|x].
    + destruct Hres as ((H1 & H2 & H3 & H4 & H5 & H6 & H7 & H8) & Hvars & Hd).
      unfold range in *. rewrite length_map, length_seq, Z2Nat.id in * by lia.
      destruct Hvars as [Hev Hsv]; [lia|].
      rewrite Z.div_mul, Z.mod_mul in H6 by lia.
      rewrite Z.mod_mul in H7 by lia.
      unfold bind at 1.
      destruct (save_checkpoint_exact model_name (E - 1) (L - 1) r2 Hev Hsv)
        as (r3 & Hsave & Hf & Htr & Ht).
      rewrite Hsave. unfold emit, modify.
      destruct Hf as (Hacc3 & Hm3 & Hg3 & Ho3 & Hl3 & Hd3 & Ha3 & _ & _).
      exists (Ok tt), (emitting [EndTraining] r3). split; [reflexivity|].
      unfold finished. project_run.
      split; [|split; [congruence | split; [congruence | split; [congruence|]]]].
      * exists (trace r2). split; [exact H1|].
        rewrite Ht, H2, Hm3, Ho3, Hl3, <- app_assoc. reflexivity.
      * split; [|split; [rewrite Hg3; now apply H7 | exact H8]].
        rewrite Hl3, H6.
        assert (H0 : syncs 2 L 0 = 0).
        { unfold syncs. destruct (Z.ltb_spec 0 L); [|lia]. reflexivity. }
        rewrite H0. f_equal. lia.
    + exists (Raise x), r2. split; [reflexivity | exact Hres].
Qed.

End WithBackend.

End WholeRuns.

(** ** What the turns of a complete run leave in the trace *)

Module TurnTraces.

Import torch accelerate mt_sweep StepFacts ExactTurns.

Section WithBackend.

Context {B : Backend}.

Lemma flat_map_complete_turn {X} (f : @event B -> list X)
    (model_name : string) (ops : list operation) (l : scalar B)
    (n s count : Z) (lr vl : scalar B) (w : weights B)
    (st : accelerator_states) :
  flat_map f (complete_turn model_name ops l n s count lr vl w st)
  = flat_map f (map Did ops)
    ++ flat_map f (training_logs l n s count lr)
    ++ (if s mod 200 =? 0 then flat_map f (evaluation_logs vl s) else [])
    ++ (if s mod 20000 =? 0
        then flat_map f (checkpoint_files model_name s w st) else []).
Proof.
  unfold complete_turn. rewrite !flat_map_app.
  destruct (Z.eqb (s mod 200) 0), (Z.eqb (s mod 20000) 0); reflexivity.
Qed.

(** A projection that sees no operation, turn by turn. *)
Ltac turn_projection :=
  rewrite flat_map_complete_turn;
  rewrite TraceFacts.flat_map_operations by reflexivity;
  cbn [app]; repeat match goal with
                    | |- context [Z.eqb ?a 0] => destruct (Z.eqb a 0)
                    end; reflexivity.

Lemma turn_epoch_entries (model_name : string) (ops : list operation)
    (l : scalar B) (n s count : Z) (lr vl : scalar B) (w : weights B)
    (st : accelerator_states) :
  entries_under "train/epoch"
    (complete_turn model_name ops l n s count lr vl w st)
  = [(LogRatio (s + 1) n, s)].
Proof. unfold entries_under. turn_projection. Qed.

Lemma turn_rate_entries (model_name : string) (ops : list operation)
    (l : scalar B) (n s count : Z) (lr vl : scalar B) (w : weights B)
    (st : accelerator_states) :
  entries_under "train/learning_rate"
    (complete_turn model_name ops l n s count lr vl w st)
  = [(LogFloat lr, s)].
Proof. unfold entries_under. turn_projection. Qed.

Lemma turn_evaluations (model_name : string) (ops : list operation)
    (l : scalar B) (n s count : Z) (lr vl : scalar B) (w : weights B)
    (st : accelerator_states) :
  log_steps_of "validation/valid_loss"
    (complete_turn model_name ops l n s count lr vl w st)
  = (if s mod 200 =? 0 then [s] else [])
  /\ log_steps_of "validation/valid_accuracy"
       (complete_turn model_name ops l n s count lr vl w st)
     = (if s mod 200 =? 0 then [s] else [])
  /\ map (fun _ => s) (printed (complete_turn model_name ops l n s count lr vl w st))
     = (if s mod 200 =? 0 then [s] else []).
Proof.
  unfold log_steps_of, printed. repeat split; turn_projection.
Qed.

Lemma turn_checkpoints (model_name : string) (ops : list operation)
    (l : scalar B) (n s count : Z) (lr vl : scalar B) (w : weights B)
    (st : accelerator_states) :
  written_dirs (complete_turn model_name ops l n s count lr vl w st)
  = (if s mod 20000 =? 0 then [checkpoint_at model_name s] else [])
  /\ saved_states (complete_turn model_name ops l n s count lr vl w st)
     = (if s mod 20000 =? 0 then [(checkpoint_at model_name s, st)] else []).
Proof.
  unfold written_dirs, saved_states. split; turn_projection.
Qed.

Lemma turn_updates (model_name : string) (g L i : Z)
    (l : scalar B) (n s count : Z) (lr vl : scalar B) (w : weights B)
    (st : accelerator_states) :
  Z.of_nat (length (updates (complete_turn model_name (operations_at g L i)
                               l n s count lr vl w st)))
  = (if sync_at g L i then 1 else 0).
Proof.
  unfold updates. rewrite flat_map_complete_turn. unfold operations_at.
  destruct (sync_at g L i), (Z.eqb (s mod 200) 0), (Z.eqb (s mod 20000) 0);
    reflexivity.
Qed.

Lemma complete_turns_step (model_name : string) (sch : scheduler)
    (n g L s : Z) (tr : list (@event B)) :
  complete_turns model_name sch n g L s tr -> 0 <= s.
Proof. induction 1; lia. Qed.

(** The projections of [s] complete turns. *)
Lemma complete_turns_trace (model_name : string) (sch : scheduler)
    (n g L s : Z) (tr : list (@event B)) :
  0 < g -> 0 < L ->
  complete_turns model_name sch n g L s tr ->
  entries_under "train/epoch" tr
    = map (fun x => (LogRatio (x + 1) n, x)) (steps_to s)
  /\ log_steps_of "validation/valid_loss" tr = multiples 200 s
  /\ log_steps_of "validation/valid_accuracy" tr = multiples 200 s
  /\ Z.of_nat (length (printed tr)) = s / 200
  /\ written_dirs tr = map (checkpoint_at model_name) (multiples 20000 s)
  /\ map fst (saved_states tr) = written_dirs tr
  /\ Forall (fun p => dir_step (fst p) = ck_epoch (snd p) * L + ck_steps (snd p) + 1
                      /\ 0 <= ck_steps (snd p) < L
                      /\ 0 <= ck_epoch (snd p)
                      /\ ck_scheduler (snd p)
                         = ck_epoch (snd p) * syncs g L L
                           + syncs g L (ck_steps (snd p) + 1))
       (saved_states tr)
  /\ Z.of_nat (length (updates tr)) = s / L * syncs g L L + syncs g L (s mod L)
  /\ entries_under "train/learning_rate" tr
     = map (fun x => (LogFloat (get_last_lr (at_count sch (updates_by g L x))), x))
         (steps_to s).
Proof.
  intros Hg HL.
  induction 1 as [|s tr l count lr vl w st Hturns IH Hce Hcs Hsch Hlr].
  - rewrite Z.div_0_l, Z.mod_0_l by lia.
    split; [reflexivity|]. split; [reflexivity|]. split; [reflexivity|].
    split; [reflexivity|]. split; [reflexivity|]. split; [reflexivity|].
    split; [constructor|]. split; [|reflexivity].
    unfold syncs. destruct (Z.ltb_spec 0 L); [|lia]. reflexivity.
  - pose proof (complete_turns_step _ _ _ _ _ _ _ Hturns) as Hs.
    destruct IH as (IH1 & IH2 & IH3 & IH4 & IH5 & IH6 & IH7 & IH8 & IH9).
    unfold updates_by in Hsch. rewrite Z.add_simpl_r in Hsch.
    destruct (turn_evaluations model_name (operations_at g L (s mod L)) l n
                (s + 1) count lr vl w st) as (He1 & He2 & He3).
    destruct (turn_checkpoints model_name (operations_at g L (s mod L)) l n
                (s + 1) count lr vl w st) as (Hc1 & Hc2).
    pose proof (Z.mod_pos_bound s L HL) as Hmod.
    pose proof (Z.div_mod s L ltac:(lia)) as Hdm.
    assert (Hq : 0 <= s / L) by (apply Z.div_pos; lia).
    split; [|split; [|split; [|split; [|split; [|split; [|split; [|split]]]]]]].
    + pose proof (turn_epoch_entries model_name
                    (operations_at g L (s mod L)) l n (s + 1) count lr vl w st)
        as Hep.
      unfold entries_under in *. rewrite flat_map_app, IH1, Hep.
      rewrite steps_to_succ, map_app by exact Hs. reflexivity.
    + unfold log_steps_of in *. rewrite flat_map_app, IH2, He1.
      now rewrite multiples_succ by lia.
    + unfold log_steps_of in *. rewrite flat_map_app, IH3, He2.
      now rewrite multiples_succ by lia.
    + unfold printed in *. rewrite flat_map_app, length_app, Nat2Z.inj_add, IH4.
      rewrite (div_succ s 200) by lia.
      apply (f_equal (@length Z)) in He3. rewrite length_map in He3.
      rewrite He3. now destruct (Z.eqb ((s + 1) mod 200) 0).
    + unfold written_dirs in *. rewrite flat_map_app, IH5, Hc1.
      rewrite multiples_succ, map_app by lia.
      now destruct (Z.eqb ((s + 1) mod 20000) 0).
    + unfold saved_states, written_dirs in *.
      rewrite !flat_map_app, map_app, IH6, Hc1, Hc2.
      now destruct (Z.eqb ((s + 1) mod 20000) 0).
    + unfold saved_states in *. rewrite flat_map_app. apply Forall_app.
      split; [exact IH7|]. rewrite Hc2.
      destruct (Z.eqb ((s + 1) mod 20000) 0); [|constructor].
      constructor; [|constructor]. cbn [fst snd dir_step checkpoint_at].
      rewrite Hce, Hcs. repeat split; try lia.
    + pose proof (turn_updates model_name g L (s mod L) l n (s + 1) count lr
                    vl w st) as Hup.
      unfold updates in *.
      rewrite flat_map_app, length_app, Nat2Z.inj_add, IH8, Hup.
      pose proof (syncs_at_next g L (s / L) (s mod L) Hg Hmod) as Hnext.
      replace (s / L * L + s mod L + 1) with (s + 1) in Hnext by lia.
      rewrite Hnext. lia.
    + pose proof (turn_rate_entries model_name
                    (operations_at g L (s mod L)) l n (s + 1) count lr vl w st)
        as Hrate.
      unfold entries_under in *. rewrite flat_map_app, IH9, Hrate.
      rewrite steps_to_succ, map_app by exact Hs. cbn [map].
      now rewrite Hlr.
Qed.

End WithBackend.

End TurnTraces.

(** ** Runs from the set-up to the end *)

Module RunOutcomes.

Import torch accelerate mt_sweep StepFacts ExactTurns WholeRuns TurnTraces.

Section WithBackend.

Context {B : Backend}.

(** Lines 183-286, entered with a fresh store for even passes, complete. *)
Lemma complete_run (su : @setup B) (model_name : string) (sch : scheduler)
    (r0 : run) (E L D : Z) :
  fresh sch r0 -> even_passes su E L D ->
  exists r',
    main_train model_name su r0 = (Ok tt, r')
    /\ finished model_name (eval_dataloader su) sch
         (ceil_div (Z.of_nat (length (dataset (train_dataloader su))))
            (batch_size_local su)) 2 L E D r'.
Proof.
  intros Hfresh (Hepochs & HE & HL & Hlen & HD & Hn & Hvalid).
  destruct (main_train_outcome model_name su sch r0 E L D Hfresh
              Hepochs HE HL Hlen HD Hn)
    as (res & r' & Hrun & Hres).
  destruct res as [[]|x].
  - exists r'. split; [exact Hrun | exact Hres].
  - destruct Hres as (_ & (Hb & _) & Hbound).
    destruct Hvalid as [Hv|Hv]; [contradiction | lia].
Qed.

(** The final checkpoint and the end of training add nothing to what is
    logged, printed or applied. *)
Lemma final_events_silent {X} (f : @event B -> list X) (model_name : string)
    (s : Z) (w : weights B) (st : accelerator_states) (tr : list event) :
  (forall d, f (Mkdir d) = []) -> f WaitForEveryone = [] ->
  (forall d w, f (SavePretrained d w) = []) ->
  (forall d st, f (SaveStates d st) = []) -> f EndTraining = [] ->
  flat_map f (tr ++ checkpoint_files model_name s w st ++ [EndTraining])
    = flat_map f tr.
Proof.
  intros H1 H2 H3 H4 H5. rewrite !flat_map_app. unfold checkpoint_files.
  cbn [flat_map]. rewrite H1, H2, H3, H4, H5. cbn [app]. apply app_nil_r.
Qed.

End WithBackend.

(** The small loop that the statements below are tried on: 2 sequences, so
    one micro-batch a pass, 17 passes, a validation set of one sequence. *)
Lemma toy_passes :
  even_passes (B := Toy.backend) (Toy.setup_for [7; 8] [9]) 17 1 2.
Proof.
  unfold even_passes.
  split; [reflexivity|]. split; [reflexivity|]. split; [reflexivity|].
  split; [intros k; reflexivity|]. split; [intros k; reflexivity|].
  split; [discriminate|]. left. discriminate.
Defined.

Lemma toy_fresh (train valid : list Z) :
  fresh (lr_scheduler (Toy.start train valid)) (Toy.start train valid).
Proof. unfold fresh. repeat split. Defined.

(** X5.  The loop of lines 183-286, entered with a fresh store (nothing
    logged, the model in training mode and without gradients, the
    module-level accelerator) for [E] passes of [L] micro-batches and [D]
    sequences each, with a validation loader that has a batch or fewer than
    200 steps to take: it returns; it has taken [E * L] steps and counted
    [E * D] sequences; the model is in training mode and the gradients are
    cleared; and its last events are the final checkpoint (the model's files,
    then the bundle of states with epoch [E - 1] and the index [L - 1] of the
    last micro-batch of a pass) followed by the end of training. *)
Theorem complete_run_ends_with_final_checkpoint {B : Backend} (su : setup)
    (model_name : string) (sch : scheduler) (r0 : @run B) (E L D : Z) :
  fresh sch r0 -> even_passes su E L D ->
  exists r' tr,
    main_train model_name su r0 = (Ok tt, r')
    /\ absolute_step r' = E * L
    /\ data_count r' = E * D
    /\ training r' = true
    /\ grad r' = zero_grads B
    /\ trace r'
       = tr ++ [Mkdir (checkpoint_at model_name (absolute_step r'));
                WaitForEveryone;
                SavePretrained (checkpoint_at model_name (absolute_step r'))
                  (model r');
                SaveStates (checkpoint_at model_name (absolute_step r'))
                  {| ck_epoch := E - 1;
                     ck_steps := L - 1;
                     ck_optimizer := optimizer r';
                     ck_scheduler := taken (lr_scheduler r') |};
                EndTraining].
Proof.
  intros Hfresh Hpasses.
  destruct (complete_run su model_name sch r0 E L D Hfresh Hpasses)
    as (r' & Hrun & (tr & _ & Ht) & Ha & Hd & Htr & _ & Hg & _).
  exists r', tr. split; [exact Hrun|]. split; [exact Ha|]. split; [exact Hd|].
  split; [exact Htr|]. split; [exact Hg|]. rewrite Ht, Ha. reflexivity.
Qed.

Lemma complete_run_ends_with_final_checkpoint_witness :
  exists r' tr,
    main_train "788" (Toy.setup_for [7; 8] [9]) (Toy.start [7; 8] [9])
      = (Ok tt, r')
    /\ absolute_step r' = 17 * 1
    /\ data_count r' = 17 * 2
    /\ training r' = true
    /\ grad r' = zero_grads Toy.backend
    /\ trace r'
       = tr ++ [Mkdir (checkpoint_at "788" (absolute_step r'));
                WaitForEveryone;
                SavePretrained (checkpoint_at "788" (absolute_step r'))
                  (model r');
                SaveStates (checkpoint_at "788" (absolute_step r'))
                  {| ck_epoch := 17 - 1;
                     ck_steps := 1 - 1;
                     ck_optimizer := optimizer r';
                     ck_scheduler := taken (lr_scheduler r') |};
                EndTraining].
Proof.
  exact (complete_run_ends_with_final_checkpoint (B := Toy.backend)
           (Toy.setup_for [7; 8] [9]) "788" _ _ 17 1 2
           (toy_fresh [7; 8] [9]) toy_passes).
Defined.

(** X9.  When the loop of lines 183-286, entered with a fresh store for [E]
    passes of [L] micro-batches, completes, the validation loss and the value
    under the accuracy key have been logged at the multiples of 200 up to the
    last step [E * L], each exactly once and in order, and [evaluate] has
    printed as many lines: the sweep's metric is reported once every 200
    steps, and the end of the loop adds no evaluation. *)
Theorem evaluations_at_every_200th_step {B : Backend} (su : setup)
    (model_name : string) (sch : scheduler) (r0 : @run B) (E L D : Z) :
  fresh sch r0 -> even_passes su E L D ->
  exists r',
    main_train model_name su r0 = (Ok tt, r')
    /\ log_steps_of sweep_metric (trace r') = multiples 200 (E * L)
    /\ log_steps_of "validation/valid_accuracy" (trace r')
       = multiples 200 (E * L)
    /\ Z.of_nat (length (printed (trace r'))) = E * L / 200.
Proof.
  intros Hfresh Hpasses.
  destruct (complete_run su model_name sch r0 E L D Hfresh Hpasses)
    as (r' & Hrun & (tr & Hturns & Ht) & _).
  destruct Hpasses as (_ & _ & HL & _ & _ & Hn & _).
  destruct (complete_turns_trace _ _ _ 2 _ _ _ ltac:(lia) HL Hturns)
    as (_ & H1 & H2 & H3 & _).
  exists r'. split; [exact Hrun|]. rewrite Ht.
  unfold log_steps_of, printed, sweep_metric in *.
  rewrite !final_events_silent by reflexivity.
  split; [exact H1|]. split; [exact H2 | exact H3].
Qed.

Lemma evaluations_at_every_200th_step_witness :
  exists r',
    main_train "788" (Toy.setup_for (repeat 1 384) [104])
      (Toy.start (repeat 1 384) [104]) = (Ok tt, r')
    /\ log_steps_of sweep_metric (trace r') = multiples 200 (17 * 12)
    /\ log_steps_of "validation/valid_accuracy" (trace r')
       = multiples 200 (17 * 12)
    /\ Z.of_nat (length (printed (trace r'))) = 17 * 12 / 200.
Proof.
  apply (evaluations_at_every_200th_step (B := Toy.backend)
           (Toy.setup_for (repeat 1 384) [104]) "788" _ _ 17 12 384
           (toy_fresh (repeat 1 384) [104])).
  unfold even_passes.
  split; [reflexivity|]. split; [reflexivity|]. split; [reflexivity|].
  split; [intros k; reflexivity|]. split; [intros k; reflexivity|].
  split; [discriminate|]. left. discriminate.
Defined.





(** X13.  A turn of the inner loop, lines 192-260, at any store where
    [epoch] is bound, for an epoch fraction that can be computed: whether the
    turn completes or its evaluation raises, it logs at the step [s] that it
    takes the counter to, under ["train/epoch"], the ratio
    [(s + 1) / n_steps_per_epoch], one step ahead of the step it is logged
    at; under ["train/data_count"] the count with this micro-batch's
    sequences added; and under ["train/learning_rate"] the rate of the
    scheduler as this turn leaves it, which has advanced exactly when the
    turn's micro-batch reached the accumulation threshold. *)
Theorem epoch_fraction_is_one_step_ahead {B : Backend} (model_name : string)
    (eval_dl : DataLoader B) (n last e i : Z) (batch : list (example B))
    (r : run) :
  n <> 0 -> epoch_var r = Some e ->
  let out := train_batch "100M" model_name "reg_loss" eval_dl n last
               (i, batch) r in
  let s := absolute_step r + 1 in
  absolute_step (snd out) = s
  /\ entries_under "train/epoch" (trace (snd out))
     = entries_under "train/epoch" (trace r) ++ [(LogRatio (s + 1) n, s)]
  /\ entries_under "train/data_count" (trace (snd out))
     = entries_under "train/data_count" (trace r)
       ++ [(LogInt (data_count r + Z.of_nat (length batch)), s)]
  /\ entries_under "train/learning_rate" (trace (snd out))
     = entries_under "train/learning_rate" (trace r)
       ++ [(LogFloat (get_last_lr (lr_scheduler (snd out))), s)]
  /\ lr_scheduler (snd out)
     = (if sync_gradients (do_sync (i =? last) (acc r))
        then stepped (lr_scheduler r) else lr_scheduler r).
Proof.
  intros Hn Hepoch out s. subst out s.
  destruct (train_batch_turn model_name eval_dl n last e i batch r Hn Hepoch)
    as (res & r' & ops & Hrun & Hupd & Ha & Hd & _ & _ & Hres).
  rewrite Hrun. cbn [snd].
  assert (Hsch : lr_scheduler r'
                 = (if sync_gradients (do_sync (i =? last) (acc r))
                    then stepped (lr_scheduler r) else lr_scheduler r)).
  { destruct Hupd as [_ Hupd].
    destruct (sync_gradients (do_sync (i =? last) (acc r)));
      now destruct Hupd as (_ & -> & _). }
  split; [exact Ha|].
  assert (Hlogs : forall (X : Type) (f : @event B -> list X),
             (forall op, f (Did op) = []) ->
             (forall vl t, flat_map f (evaluation_logs vl t) = []) ->
             (forall t w st,
                 flat_map f (checkpoint_files model_name t w st) = []) ->
             flat_map f (trace r')
             = flat_map f (trace r)
               ++ flat_map f
                    (training_logs (loss B (training r) (model r) batch) n
                       (absolute_step r + 1) (data_count r')
                       (get_last_lr (lr_scheduler r')))).
  { intros X f H1 H2 H3.
    destruct res as [[]|x].
    - destruct Hres as (_ & _ & vl & ->).
      rewrite flat_map_app, flat_map_complete_turn.
      rewrite TraceFacts.flat_map_operations by exact H1.
      rewrite H2, H3. cbn [app].
      now destruct (Z.eqb _ 0), (Z.eqb _ 0); rewrite ?app_nil_r.
    - destruct Hres as (_ & _ & _ & _ & ->).
      rewrite !flat_map_app.
      now rewrite TraceFacts.flat_map_operations by exact H1. }
  unfold entries_under.
  rewrite !Hlogs by (intros; reflexivity).
  rewrite Hd. split; [reflexivity|]. split; [reflexivity|].
  split; [reflexivity | exact Hsch].
Qed.

Lemma epoch_fraction_is_one_step_ahead_witness :
  let out := train_batch (B := Toy.backend) "100M" "788" "reg_loss"
               (eval_dataloader (Toy.setup_for [7; 8] [9])) 1 0 (0, [7; 8])
               (with_epoch 0 (Toy.start [7; 8] [9])) in
  absolute_step (snd out) = 1
  /\ entries_under "train/epoch" (trace (snd out)) = [(LogRatio 2 1, 1)]
  /\ entries_under "train/data_count" (trace (snd out)) = [(LogInt 2, 1)]
  /\ entries_under "train/learning_rate" (trace (snd out))
     = [(LogFloat (get_last_lr (lr_scheduler (snd out))), 1)]
  /\ lr_scheduler (snd out) = stepped (lr_scheduler (Toy.start [7; 8] [9])).
Proof.
  exact (epoch_fraction_is_one_step_ahead (B := Toy.backend) "788"
           (eval_dataloader (Toy.setup_for [7; 8] [9])) 1 0 0 0 [7; 8]
           (with_epoch 0 (Toy.start [7; 8] [9]))
           ltac:(discriminate) eq_refl).
Defined.

Section WithBackend.

Context {B : Backend}.

Lemma loop_no_evaluation (model_name : string) (n : Z) (tr : list (@event B)) :
  loop_events model_name n tr -> n < 200 ->
  logged_under "validation/valid_loss" tr = []
  /\ logged_under "validation/valid_accuracy" tr = []
  /\ printed tr = [].
Proof.
  induction 1 as [|n tr turn Hloop IH Hturn]; intros Hshort;
    [repeat split|].
  pose proof (TraceFacts.loop_events_step _ _ _ Hloop) as Hn.
  destruct IH as (IH1 & IH2 & IH3); [lia|].
  destruct Hturn as [ops logs ev ck Hlogs Hev Hck _].
  assert (Hnone : ev = []).
  { destruct Hev as [|l Hmul]; [reflexivity|].
    rewrite Z.mod_small in Hmul by lia. lia. }
  subst ev.
  unfold logged_under, printed in *.
  rewrite !flat_map_app, IH1, IH2, IH3.
  rewrite !TraceFacts.flat_map_operations by reflexivity.
  destruct Hlogs, Hck; repeat split.
Qed.

End WithBackend.

(** X8.  A run that ends before step 200, however it ends, has never
    evaluated: nothing is logged under the sweep's metric
    ["validation/valid_loss"] or under the accuracy key, and nothing is
    printed. *)
Theorem short_runs_never_evaluate {B : Backend} (model_name : string)
    (su : setup) (w0 : weights B) (o0 : opt_state B) :
  let r' := snd (main_train model_name su (prepared su w0 o0)) in
  absolute_step r' < 200 ->
  logged_under sweep_metric (trace r') = []
  /\ logged_under "validation/valid_accuracy" (trace r') = []
  /\ printed (trace r') = [].
Proof.
  intros r' Hshort.
  destruct (LoopFacts.main_train_events model_name su (prepared su w0 o0)
              eq_refl) as [Hrun _].
  fold r' in Hrun.
  destruct Hrun as [n tr ck fin Hloop Hck Hfin].
  destruct (loop_no_evaluation _ _ _ Hloop Hshort) as (H1 & H2 & H3).
  unfold logged_under, printed, sweep_metric in *.
  rewrite !flat_map_app, H1, H2, H3.
  destruct Hck, Hfin as [->| ->]; repeat split.
Qed.

Lemma short_runs_never_evaluate_witness :
  logged_under sweep_metric
    (trace (snd (main_train (B := Toy.backend) "788" (Toy.setup_for [7] [9])
                   (Toy.start [7] [9])))) = []
  /\ logged_under "validation/valid_accuracy"
       (trace (snd (main_train (B := Toy.backend) "788" (Toy.setup_for [7] [9])
                      (Toy.start [7] [9])))) = []
  /\ printed
       (trace (snd (main_train (B := Toy.backend) "788" (Toy.setup_for [7] [9])
                      (Toy.start [7] [9])))) = [].
Proof.
  apply (short_runs_never_evaluate (B := Toy.backend) "788"
           (Toy.setup_for [7] [9]) 0 0).
  vm_compute. reflexivity.
Defined.

End RunOutcomes.

(** ** The operations of a pass, whatever its outcome *)

Module Passes.

Import torch accelerate mt_sweep StepFacts ExactTurns WholeRuns.

(** A [for] whose turns establish [J] also when they raise: the loop ends
    after some number of turns, all of them when it completes. *)
Lemma for_each_progress {S X} (body : X -> M S unit) (xs : list X) :
  forall (J : nat -> S -> Prop),
    (forall k x s, xs !! k = Some x -> J k s ->
                   J (Datatypes.S k) (snd (body x s))) ->
    forall s, J O s ->
      exists k, (k <= length xs)%nat
                /\ J k (snd (for_each xs body s))
                /\ (fst (for_each xs body s) = Ok tt -> k = length xs).
Proof.
  induction xs as [|x xs IH]; intros J Hbody s Hs.
  - exists O. split; [reflexivity|]. split; [exact Hs | reflexivity].
  - pose proof (Hbody O x s eq_refl Hs) as Hs1.
    cbn [for_each]. unfold bind.
    destruct (body x s) as [[[]|e] s1]; cbn [snd] in Hs1.
    + destruct (IH (fun k => J (Datatypes.S k))) with (s := s1)
        as (k & Hk & HJ & Hall).
      * intros k y t Hk Ht. apply (Hbody (Datatypes.S k) y t Hk Ht).
      * exact Hs1.
      * exists (Datatypes.S k). cbn [length].
        split; [lia|]. split; [exact HJ|]. intros Hok. f_equal. now apply Hall.
    + exists 1%nat. cbn [length fst snd].
      split; [lia|]. split; [exact Hs1 | discriminate].
Qed.

Lemma range_succ (k : nat) :
  range (Z.of_nat (Datatypes.S k)) = range (Z.of_nat k) ++ [Z.of_nat k].
Proof.
  unfold range. rewrite !Nat2Z.id, seq_S, map_app. reflexivity.
Qed.

Section WithBackend.

Context {B : Backend}.

Lemma operations_did (ops : list operation) :
  operations (B := B) (map Did ops) = ops.
Proof.
  unfold operations.
  induction ops as [|op ops IH]; [reflexivity|].
  cbn [map flat_map app]. now rewrite IH.
Qed.

Lemma quiet_refl (r : @run B) : quiet r r.
Proof. unfold quiet. tauto. Qed.

Lemma quiet_trans (r r1 r2 : @run B) : quiet r r1 -> quiet r1 r2 -> quiet r r2.
Proof.
  unfold quiet. intros (?&?&?&?&?&?) (?&?&?&?&?&?).
  split; [congruence|]. split; [congruence|]. split; [congruence|].
  split; [congruence|]. split; congruence.
Qed.

Lemma bind_quiet {X Y} (m : M run X) (k : X -> M run Y) (r : @run B) :
  quiet r (snd (m r)) -> (forall a s, quiet s (snd (k a s))) ->
  quiet r (snd (bind m k r)).
Proof.
  intros Hm Hk. unfold bind. destruct (m r) as [[a|e] s1]; cbn [snd] in *.
  - eapply quiet_trans; [exact Hm | apply Hk].
  - exact Hm.
Qed.

(** Events that are no operation leave the operations as they are. *)
Ltac quiet_events :=
  unfold quiet; project_run; unfold operations;
  rewrite ?flat_map_app; cbn [flat_map app]; rewrite ?app_nil_r;
  split; [reflexivity|]; split; [reflexivity|]; split; [reflexivity|];
  split; [reflexivity|]; split; reflexivity.

Lemma count_batch_quiet (batch : list (example B)) (r : run) :
  quiet r (snd (count_batch batch r)).
Proof. unfold count_batch, bind, get, set_counters, modify. quiet_events. Qed.

Lemma log_training_quiet (l : scalar B) (n : Z) (r : run) :
  quiet r (snd (log_training l n r)).
Proof.
  unfold log_training, truediv, log, emit, bind, get, modify, ret, raise.
  destruct (n =? 0); quiet_events.
Qed.

Lemma periodic_evaluation_quiet (eval_dl : DataLoader B) (r : run) :
  quiet r (snd (periodic_evaluation eval_dl r)).
Proof.
  destruct (periodic_evaluation_outcome eval_dl r)
    as (res & r' & Hrun & Hf & Hres).
  rewrite Hrun. cbn [snd].
  destruct Hf as (Ha & Hm & Hg & Ho & Hl & _).
  unfold quiet. split; [exact Ha|]. split; [exact Hm|]. split; [exact Hg|].
  split; [exact Ho|]. split; [exact Hl|].
  destruct res as [[]|x].
  - destruct Hres as (_ & _ & ->). unfold operations, evaluation_logs.
    rewrite flat_map_app. cbn [flat_map app]. apply app_nil_r.
  - destruct Hres as (_ & _ & _ & ->). reflexivity.
Qed.

Lemma save_checkpoint_quiet (data model_name run_name : string) (r : @run B) :
  quiet r (snd (save_checkpoint data model_name run_name r)).
Proof.
  unfold save_checkpoint, read_var, emit, bind, get, modify, ret, raise.
  project_run.
  destruct (epoch_var r); [destruct (step_var r)|]; quiet_events.
Qed.

(** A turn of the inner loop, whatever its outcome: the micro-batch is taken
    (lines 200-207 always complete), the step counter advances, and what
    follows applies no operation. *)
Lemma train_batch_operations (model_name : string) (eval_dl : DataLoader B)
    (n last i : Z) (batch : list (example B)) (r : run) :
  exists ops,
    micro_batch_update (i =? last) batch r
      (snd (train_batch "100M" model_name "reg_loss" eval_dl n last (i, batch) r))
      ops
    /\ operations
         (trace (snd (train_batch "100M" model_name "reg_loss" eval_dl n last
                        (i, batch) r)))
       = operations (trace r) ++ ops
    /\ absolute_step
         (snd (train_batch "100M" model_name "reg_loss" eval_dl n last
                 (i, batch) r))
       = absolute_step r + 1.
Proof.
  destruct (LoopFacts.train_batch_events model_name eval_dl n last (i, batch) r)
    as (res & r' & turn & Hrun & _ & Hstep & _).
  rewrite Hrun in *. cbn [snd]. revert Hrun.
  unfold train_batch.
  unfold bind at 1. cbn [set_step modify].
  destruct (accumulate_update (i =? last) batch (with_step i r))
    as (r1 & ops & Hacc & Hupd & _ & _ & _ & _ & _ & Ht1).
  change (micro_batch_update (i =? last) batch r r1 ops) in Hupd.
  cbn [trace with_step] in Ht1.
  unfold bind at 1. rewrite Hacc.
  set (l := loss B (training (with_step i r)) (model (with_step i r)) batch).
  match goal with
  | |- ?tail r1 = _ -> _ =>
      assert (Hq : quiet r1 (snd (tail r1)))
  end.
  { apply bind_quiet; [apply count_batch_quiet|]. intros [] s1.
    apply bind_quiet; [apply log_training_quiet|]. intros [] s2.
    unfold bind at 1. cbn [get].
    apply bind_quiet.
    - destruct (Z.eqb (absolute_step s2 mod 200) 0);
        [apply periodic_evaluation_quiet | apply quiet_refl].
    - intros [] s3. unfold bind at 1. cbn [get].
      destruct (Z.eqb (absolute_step s3 mod 20000) 0);
        [apply save_checkpoint_quiet | apply quiet_refl]. }
  intros Hrun. rewrite Hrun in Hq. cbn [snd] in Hq.
  destruct Hq as (Ha & Hm & Hg & Ho & Hl & Hops).
  exists ops. split; [|split; [|exact Hstep]].
  - now apply (micro_batch_update_frame _ _ _ r1).
  - rewrite Hops, Ht1. unfold operations. rewrite flat_map_app.
    f_equal. apply operations_did.
Qed.

(** A pass, whatever its outcome: it takes the first [k] of its [L]
    micro-batches, all of them when it completes, and applies the operations
    of those; a pass that completes hands the accelerator back as it found
    it. *)
Lemma train_epoch_operations (model_name : string)
    (eval_dl train_dl : DataLoader B) (n epoch : Z) (r : run) :
  acc r = accelerator ->
  exists res r' k,
    train_epoch "100M" model_name "reg_loss" eval_dl train_dl n epoch r
      = (res, r')
    /\ 0 <= k <= Z.of_nat (length (batches train_dl epoch))
    /\ (res = Ok tt -> k = Z.of_nat (length (batches train_dl epoch)))
    /\ absolute_step r' = absolute_step r + k
    /\ operations (trace r')
       = operations (trace r)
         ++ flat_map (operations_at 2 (Z.of_nat (length (batches train_dl epoch))))
              (range k)
    /\ (res = Ok tt -> acc r' = accelerator).
Proof.
  intros Hacc. unfold train_epoch.
  unfold bind at 1. cbn [set_epoch modify].
  unfold bind at 1. cbn [set_training modify].
  set (todo := batches train_dl epoch).
  set (L := Z.of_nat (length todo)).
  set (r1 := with_training true (with_epoch epoch r)).
  assert (Hall : length (enumerate todo) = length todo).
  { unfold enumerate.
    now rewrite length_combine, length_map, length_seq, Nat.min_id. }
  destruct (for_each_progress
              (train_batch "100M" model_name "reg_loss" eval_dl n (L - 1))
              (enumerate todo)
              (fun k s =>
                 gradient_accumulation_steps (acc s) = 2
                 /\ step (acc s) = Z.of_nat k mod L
                 /\ (Z.of_nat k = L -> acc s = accelerator)
                 /\ absolute_step s = absolute_step r + Z.of_nat k
                 /\ operations (trace s)
                    = operations (trace r)
                      ++ flat_map (operations_at 2 L) (range (Z.of_nat k))))
    with (s := r1) as (k & Hk & (_ & _ & Hback & Hstep & Hops) & Hdone).
  - intros k [i batch] s Hlook (Hg & Hi & _ & Hstep & Hops).
    apply enumerate_lookup in Hlook as [-> Hbatch].
    assert (Hrange : 0 <= Z.of_nat k < L).
    { apply lookup_lt_Some in Hbatch. lia. }
    rewrite Z.mod_small in Hi by exact Hrange.
    destruct (train_batch_operations model_name eval_dl n (L - 1) (Z.of_nat k)
                batch s) as (ops & Hupd & Hops' & Hstep').
    destruct (do_sync_at (acc s) 2 L (Z.of_nat k) Hg Hi Hrange)
      as (Hsync & Hg' & Hi').
    destruct Hupd as [Hacc' Hupd]. rewrite Hsync in Hupd.
    assert (Hops1 : ops = operations_at 2 L (Z.of_nat k)).
    { unfold operations_at. destruct (sync_at 2 L (Z.of_nat k));
        now destruct Hupd as [-> _]. }
    rewrite Nat2Z.inj_succ. unfold Z.succ.
    split; [now rewrite Hacc'|]. split; [now rewrite Hacc'|].
    split; [|split; [rewrite Hstep', Hstep; lia|]].
    + intros Hlast. rewrite Hacc'.
      destruct (Z.eqb_spec (Z.of_nat k) (L - 1)) as [_|Hne]; [|lia].
      unfold do_sync, accelerator, accelerate.new. now rewrite Hg.
    + rewrite Hops', Hops, Hops1, <- app_assoc. f_equal.
      change (Z.of_nat k + 1) with (Z.succ (Z.of_nat k)).
      rewrite <- Nat2Z.inj_succ, range_succ, flat_map_app.
      cbn [flat_map]. now rewrite app_nil_r.
  - subst r1. project_run. rewrite Hacc.
    split; [reflexivity|]. split; [change (Z.of_nat 0) with 0; now rewrite Zmod_0_l|].
    split; [reflexivity|]. split; [change (Z.of_nat 0) with 0; lia|].
    change (Z.of_nat 0) with 0. cbn. now rewrite app_nil_r.
  - destruct (for_each (enumerate todo)
                (train_batch "100M" model_name "reg_loss" eval_dl n (L - 1)) r1)
      as [res r'] eqn:Hrun.
    cbn [fst snd] in *.
    exists res, r', (Z.of_nat k). rewrite Hall in *.
    split; [reflexivity|]. split; [lia|].
    split; [intros Hok; f_equal; now apply Hdone|].
    split; [subst r1; revert Hstep; project_run; intros ->; reflexivity|].
    split.
    + subst r1. revert Hops. project_run. intros ->. reflexivity.
    + intros Hok. apply Hback. unfold L. f_equal. now apply Hdone.
Qed.

End WithBackend.

(** The groups of a pass of [L] micro-batches whose first [k] are taken,
    under the accumulation count 2: pairs, and a last group of one when the
    pass ends on an odd micro-batch. *)
Lemma accumulated_pass (L : Z) (k : nat) :
  Z.of_nat k <= L ->
  accumulated (flat_map (operations_at 2 L) (range (Z.of_nat k)))
  = if Z.of_nat k <? L
    then (repeat 2 (Z.to_nat (Z.of_nat k / 2)), Z.of_nat k mod 2)
    else (repeat 2 (Z.to_nat (L / 2)) ++ (if L mod 2 =? 1 then [1] else []), 0).
Proof.
  induction k as [|k IH]; intros Hk.
  - change (Z.of_nat 0) with 0. cbn [range Z.to_nat seq map flat_map].
    destruct (Z.ltb_spec 0 L) as [_|H0]; [reflexivity|].
    replace L with 0 by lia. reflexivity.
  - rewrite range_succ, flat_map_app. cbn [flat_map]. rewrite app_nil_r.
    unfold accumulated in *. rewrite fold_left_app.
    rewrite IH by lia. clear IH.
    rewrite Nat2Z.inj_succ in *. unfold Z.succ in *.
    set (z := Z.of_nat k) in *.
    assert (Hz : 0 <= z) by (subst z; lia).
    destruct (Z.ltb_spec z L) as [_|]; [|lia].
    pose proof (Z.div_mod z 2 ltac:(lia)) as Hd.
    pose proof (Z.mod_pos_bound z 2 ltac:(lia)) as Hb.
    pose proof (Z.div_mod (z + 1) 2 ltac:(lia)) as Hd1.
    pose proof (Z.mod_pos_bound (z + 1) 2 ltac:(lia)) as Hb1.
    pose proof (Z.div_mod L 2 ltac:(lia)) as HdL.
    pose proof (Z.mod_pos_bound L 2 ltac:(lia)) as HbL.
    assert (Hq : 0 <= z / 2) by (apply Z.div_pos; lia).
    unfold operations_at, sync_at.
    destruct (Z.eqb_spec z (L - 1)) as [Hlast|Hmid]; cbn [orb].
    + destruct (Z.ltb_spec (z + 1) L) as [|_]; [lia|].
      cbn [fold_left accumulating fst snd].
      destruct (Z.eqb_spec (L mod 2) 1) as [Hodd|Heven].
      * replace (z mod 2 + 1) with 1 by lia.
        replace (L / 2) with (z / 2) by lia. reflexivity.
      * replace (z mod 2 + 1) with 2 by lia.
        replace (L / 2) with (z / 2 + 1) by lia.
        rewrite app_nil_r, Z2Nat.inj_add, repeat_app by lia. reflexivity.
    + destruct (Z.ltb_spec (z + 1) L) as [_|]; [|lia].
      destruct (Z.eqb_spec ((z + 1) mod 2) 0) as [Hsync|Hnot];
        cbn [fold_left accumulating fst snd].
      * replace (z mod 2 + 1) with 2 by lia.
        replace ((z + 1) / 2) with (z / 2 + 1) by lia.
        rewrite Hsync, Z2Nat.inj_add, repeat_app by lia. reflexivity.
      * replace (z mod 2 + 1) with ((z + 1) mod 2) by lia.
        replace ((z + 1) / 2) with (z / 2) by lia. reflexivity.
Qed.

End Passes.

(** ** What a call of [main] does *)

Module MainFacts.

Import components torch accelerate mt_sweep.

Section WithBackend.

Context {B : Backend}.

(** The attributes that [__init__] sets are the five of lines 30-41: neither
    [n_embds] nor [get] is among them. *)
Lemma getattr_n_embds {S} (config : GPT2Config.t) (s : S) :
  GPT2Config.getattr config "n_embds" s = (Raise (AttributeError "n_embds"), s).
Proof. reflexivity. Qed.

End WithBackend.

(** X3.  When the set-up of lines 74-119 succeeds and the configuration and
    the model are built (lines 121-131), [main] raises [AttributeError] at
    line 135: the object that [GPT2Config(config)] returns has the attributes
    [vocab_size], [n_embd], [dropout], [block_size] and [blocks], and no
    [n_embds].  The generator has drawn the seed, the weights are allocated,
    and the training loop has not been entered. *)
Theorem main_raises_at_the_model_name {B : Backend}
    (LM : GPT2Config.t -> M (list alloc) (weights B)) (tokenizer : Tokenizer)
    (new_optimizer : optimizer_class -> weights B -> pyval -> opt_state B)
    (iter : GPT2Config.value -> M process (list GPT2Config.value))
    (str : GPT2Config.value -> string)
    (call : GPT2Config.value -> M process (gmap string pyval))
    (train valid : list (example B)) (cfg : gmap string pyval)
    (p : process) (su : setup) (g' : list Z) (config : GPT2Config.t)
    (h' h'' : list alloc) (w : weights B) :
  main_setup 64 train valid cfg (generator p) = (Ok su, g') ->
  build_config tokenizer su (allocated p) = (Ok config, h') ->
  LM config h' = (Ok w, h'') ->
  main LM tokenizer new_optimizer iter str call train valid cfg p
  = (Raise (AttributeError "n_embds"),
     {| generator := g'; allocated := h''; session := session p |}).
Proof.
  intros Hsu Hconfig Hmodel. unfold main.
  unfold bind at 1. unfold drawing at 1. rewrite Hsu.
  unfold bind at 1. unfold allocating at 1.
  cbn [generator allocated session]. rewrite Hconfig.
  unfold bind at 1. unfold allocating at 1.
  cbn [generator allocated session]. rewrite Hmodel.
  unfold bind at 1. rewrite getattr_n_embds. reflexivity.
Qed.

Lemma main_raises_at_the_model_name_witness :
  exists g' h'',
    main (B := Toy.backend) (fun _ => ret 0) Toy.gpt2_tokenizer
      (fun _ _ _ => 0) (fun _ => ret []) (fun _ => ""%string) (fun _ => ret ∅)
      [7; 8] [9] Toy.sweep_run
      {| generator := [41]; allocated := []; session := None |}
    = (Raise (AttributeError "n_embds"),
       {| generator := g'; allocated := h''; session := None |})
    /\ g' = [] /\ length h'' = 24%nat.
Proof.
  eexists _, _. split.
  - eapply (main_raises_at_the_model_name (B := Toy.backend) (fun _ => ret 0)
             Toy.gpt2_tokenizer (fun _ _ _ => 0) (fun _ => ret [])
             (fun _ => ""%string) (fun _ => ret ∅) [7; 8] [9] Toy.sweep_run
             {| generator := [41]; allocated := []; session := None |}).
    + vm_compute. reflexivity.
    + vm_compute. reflexivity.
    + reflexivity.
  - split; reflexivity.
Defined.

(** X15.  No call of [main] returns, and none enters the training loop of
    lines 183-286: whatever the data sets, the sweep's values, the tokenizer,
    the model constructor, and whatever iteration, conversion and call do on
    an attribute's value, [main] raises, at line 135 at the latest, and the
    loop's store is the one the process had. *)
Theorem main_never_enters_the_loop {B : Backend}
    (LM : GPT2Config.t -> M (list alloc) (weights B)) (tokenizer : Tokenizer)
    (new_optimizer : optimizer_class -> weights B -> pyval -> opt_state B)
    (iter : GPT2Config.value -> M process (list GPT2Config.value))
    (str : GPT2Config.value -> string)
    (call : GPT2Config.value -> M process (gmap string pyval))
    (train valid : list (example B)) (cfg : gmap string pyval)
    (p : process) :
  exists e p',
    main LM tokenizer new_optimizer iter str call train valid cfg p
      = (Raise e, p')
    /\ session p' = session p.
Proof.
  unfold main.
  unfold bind at 1. unfold drawing at 1.
  destruct (main_setup 64 train valid cfg (generator p)) as [[su|e] g'];
    [|eexists _, _; split; reflexivity].
  unfold bind at 1. unfold allocating at 1.
  cbn [generator allocated session].
  destruct (build_config tokenizer su (allocated p)) as [[config|e] h'];
    [|eexists _, _; split; reflexivity].
  unfold bind at 1. unfold allocating at 1.
  cbn [generator allocated session].
  destruct (LM config h') as [[w|e] h''];
    [|eexists _, _; split; reflexivity].
  unfold bind at 1. rewrite getattr_n_embds.
  eexists _, _. split; reflexivity.
Qed.

End MainFacts.

(** ** The loop of lines 183-286, from entry to end *)

Module LoopClaims.

Import torch accelerate mt_sweep StepFacts ExactTurns WholeRuns TurnTraces.

(** Taking a turn apart, for a projection that sees no operation. *)
Ltac turn_shapes H :=
  destruct H as [ops logs ev ck Hlogs Hev Hck Hmul];
  rewrite !flat_map_app;
  rewrite !TraceFacts.flat_map_operations by reflexivity;
  destruct Hlogs, Hev, Hck; cbn [flat_map app].

Section WithBackend.

Context {B : Backend}.

(** *** The steps of the training loss *)

Lemma turn_train_loss_step (model_name : string) (s : Z)
    (turn : list (@event B)) :
  turn_events model_name s turn -> log_steps_of "train/train_loss" turn = [s].
Proof. intros H. unfold log_steps_of. turn_shapes H; reflexivity. Qed.

Lemma loop_train_loss_steps (model_name : string) (n : Z)
    (tr : list (@event B)) :
  loop_events model_name n tr ->
  log_steps_of "train/train_loss" tr = steps_to n.
Proof.
  induction 1 as [|n tr turn Hloop IH Hturn]; [reflexivity|].
  pose proof (TraceFacts.loop_events_step _ _ _ Hloop) as Hn.
  pose proof (turn_train_loss_step _ _ _ Hturn) as Hstep.
  unfold log_steps_of in *.
  now rewrite flat_map_app, IH, Hstep, steps_to_succ.
Qed.

Lemma run_train_loss_steps (model_name : string) (n : Z)
    (tr : list (@event B)) :
  run_events model_name n tr ->
  log_steps_of "train/train_loss" tr = steps_to n.
Proof.
  destruct 1 as [n tr ck fin Hloop Hck Hfin].
  pose proof (loop_train_loss_steps _ _ _ Hloop) as Hsteps.
  unfold log_steps_of in *. rewrite !flat_map_app, Hsteps.
  destruct Hck, Hfin as [->| ->]; cbn [flat_map app]; now rewrite app_nil_r.
Qed.

(** *** The files written *)

Lemma turn_files (model_name : string) (s : Z) (turn : list (@event B)) :
  turn_events model_name s turn ->
  made_dirs turn = written_dirs turn
  /\ (files_written turn = []
      \/ (s mod 20000 = 0
          /\ (files_written turn = [(checkpoint_at model_name s, ModelFiles)]
              \/ files_written turn = checkpoint_pair model_name s))).
Proof.
  intros H. unfold made_dirs, written_dirs, files_written, checkpoint_pair.
  turn_shapes H; (split; [reflexivity|]); auto;
    right; (split; [apply Hmul; discriminate|]); auto.
Qed.

Lemma loop_files (model_name : string) (n : Z) (tr : list (@event B)) :
  loop_events model_name n tr ->
  made_dirs tr = written_dirs tr
  /\ StronglySorted Z.lt (map file_rank (files_written tr))
  /\ Forall (periodic_file model_name n) (files_written tr).
Proof.
  induction 1 as [|n tr turn Hloop (IHd & IHs & IHall) Hturn].
  - split; [reflexivity|]. split; constructor.
  - pose proof (TraceFacts.loop_events_step _ _ _ Hloop) as Hn.
    assert (IHall' : Forall (periodic_file model_name (n + 1))
                       (files_written tr)).
    { eapply Forall_impl; [exact IHall|]. unfold periodic_file.
      intros f (? & ? & ?). repeat split; try assumption; lia. }
    destruct (turn_files _ _ _ Hturn) as (Hd & Hfiles).
    unfold made_dirs, written_dirs, files_written in *.
    rewrite !flat_map_app, IHd, Hd.
    split; [reflexivity|].
    assert (Hbelow : forall x, x ∈ map file_rank (flat_map
                (fun e : @event B =>
                   match e with
                   | SavePretrained d _ => [(d, ModelFiles)]
                   | SaveStates d _ => [(d, StatesBundle)]
                   | _ => []
                   end) tr) -> x < 2 * (n + 1)).
    { intros x Hx. apply list_elem_of_fmap in Hx as (f & -> & Hf).
      rewrite Forall_forall in IHall.
      destruct (IHall f Hf) as (_ & ? & _).
      unfold file_rank. destruct (snd f); lia. }
    destruct Hfiles as [->|[Hmul [->| ->]]].
    + rewrite app_nil_r. split; assumption.
    + split.
      * rewrite map_app. apply StronglySorted_app_2; [|exact IHs|].
        -- intros x y Hx Hy. apply Hbelow in Hx.
           apply list_elem_of_singleton in Hy. subst y.
           unfold file_rank. cbn. lia.
        -- repeat constructor.
      * apply Forall_app. split; [exact IHall'|].
        constructor; [|constructor]. unfold periodic_file. cbn.
        split; [reflexivity|]. split; [lia | exact Hmul].
    + split.
      * rewrite map_app. apply StronglySorted_app_2; [|exact IHs|].
        -- intros x y Hx Hy. apply Hbelow in Hx.
           unfold checkpoint_pair, file_rank in Hy. cbn in Hy.
           apply elem_of_cons in Hy as [->|Hy];
             [|apply list_elem_of_singleton in Hy; subst y]; lia.
        -- unfold checkpoint_pair, file_rank. cbn.
           repeat constructor. lia.
      * apply Forall_app. split; [exact IHall'|].
        unfold checkpoint_pair, periodic_file.
        repeat constructor; cbn; try lia; exact Hmul.
Qed.

(** The files written in a run: those of the periodic checkpoints, in the
    order of their steps, the model's files before the bundle; then those of
    the final checkpoint, at the last step. *)
Lemma run_files (model_name : string) (n : Z) (tr : list (@event B)) :
  run_events model_name n tr ->
  exists periodic final,
    files_written tr = periodic ++ final
    /\ made_dirs tr = written_dirs tr
    /\ StronglySorted Z.lt (map file_rank periodic)
    /\ Forall (periodic_file model_name n) periodic
    /\ (final = []
        \/ final = [(checkpoint_at model_name n, ModelFiles)]
        \/ final = checkpoint_pair model_name n).
Proof.
  destruct 1 as [n tr ck fin Hloop Hck Hfin].
  destruct (loop_files _ _ _ Hloop) as (Hd & Hs & Hall).
  exists (files_written tr), (files_written ck).
  split; [|split; [|split; [exact Hs | split; [exact Hall|]]]].
  - unfold files_written. rewrite !flat_map_app.
    destruct Hfin as [->| ->]; cbn [flat_map]; now rewrite app_nil_r.
  - unfold made_dirs, written_dirs in *. rewrite !flat_map_app, Hd.
    destruct Hck, Hfin as [->| ->]; reflexivity.
  - destruct Hck; auto.
Qed.

(** The files of [s] complete turns. *)
Lemma complete_turns_files (model_name : string) (sch : scheduler)
    (n g L s : Z) (tr : list (@event B)) :
  complete_turns model_name sch n g L s tr ->
  files_written tr = flat_map (checkpoint_pair model_name) (multiples 20000 s).
Proof.
  induction 1 as [|s tr l count lr vl w st Hturns IH Hce Hcs Hsch Hlr];
    [reflexivity|].
  pose proof (complete_turns_step _ _ _ _ _ _ _ Hturns) as Hs.
  unfold files_written in *.
  rewrite flat_map_app, IH, flat_map_complete_turn.
  rewrite TraceFacts.flat_map_operations by reflexivity.
  rewrite multiples_succ, flat_map_app by lia.
  f_equal. cbn [flat_map training_logs evaluation_logs app].
  destruct (Z.eqb ((s + 1) mod 200) 0), (Z.eqb ((s + 1) mod 20000) 0);
    reflexivity.
Qed.

End WithBackend.

(** C7.  Across the loop of lines 183-286, entered with nothing logged and
    however it ends: under each metric name the step indices of the logged
    entries are strictly increasing, so none repeats; the training loss is
    logged at every step 1, 2, ... up to the last one, without a gap; the
    entries are emitted in the order of their steps (the metrics logged at
    one step share its index); and every index from 1 to the last step is
    logged and no other. *)
Theorem logged_steps_in_order {B : Backend} (model_name : string)
    (su : setup) (r0 : @run B) :
  trace r0 = [] ->
  let r' := snd (main_train model_name su r0) in
  (forall key, StronglySorted Z.lt (log_steps_of key (trace r')))
  /\ log_steps_of "train/train_loss" (trace r') = steps_to (absolute_step r')
  /\ StronglySorted Z.le (log_steps (trace r'))
  /\ (forall x, In x (log_steps (trace r')) <-> 1 <= x <= absolute_step r').
Proof.
  intros Hempty r'.
  destruct (LoopFacts.main_train_events model_name su r0 Hempty) as [Hrun _].
  fold r' in Hrun.
  destruct (TraceFacts.run_log_steps _ _ _ Hrun) as (Hs & Hin & Hkey).
  split; [exact Hkey|].
  split; [exact (run_train_loss_steps _ _ _ Hrun)|].
  split; [exact Hs|].
  intros x. rewrite <- list_elem_of_In. apply Hin.
Qed.

Lemma logged_steps_in_order_witness :
  let r' := snd (main_train (B := Toy.backend) "788" (Toy.setup_for [7] [9])
                   (Toy.start [7] [9])) in
  absolute_step r' = 17
  /\ log_steps_of "train/learning_rate" (trace r')
     = [1; 2; 3; 4; 5; 6; 7; 8; 9; 10; 11; 12; 13; 14; 15; 16; 17]
  /\ (forall key, StronglySorted Z.lt (log_steps_of key (trace r')))
  /\ log_steps_of "train/train_loss" (trace r') = steps_to (absolute_step r')
  /\ StronglySorted Z.le (log_steps (trace r'))
  /\ (forall x, In x (log_steps (trace r')) <-> 1 <= x <= absolute_step r').
Proof.
  split; [vm_compute; reflexivity|]. split; [vm_compute; reflexivity|].
  apply (logged_steps_in_order (B := Toy.backend) "788"
           (Toy.setup_for [7] [9]) (Toy.start [7] [9])).
  reflexivity.
Defined.

(** C10.  At every periodic evaluation (lines 224-237, at any store, for a
    validation loader with a batch), [evaluate] returns the validation loss
    and its perplexity, the exponential of that loss, and the value then
    logged under ["validation/valid_accuracy"], at the current step, is that
    perplexity; the loss goes under ["validation/valid_loss"].  Across the
    loop of lines 183-286, entered with nothing logged, the values under the
    accuracy key are, in order, the perplexities that the calls of [evaluate]
    printed, at multiples of 200 steps, and no key that is logged contains
    "perplexity". *)
Theorem accuracy_key_carries_perplexity {B : Backend} (model_name : string)
    (su : setup) (r0 r : @run B) :
  trace r0 = [] ->
  batches (eval_dataloader su) 0 <> [] ->
  (exists l p r1 r2,
      evaluate (eval_dataloader su) (with_training false r) = (Ok (l, p), r1)
      /\ p = exp B l
      /\ periodic_evaluation (eval_dataloader su) r = (Ok tt, r2)
      /\ trace r2
         = trace r
           ++ [Print l p;
               Log "validation/valid_loss" (LogFloat l) (absolute_step r);
               Log "validation/valid_accuracy" (LogFloat p) (absolute_step r)]
      /\ logged_under "validation/valid_accuracy" (trace r2)
         = logged_under "validation/valid_accuracy" (trace r) ++ [LogFloat p])
  /\ let tr := trace (snd (main_train model_name su r0)) in
     logged_under "validation/valid_accuracy" tr
       = map (fun lp => LogFloat (snd lp)) (printed tr)
     /\ logged_under "validation/valid_loss" tr
          = map (fun lp => LogFloat (fst lp)) (printed tr)
     /\ Forall (fun lp => snd lp = exp B (fst lp)) (printed tr)
     /\ Forall (fun x => x mod 200 = 0)
          (log_steps_of "validation/valid_accuracy" tr)
     /\ Forall (fun k => occurs_in "perplexity" k = false) (log_keys tr).
Proof.
  intros Hempty Hvalid. split.
  - destruct (LoopFacts.periodic_evaluation_run (eval_dataloader su) r Hvalid)
      as (l & r2 & Hrun & Hl & Ht & _).
    pose proof (evaluate_run (eval_dataloader su) (with_training false r)
                  Hvalid) as Hev.
    change (model (with_training false r)) with (model r) in Hev.
    rewrite <- Hl in Hev.
    eexists l, (exp B l), _, r2. split; [exact Hev|].
    split; [reflexivity|]. split; [exact Hrun|]. split; [exact Ht|].
    rewrite Ht. unfold logged_under. rewrite flat_map_app. reflexivity.
  - intros tr.
    destruct (LoopFacts.main_train_events model_name su r0 Hempty)
      as [Hrun _].
    destruct (TraceFacts.run_logged _ _ _ Hrun) as (H1 & H2 & H3 & H4 & H5).
    repeat split; assumption.
Qed.

(** A loop that reaches a periodic evaluation: 12 micro-batches a pass, 204
    steps; at step 200 the model has had 100 updates, the validation loss is
    4 and 16, its perplexity, is what goes under the accuracy key. *)
Lemma accuracy_key_carries_perplexity_witness :
  let su := Toy.setup_for (repeat 1 384) [104] in
  let r0 := Toy.start (repeat 1 384) [104] in
  let tr := trace (snd (main_train (B := Toy.backend) "788" su r0)) in
  (printed tr = [(Toy.Fin 4, Toy.Fin 16)]
   /\ logged_under "validation/valid_loss" tr
      = [LogFloat (B := Toy.backend) (Toy.Fin 4)]
   /\ logged_under "validation/valid_accuracy" tr
      = [LogFloat (B := Toy.backend) (Toy.Fin 16)]
   /\ log_steps_of "validation/valid_accuracy" tr = [200])
  /\ (exists l p r1 r2,
         evaluate (eval_dataloader su) (with_training false r0)
           = (Ok (l, p), r1)
         /\ p = exp Toy.backend l
         /\ periodic_evaluation (eval_dataloader su) r0 = (Ok tt, r2)
         /\ trace r2
            = trace r0
              ++ [Print l p;
                  Log "validation/valid_loss" (LogFloat l) (absolute_step r0);
                  Log "validation/valid_accuracy" (LogFloat p)
                    (absolute_step r0)]
         /\ logged_under "validation/valid_accuracy" (trace r2)
            = logged_under "validation/valid_accuracy" (trace r0)
              ++ [LogFloat p])
  /\ logged_under "validation/valid_accuracy" tr
     = map (fun lp => LogFloat (snd lp)) (printed tr)
  /\ logged_under "validation/valid_loss" tr
     = map (fun lp => LogFloat (fst lp)) (printed tr)
  /\ Forall (fun lp => snd lp = exp Toy.backend (fst lp)) (printed tr)
  /\ Forall (fun x => x mod 200 = 0)
       (log_steps_of "validation/valid_accuracy" tr)
  /\ Forall (fun k => occurs_in "perplexity" k = false) (log_keys tr).
Proof.
  intros su r0 tr.
  split; [vm_compute; repeat split|].
  apply (accuracy_key_carries_perplexity (B := Toy.backend) "788" su r0 r0).
  - reflexivity.
  - discriminate.
Defined.

(** C6, as amended.  Across the loop of lines 183-286, entered with nothing
    logged and however it ends: every file of a checkpoint (the model's files
    and the [accelerator_states] bundle) goes to the directory keyed by the
    model name, the run name and the step count, and every directory made
    receives the model's files.  The files of the periodic checkpoints are
    written in the order of their steps, at positive multiples of 20000, the
    model's files before the bundle, and none of them is written twice: no
    later periodic checkpoint touches an earlier one.  The final checkpoint
    goes to the directory of the last step, and whenever the last step is not
    a positive multiple of 20000 no file is written twice in the run. *)
Theorem checkpoint_directories_distinct {B : Backend} (model_name : string)
    (su : setup) (r0 : @run B) :
  trace r0 = [] ->
  let r' := snd (main_train model_name su r0) in
  exists periodic final,
    files_written (trace r') = periodic ++ final
    /\ Forall (periodic_file model_name (absolute_step r')) periodic
    /\ StronglySorted Z.lt (map file_rank periodic)
    /\ NoDup periodic
    /\ (final = []
        \/ final = [(checkpoint_at model_name (absolute_step r'), ModelFiles)]
        \/ final = checkpoint_pair model_name (absolute_step r'))
    /\ made_dirs (trace r') = written_dirs (trace r')
    /\ (~ (0 < absolute_step r' /\ absolute_step r' mod 20000 = 0) ->
        NoDup (files_written (trace r'))).
Proof.
  intros Hempty r'.
  destruct (LoopFacts.main_train_events model_name su r0 Hempty) as [Hrun _].
  fold r' in Hrun.
  destruct (run_files _ _ _ Hrun)
    as (periodic & final & Hw & Hd & Hs & Hall & Hfinal).
  pose proof (RunFacts.sorted_steps_no_dup _ _ Hs) as Hnd.
  exists periodic, final.
  split; [exact Hw|]. split; [exact Hall|]. split; [exact Hs|].
  split; [exact Hnd|]. split; [exact Hfinal|]. split; [exact Hd|].
  intros Hlast. rewrite Hw. apply NoDup_app. split; [exact Hnd|]. split.
  - intros f Hf Hin. rewrite Forall_forall in Hall.
    destruct (Hall _ Hf) as (_ & Hpos & Hmul).
    apply Hlast.
    destruct Hfinal as [->|[->| ->]]; [inversion Hin| |].
    + apply list_elem_of_singleton in Hin. subst f.
      cbn [fst dir_step checkpoint_at] in Hpos, Hmul. split; [lia|exact Hmul].
    + unfold checkpoint_pair in Hin.
      apply elem_of_cons in Hin as [->|Hin];
        [|apply list_elem_of_singleton in Hin; subst f];
        cbn [fst dir_step checkpoint_at] in Hpos, Hmul;
        (split; [lia|exact Hmul]).
  - destruct Hfinal as [->|[->| ->]]; [constructor | apply NoDup_singleton|].
    unfold checkpoint_pair.
    apply NoDup_cons. split; [|apply NoDup_singleton].
    intros Hin. apply list_elem_of_singleton in Hin. discriminate Hin.
Qed.

(** A loop of 17 passes of 2353 micro-batches: 40001 steps, two periodic
    checkpoints and the final one, six files, each written once. *)
Lemma checkpoint_directories_distinct_witness :
  let train := repeat 0 (Z.to_nat 75296) in
  let r' := snd (main_train (B := Toy.backend) "788" (Toy.setup_for train [9])
                   (Toy.start train [9])) in
  absolute_step r' = 40001
  /\ files_written (trace r')
     = [(checkpoint_at "788" 20000, ModelFiles);
        (checkpoint_at "788" 20000, StatesBundle);
        (checkpoint_at "788" 40000, ModelFiles);
        (checkpoint_at "788" 40000, StatesBundle);
        (checkpoint_at "788" 40001, ModelFiles);
        (checkpoint_at "788" 40001, StatesBundle)]
  /\ NoDup (files_written (trace r')).
Proof.
  intros train r'.
  assert (Htrain : Z.of_nat (length train) = 75296).
  { subst train. rewrite repeat_length. apply Z2Nat.id. lia. }
  clearbody train.
  assert (Hpasses : even_passes (Toy.setup_for train [9]) 17 2353 75296).
  { unfold even_passes.
    split; [reflexivity|]. split; [reflexivity|]. split; [reflexivity|].
    split; [|split; [|split; [|left; discriminate]]].
    - intros k. unfold batches.
      cbn [train_dataloader Toy.setup_for shuffle dataset batch_size permute
           Toy.backend].
      rewrite CompleteRuns.chunks_length by (cbv; lia).
      rewrite length_rev, Htrain. reflexivity.
    - intros k. unfold batches.
      cbn [train_dataloader Toy.setup_for shuffle dataset batch_size permute
           Toy.backend].
      rewrite CompleteRuns.chunks_concat by (cbv; lia).
      now rewrite length_rev.
    - cbn [train_dataloader Toy.setup_for dataset batch_size_local].
      change (example Toy.backend) with Z. rewrite Htrain. discriminate. }
  destruct (RunOutcomes.complete_run (Toy.setup_for train [9]) "788"
              (lr_scheduler (Toy.start train [9])) (Toy.start train [9])
              17 2353 75296 (RunOutcomes.toy_fresh train [9]) Hpasses)
    as (r2 & Hrun & (tr & Hturns & Ht) & Ha & _).
  assert (Hr' : r' = r2) by (subst r'; now rewrite Hrun).
  assert (Hfiles : files_written (trace r')
                   = flat_map (checkpoint_pair "788") [20000; 40000]
                     ++ checkpoint_pair "788" 40001).
  { rewrite Hr', Ht. unfold files_written.
    rewrite !flat_map_app.
    pose proof (complete_turns_files _ _ _ _ _ _ _ Hturns) as Hper.
    unfold files_written in Hper. rewrite Hper.
    cbn [flat_map checkpoint_files app]. rewrite app_nil_r. reflexivity. }
  assert (Hstep : absolute_step r' = 40001) by (rewrite Hr', Ha; reflexivity).
  split; [exact Hstep|]. split; [exact Hfiles|].
  destruct (checkpoint_directories_distinct (B := Toy.backend) "788"
              (Toy.setup_for train [9]) (Toy.start train [9]) eq_refl)
    as (periodic & final & _ & _ & _ & _ & _ & _ & Hnd).
  apply Hnd. fold r'. rewrite Hstep. intros [_ Hmul]. discriminate Hmul.
Defined.

(** C6, as stated, fails: with 640000 training sequences a pass has 20000
    micro-batches, 17 passes take 340000 steps, and the final checkpoint is
    written to [checkpoint_340000], the directory that the periodic
    checkpoint of step 340000 was written to: the model's files there are
    written a second time. *)
Lemma final_checkpoint_rewrites_periodic_files :
  let train := repeat 0 (Z.to_nat 640000) in
  let r' := snd (main_train (B := Toy.backend) "788" (Toy.setup_for train [9])
                   (Toy.start train [9])) in
  absolute_step r' = 340000
  /\ ~ NoDup (written_dirs (trace r'))
  /\ exists before between after,
       files_written (trace r')
       = before ++ [(checkpoint_at "788" 340000, ModelFiles)]
         ++ between ++ [(checkpoint_at "788" 340000, ModelFiles)] ++ after.
Proof.
  intros train r'.
  assert (Htrain : Z.of_nat (length train) = 640000).
  { subst train. rewrite repeat_length. apply Z2Nat.id. lia. }
  clearbody train.
  assert (Hpasses : even_passes (Toy.setup_for train [9]) 17 20000 640000).
  { unfold even_passes.
    split; [reflexivity|]. split; [reflexivity|]. split; [reflexivity|].
    split; [|split; [|split; [|left; discriminate]]].
    - intros k. unfold batches.
      cbn [train_dataloader Toy.setup_for shuffle dataset batch_size permute
           Toy.backend].
      rewrite CompleteRuns.chunks_length by (cbv; lia).
      rewrite length_rev, Htrain. reflexivity.
    - intros k. unfold batches.
      cbn [train_dataloader Toy.setup_for shuffle dataset batch_size permute
           Toy.backend].
      rewrite CompleteRuns.chunks_concat by (cbv; lia).
      now rewrite length_rev.
    - cbn [train_dataloader Toy.setup_for dataset batch_size_local].
      change (example Toy.backend) with Z. rewrite Htrain. discriminate. }
  destruct (RunOutcomes.complete_run (Toy.setup_for train [9]) "788"
              (lr_scheduler (Toy.start train [9])) (Toy.start train [9])
              17 20000 640000 (RunOutcomes.toy_fresh train [9]) Hpasses)
    as (r2 & Hrun & (tr & Hturns & Ht) & Ha & _).
  assert (Hr' : r' = r2) by (subst r'; now rewrite Hrun).
  assert (Hfiles : files_written (trace r')
                   = flat_map (checkpoint_pair "788") (multiples 20000 320000)
                     ++ checkpoint_pair "788" 340000
                     ++ checkpoint_pair "788" 340000).
  { rewrite Hr', Ht. unfold files_written.
    rewrite !flat_map_app.
    pose proof (complete_turns_files _ _ _ _ _ _ _ Hturns) as Hper.
    unfold files_written in Hper. rewrite Hper.
    cbn [flat_map checkpoint_files app]. reflexivity. }
  split; [rewrite Hr', Ha; reflexivity|]. split.
  - assert (Hdirs : written_dirs (trace r')
                    = map (checkpoint_at "788") (multiples 20000 320000)
                      ++ [checkpoint_at "788" 340000; checkpoint_at "788" 340000]).
    { rewrite Hr', Ht.
      destruct (complete_turns_trace _ _ _ 2 20000 _ _ ltac:(lia) ltac:(lia)
                  Hturns) as (_ & _ & _ & _ & Hw & _).
      unfold written_dirs in *. rewrite !flat_map_app, Hw. reflexivity. }
    rewrite Hdirs. intros Hnd. apply NoDup_app in Hnd as (_ & _ & Hnd).
    apply NoDup_cons in Hnd as [Hnot _]. apply Hnot. left.
  - rewrite Hfiles. unfold checkpoint_pair at 2 3.
    exists (flat_map (checkpoint_pair "788") (multiples 20000 320000)),
      [(checkpoint_at "788" 340000, StatesBundle)],
      [(checkpoint_at "788" 340000, StatesBundle)].
    reflexivity.
Qed.

(** C8, as amended.  The accumulation mechanism counts
    [64 // MAX_GPU_BATCH_SIZE = 2] micro-batches, which is batch size / cap
    for the batch size 64 of the script, the quotient that [main] computes on
    line 98.  In a pass of lines 189-260 entered with the module-level
    accelerator, whatever the outcome of the pass, an update of the weights
    follows every second micro-batch and the last micro-batch of the pass:
    each update applies the gradients of 2 micro-batches, except that the
    last update of a pass with an odd number of micro-batches applies 1; the
    gradients are cleared after each update, and a pass that completes hands
    the accelerator back as it found it. *)
Theorem updates_apply_pairs_of_micro_batches {B : Backend}
    (train valid : list (example B)) (cfg : gmap string pyval)
    (g g' : list Z) (su : setup) (model_name : string) (n epoch : Z)
    (r : run) :
  main_setup 64 train valid cfg g = (Ok su, g') ->
  acc r = accelerator ->
  let L := Z.of_nat (length (batches (train_dataloader su) epoch)) in
  gradient_accumulation_steps (acc r) = 64 / MAX_GPU_BATCH_SIZE
  /\ gradient_accumulation_steps_local su = Some (64 / MAX_GPU_BATCH_SIZE)
  /\ 64 / MAX_GPU_BATCH_SIZE = 2
  /\ exists res r' k ops,
       train_epoch "100M" model_name "reg_loss" (eval_dataloader su)
         (train_dataloader su) n epoch r = (res, r')
       /\ operations (trace r') = operations (trace r) ++ ops
       /\ 0 <= k <= L
       /\ (res = Ok tt -> k = L)
       /\ absolute_step r' = absolute_step r + k
       /\ accumulated ops
          = (if k <? L
             then (repeat 2 (Z.to_nat (k / 2)), k mod 2)
             else (repeat 2 (Z.to_nat (L / 2))
                   ++ (if L mod 2 =? 1 then [1] else []), 0))
       /\ (res = Ok tt -> acc r' = accelerator).
Proof.
  intros Hsu Hacc L.
  pose proof (SetupFacts.main_setup_inv _ _ _ _ _ _ _ Hsu) as (_ & _ & Hloc & _).
  change (64 >? MAX_GPU_BATCH_SIZE) with true in Hloc. cbv iota in Hloc.
  rewrite Hacc.
  split; [reflexivity|]. split; [exact Hloc|]. split; [reflexivity|].
  destruct (Passes.train_epoch_operations model_name (eval_dataloader su)
              (train_dataloader su) n epoch r Hacc)
    as (res & r' & k & Hrun & Hk & Hdone & Hstep & Hops & Hback).
  fold L in Hk, Hdone, Hops.
  exists res, r', k, (flat_map (operations_at 2 L) (range k)).
  split; [exact Hrun|]. split; [exact Hops|]. split; [exact Hk|].
  split; [exact Hdone|]. split; [exact Hstep|]. split; [|exact Hback].
  rewrite <- (Z2Nat.id k) by lia.
  rewrite Passes.accumulated_pass by lia.
  reflexivity.
Qed.

Lemma updates_apply_pairs_of_micro_batches_witness :
  let su := Toy.setup_for (repeat 1 96) [9] in
  let r := Toy.start (repeat 1 96) [9] in
  gradient_accumulation_steps (acc r) = 64 / MAX_GPU_BATCH_SIZE
  /\ gradient_accumulation_steps_local su = Some (64 / MAX_GPU_BATCH_SIZE)
  /\ 64 / MAX_GPU_BATCH_SIZE = 2
  /\ exists res r' k ops,
       train_epoch "100M" "788" "reg_loss" (eval_dataloader su)
         (train_dataloader su) 3 0 r = (res, r')
       /\ operations (trace r') = operations (trace r) ++ ops
       /\ 0 <= k <= 3
       /\ (res = Ok tt -> k = 3)
       /\ absolute_step r' = absolute_step r + k
       /\ accumulated ops
          = (if k <? 3
             then (repeat 2 (Z.to_nat (k / 2)), k mod 2)
             else (repeat 2 (Z.to_nat (3 / 2))
                   ++ (if 3 mod 2 =? 1 then [1] else []), 0))
       /\ (res = Ok tt -> acc r' = accelerator).
Proof.
  exact (updates_apply_pairs_of_micro_batches (B := Toy.backend)
           (repeat 1 96) [9] Toy.sweep_run [41] []
           (Toy.setup_for (repeat 1 96) [9]) "788" 3 0
           (Toy.start (repeat 1 96) [9]) eq_refl eq_refl).
Defined.

(** C8, as stated, fails: at the batch size 64 of the script, where batch
    size / cap is 2, a pass of three micro-batches (96 sequences) makes two
    updates of the weights, and the second applies the gradients of one
    micro-batch. *)
Lemma last_update_of_an_odd_pass_applies_one :
  let su := Toy.setup_for (repeat 1 96) [9] in
  let out := train_epoch (B := Toy.backend) "100M" "788" "reg_loss"
               (eval_dataloader su) (train_dataloader su) 3 0
               (Toy.start (repeat 1 96) [9]) in
  main_setup (B := Toy.backend) 64 (repeat 1 96) [9] Toy.sweep_run [41]
    = (Ok su, [])
  /\ MAX_GPU_BATCH_SIZE < 64
  /\ 64 / MAX_GPU_BATCH_SIZE = 2
  /\ fst out = Ok tt
  /\ operations (trace (snd out))
     = [Backward; Backward; SchedulerStep; OptimizerStep; ZeroGrad;
        Backward; SchedulerStep; OptimizerStep; ZeroGrad]
  /\ fst (accumulated (operations (trace (snd out)))) = [2; 1]
  /\ ~ Forall (fun m => m = 64 / MAX_GPU_BATCH_SIZE)
         (fst (accumulated (operations (trace (snd out))))).
Proof.
  intros su out.
  split; [reflexivity|]. split; [reflexivity|]. split; [reflexivity|].
  split; [vm_compute; reflexivity|]. split; [vm_compute; reflexivity|].
  split; [vm_compute; reflexivity|].
  assert (Hacc : fst (accumulated (operations (trace (snd out)))) = [2; 1])
    by (vm_compute; reflexivity).
  rewrite Hacc. intros H.
  apply Forall_inv_tail in H. apply Forall_inv in H. discriminate H.
Qed.

End LoopClaims.
